(** * Spade_PublicTransportation: a decentralised transit fleet

    A shallow embedding of the routing engine ([models/city_map.py]), the
    station-side Contract-Net negotiation ([agents/station.py]), the vehicle
    controller ([agents/vehicle.py]) and the workshop ([agents/maintenance.py]),
    followed by the properties of these programs.

    Conventions of the embedding.
    - Node names, vehicle classes, agent identifiers and session identifiers
      are Python strings: [string].
    - Edge weights, distances and ETAs are Python integers (the map and the
      traffic manager only ever produce integers): [Z].
    - The fuel level and everything computed from [fuel_consumption = 0.2]
      are Python floats: IEEE 754 binary64, through the Standard Library's
      executable model [spec_float] (precision 53, maximal exponent 1024).
    - A JSON body is kept as the dictionary it encodes ([Content]).
    - A Python exception is a value of [result]; a handler that sends
      messages returns the list of messages it sent, in sending order.
    - [asyncio.sleep] and [print] have no effect on the state and are left
      out (the computation of the sleeping time is kept, it can raise);
      [random.random() < 0.01] is an input of the movement step.
    - [networkx] is not part of the repository: [nx.shortest_path] with a
      source, a target and a weight is its [bidirectional_dijkstra], embedded
      here statement by statement on the filtered view. *)

From Stdlib Require Import ZArith List Lia Bool.
From Stdlib Require Import Sorting.Permutation.
From Stdlib Require Import Floats.SpecFloat.
From stdpp Require Import gmap strings list.

Open Scope Z_scope.

(** ** Outcomes of code that may raise *)

Inductive exn : Type :=
| NodeNotFound        (* networkx: a query node is not in the graph *)
| ValueError          (* networkx: contradictory paths (negative weights) *)
| KeyError            (* a dictionary read on a missing key *)
| OverflowError       (* int too large to convert to float *)
| UnboundLocalError   (* networkx: [finaldist] read before it is assigned *)
| FuelExhausted.      (* the search ran out of steps: never, see [get_shortest_path_total] *)

Inductive result (A : Type) : Type :=
| Ok (a : A)
| Raise (e : exn).
Arguments Ok {A} a.
Arguments Raise {A} e.

Definition rbind {A B : Type} (r : result A) (k : A -> result B) : result B :=
  match r with
  | Ok a => k a
  | Raise e => Raise e
  end.

(** ** Python floats *)

Module PyFloat.

Definition float := spec_float.

Definition prec : Z := 53.
Definition emax : Z := 1024.

(** [float(z)] for a Python integer, rounded to nearest even. *)
Definition of_int (z : Z) : float := binary_normalize prec emax z 0 false.

(** The conversion of the integer operand of [int * float]: an integer
    that rounds to a float beyond the largest one, that is one of
    magnitude [2^1024 - 2^970] or more, raises [OverflowError]. *)
Definition int_to_float (z : Z) : result float :=
  if Z.abs z <? 2 ^ 1024 - 2 ^ 970 then Ok (of_int z) else Raise OverflowError.

Definition mul (x y : float) : float := SFmul prec emax x y.
Definition add (x y : float) : float := SFadd prec emax x y.
Definition sub (x y : float) : float := SFsub prec emax x y.
Definition ltb (x y : float) : bool := SFltb x y.

(** [z * y] for a Python integer [z] and a float [y]. *)
Definition int_mul (z : Z) (y : float) : result float :=
  rbind (int_to_float z) (fun x => Ok (mul x y)).

(** The literal [0.2], i.e. 0x1.999999999999ap-3. *)
Definition lit_0_2 : float := S754_finite false 7205759403792794 (-55).

(** The literal [0.1], i.e. 0x1.999999999999ap-4. *)
Definition lit_0_1 : float := S754_finite false 7205759403792794 (-56).

End PyFloat.

(** ** models/city_map.py *)

Module CityMap.

Definition node := string.

(** The attribute dictionary of an edge.  [add_edge] always stores
    ["weight"]; the two other keys are read with [.get] and a default. *)
Record EdgeData : Type := mkEdge {
  weight : Z;
  base_weight : option Z;
  allowed_types : option (list string)
}.

(** [nx.DiGraph]: the nodes and, in insertion order, the edges with
    their attributes. *)
Record CityGraph : Type := mkGraph {
  nodes : list node;
  edges : list (node * node * EdgeData)
}.

Definition empty_graph : CityGraph := mkGraph [] [].

Definition same_edge (u v : node) (x : node * node * EdgeData) : bool :=
  String.eqb (fst (fst x)) u && String.eqb (snd (fst x)) v.

(** [graph[u][v]] *)
Definition edge_data (g : CityGraph) (u v : node) : option EdgeData :=
  match find (same_edge u v) (edges g) with
  | Some x => Some (snd x)
  | None => None
  end.

(** [graph.has_edge(u, v)] *)
Definition has_edge (g : CityGraph) (u v : node) : bool :=
  match edge_data g u v with Some _ => true | None => false end.

Definition has_node (g : CityGraph) (u : node) : bool :=
  existsb (String.eqb u) (nodes g).

Definition add_node (g : CityGraph) (u : node) : CityGraph :=
  if has_node g u then g else mkGraph (nodes g ++ [u]) (edges g).

Definition add_nodes_from (g : CityGraph) (us : list node) : CityGraph :=
  fold_left add_node us g.

(** [graph.add_edge(u, v, weight=w, base_weight=w, allowed_types=allowed)] *)
Definition add_edge (g : CityGraph) (u v : node) (d : EdgeData) : CityGraph :=
  let g1 := add_node (add_node g u) v in
  if has_edge g1 u v
  then mkGraph (nodes g1)
         (map (fun x => if same_edge u v x then (u, v, d) else x) (edges g1))
  else mkGraph (nodes g1) (edges g1 ++ [(u, v, d)]).

Definition stations : list node :=
  ["Central"; "North"; "South"; "East"; "West"; "Airport"; "University";
   "Stadium"; "GasStation"]%string.

Definition routes : list (node * node * Z * list string) :=
  [ ("Central", "North", 10, ["bus"; "tram"]);
    ("North", "Central", 10, ["bus"; "tram"]);
    ("Central", "East", 10, ["bus"; "tram"]);
    ("East", "Central", 10, ["bus"; "tram"]);
    ("Central", "South", 12, ["bus"]);
    ("South", "Central", 12, ["bus"]);
    ("Central", "West", 8, ["tram"]);
    ("West", "Central", 8, ["tram"]);
    ("West", "North", 12, ["bus"]);
    ("North", "West", 12, ["bus"]);
    ("North", "East", 8, ["tram"; "bus"]);
    ("East", "North", 8, ["tram"; "bus"]);
    ("East", "Stadium", 6, ["tram"]);
    ("Stadium", "North", 7, ["tram"]);
    ("South", "University", 5, ["bus"]);
    ("University", "South", 5, ["bus"]);
    ("West", "University", 18, ["bus"]);
    ("University", "West", 18, ["bus"]);
    ("South", "Airport", 25, ["bus"]);
    ("Airport", "South", 25, ["bus"]);
    ("East", "Airport", 35, ["bus"]);
    ("Airport", "East", 35, ["bus"]);
    ("South", "GasStation", 5, ["bus"]);
    ("GasStation", "South", 5, ["bus"]) ]%string.

Definition create_sample_map : CityGraph :=
  fold_left
    (fun g '(start, end_, w, allowed) =>
       add_edge g start end_ (mkEdge w (Some w) (Some allowed)))
    routes
    (add_nodes_from empty_graph stations).

(** *** The filtered view and the search *)

(** [is_passable(u, v)]: [vehicle_type in graph[u][v].get("allowed_types", [])] *)
Definition is_passable (g : CityGraph) (vehicle_type : string) (u v : node) : bool :=
  match edge_data g u v with
  | Some d =>
      existsb (String.eqb vehicle_type)
        (match allowed_types d with Some l => l | None => [] end)
  | None => false
  end.

(** The neighbours of [v], in insertion order. *)
Definition neighbours (g : CityGraph) (v : node) : list node :=
  map (fun x => snd (fst x))
      (List.filter (fun x => String.eqb (fst (fst x)) v) (edges g)).

(** The successors of [v] in [nx.subgraph_view(graph, filter_edge=is_passable)],
    each with the value of its ["weight"] attribute. *)
Definition view_succ (g : CityGraph) (vehicle_type : string) (v : node)
  : list (node * Z) :=
  flat_map
    (fun u =>
       if is_passable g vehicle_type v u
       then match edge_data g v u with
            | Some d => [(u, weight d)]
            | None => []
            end
       else [])
    (neighbours g v).

(** The predecessors of [v], in insertion order. *)
Definition predecessors (g : CityGraph) (v : node) : list node :=
  map (fun x => fst (fst x))
      (List.filter (fun x => String.eqb (snd (fst x)) v) (edges g)).

(** The predecessors of [v] in the view ([_pred] is filtered with the edge
    the right way round), each with the ["weight"] of its edge to [v]. *)
Definition view_pred (g : CityGraph) (vehicle_type : string) (v : node)
  : list (node * Z) :=
  flat_map
    (fun u =>
       if is_passable g vehicle_type u v
       then match edge_data g u v with
            | Some d => [(u, weight d)]
            | None => []
            end
       else [])
    (predecessors g v).

(** [neighs[dir][v].items()] with the cost of each edge; the direction
    [dir] is [false] for 0 (forward) and [true] for 1 (backward). *)
Definition neighs (g : CityGraph) (vehicle_type : string) (dir : bool) (v : node)
  : list (node * Z) :=
  if dir then view_pred g vehicle_type v else view_succ g vehicle_type v.

(** A dictionary from nodes to integers; an assignment is a new head. *)
Definition assoc (u : node) (l : list (node * Z)) : option Z :=
  match find (fun x => String.eqb (fst x) u) l with
  | Some x => Some (snd x)
  | None => None
  end.

(** [paths[dir][u]] *)
Definition path_to (u : node) (l : list (node * list node)) : option (list node) :=
  match find (fun x => String.eqb (fst x) u) l with
  | Some x => Some (snd x)
  | None => None
  end.

(** Pops the entry of least distance, the oldest one among equals (the
    heap is keyed on the distance and then on the push counter). *)
Fixpoint pop_min (fringe : list (Z * node))
  : option (Z * node * list (Z * node)) :=
  match fringe with
  | [] => None
  | x :: rest =>
      match pop_min rest with
      | None => Some (x, [])
      | Some (y, rest') =>
          if fst x <=? fst y then Some (x, rest)
          else Some (y, x :: rest')
      end
  end.

(** One direction of the search: [dists[dir]], [paths[dir]], [fringe[dir]]
    (in push order) and [seen[dir]]. *)
Record Side : Type := mkSide {
  dists : list (node * Z);
  paths : list (node * list node);
  fringe : list (Z * node);
  seen : list (node * Z)
}.

(** The state of [bidirectional_dijkstra]: the two directions and
    [(finaldist, finalpath)], [None] while [finalpath] is [[]] and
    [finaldist] is not assigned. *)
Record Search : Type := mkSearch {
  forward : Side;
  backward : Side;
  final : option (Z * list node)
}.

Definition side (dir : bool) (s : Search) : Side :=
  if dir then backward s else forward s.

Definition with_side (dir : bool) (x : Side) (s : Search) : Search :=
  if dir then mkSearch (forward s) x (final s)
  else mkSearch x (backward s) (final s).

(** [if w in seen[0] and w in seen[1]]: the path through [w] replaces the
    one found so far when it is the first or strictly shorter. *)
Definition meet (w : node) (s : Search) : result Search :=
  match assoc w (seen (forward s)), assoc w (seen (backward s)) with
  | Some d0, Some d1 =>
      let totaldist := d0 + d1 in
      if match final s with
         | Some (finaldist, _ :: _) => totaldist <? finaldist
         | _ => true
         end
      then match path_to w (paths (forward s)), path_to w (paths (backward s)) with
           | Some p0, Some p1 =>
               Ok (mkSearch (forward s) (backward s)
                            (Some (totaldist, p0 ++ tl (rev p1))))
           | _, _ => Raise KeyError
           end
      else Ok s
  | _, _ => Ok s
  end.

(** The loop over the neighbours of [v], which has just been given the
    distance [dv] in direction [dir]; [pv] is [paths[dir][v]], which the
    loop does not change. *)
Fixpoint relax (dir : bool) (dv : Z) (pv : option (list node))
    (succs : list (node * Z)) (s : Search) : result Search :=
  match succs with
  | [] => Ok s
  | (w, cost) :: succs' =>
      let this := side dir s in
      let vwLength := dv + cost in
      match assoc w (dists this) with
      | Some dw =>
          if vwLength <? dw then Raise ValueError
          else relax dir dv pv succs' s
      | None =>
          if match assoc w (seen this) with
             | Some sw => vwLength <? sw
             | None => true
             end
          then
            match pv with
            | Some p =>
                match meet w (with_side dir
                                (mkSide (dists this) ((w, p ++ [w]) :: paths this)
                                        (fringe this ++ [(vwLength, w)])
                                        ((w, vwLength) :: seen this))
                                s) with
                | Ok s' => relax dir dv pv succs' s'
                | Raise e => Raise e
                end
            | None => Raise KeyError
            end
          else relax dir dv pv succs' s
      end
  end.

(** The [while fringe[0] and fringe[1]] loop; [dir] is the direction of
    the previous turn.  [None] is [NetworkXNoPath]. *)
Fixpoint search_loop (fuel : nat) (g : CityGraph) (vehicle_type : string)
    (dir : bool) (s : Search) : result (option (list node)) :=
  match fuel with
  | O => Raise FuelExhausted
  | S fuel' =>
      match fringe (forward s), fringe (backward s) with
      | _ :: _, _ :: _ =>
          let dir := negb dir in
          let this := side dir s in
          match pop_min (fringe this) with
          | None => Ok None
          | Some (dist, v, rest) =>
              match assoc v (dists this) with
              | Some _ =>
                  search_loop fuel' g vehicle_type dir
                    (with_side dir
                       (mkSide (dists this) (paths this) rest (seen this)) s)
              | None =>
                  let s1 :=
                    with_side dir
                      (mkSide ((v, dist) :: dists this) (paths this) rest
                              (seen this)) s in
                  match assoc v (dists (side (negb dir) s1)) with
                  | Some _ =>
                      match final s1 with
                      | Some (_, finalpath) => Ok (Some finalpath)
                      | None => Raise UnboundLocalError
                      end
                  | None =>
                      match relax dir dist (path_to v (paths this))
                                  (neighs g vehicle_type dir v) s1 with
                      | Ok s2 => search_loop fuel' g vehicle_type dir s2
                      | Raise e => Raise e
                      end
                  end
              end
          end
      | _, _ => Ok None
      end
  end.

(** The state before the first turn. *)
Definition start (root : node) : Side :=
  mkSide [] [(root, [root])] [(0, root)] [(root, 0)].

(** [nx.bidirectional_dijkstra(view, source, target, weight="weight")],
    the path only.  It raises [NodeNotFound] for a node that is not in the
    graph and [NetworkXNoPath] when a fringe is exhausted. *)
Definition bidirectional_dijkstra (g : CityGraph) (vehicle_type : string)
    (source target : node) : result (option (list node)) :=
  if negb (has_node g source) then Raise NodeNotFound
  else if negb (has_node g target) then Raise NodeNotFound
  else if String.eqb source target then Ok (Some [source])
  else search_loop (2 * length (edges g) + 3) g vehicle_type true
         (mkSearch (start source) (start target) None).

(** [nx.shortest_path(view, source, target, weight="weight")]: with a
    source, a target and a weight it is the bidirectional search. *)
Definition nx_shortest_path (g : CityGraph) (vehicle_type : string)
    (source target : node) : result (option (list node)) :=
  bidirectional_dijkstra g vehicle_type source target.

(** [CityGraph.get_shortest_path]: the path, or [None] where
    [NetworkXNoPath] is caught; any other exception propagates. *)
Definition get_shortest_path (g : CityGraph) (start_node end_node : node)
    (vehicle_type : string) : result (option (list node)) :=
  nx_shortest_path g vehicle_type start_node end_node.

(** *** Path costs *)

Fixpoint sum_weights (g : CityGraph) (p : list node) : result Z :=
  match p with
  | u :: ((v :: _) as tl) =>
      match edge_data g u v with
      | Some d => rbind (sum_weights g tl) (fun t => Ok (weight d + t))
      | None => Raise KeyError
      end
  | _ => Ok 0
  end.

Fixpoint sum_base_weights (g : CityGraph) (p : list node) : result Z :=
  match p with
  | u :: ((v :: _) as tl) =>
      match edge_data g u v with
      | Some d =>
          rbind (sum_base_weights g tl)
            (fun t => Ok (match base_weight d with Some b => b | None => 10 end + t))
      | None => Raise KeyError
      end
  | _ => Ok 0
  end.

(** [get_total_time(path)]; [path] may be [None]. *)
Definition get_total_time (g : CityGraph) (path : option (list node)) : result Z :=
  match path with
  | None => Ok 0
  | Some p => sum_weights g p
  end.

(** [get_total_distance(path)] *)
Definition get_total_distance (g : CityGraph) (path : option (list node)) : result Z :=
  match path with
  | None => Ok 0
  | Some p => sum_base_weights g p
  end.

(** [graph[u][v]["weight"] = w] on an existing edge. *)
Definition set_weight (g : CityGraph) (u v : node) (w : Z) : CityGraph :=
  mkGraph (nodes g)
    (map (fun x => if same_edge u v x
                   then (fst x, mkEdge w (base_weight (snd x)) (allowed_types (snd x)))
                   else x)
         (edges g)).

(** The traffic update of [TransportBehaviour.run]:
    [if graph.has_edge(u, v): graph[u][v]["weight"] = w]. *)
Definition traffic_update (g : CityGraph) (u v : node) (w : Z) : CityGraph :=
  if has_edge g u v then set_weight g u v w else g.

End CityMap.

(** ** utils/ontology.py *)

Module Ontology.
Import PyFloat CityMap.

Inductive Performative : Type :=
| CFP | PROPOSE | ACCEPT_PROPOSAL | REJECT_PROPOSAL | INFORM
| REQUEST | REFUSE | FAILURE | CANCEL.

Definition performative_eqb (p q : Performative) : bool :=
  match p, q with
  | CFP, CFP | PROPOSE, PROPOSE | ACCEPT_PROPOSAL, ACCEPT_PROPOSAL
  | REJECT_PROPOSAL, REJECT_PROPOSAL | INFORM, INFORM | REQUEST, REQUEST
  | REFUSE, REFUSE | FAILURE, FAILURE | CANCEL, CANCEL => true
  | _, _ => false
  end.

(** The dictionaries that travel as JSON bodies, one constructor per shape. *)
Inductive Content : Type :=
| ride_request (origin destination : node) (passenger_count : Z)
| bid (vehicle_id : string) (eta : Z) (capacity : Z) (route : option (list node))
| reason (r : string)
| passenger_id (p : string)
| vehicle_found (eta : Z)
| status_update (vehicle_id : string) (location : node) (status : string)
                (load : nat) (fuel : float)
| breakdown_alert (vehicle_id : string) (location : node) (issue : string)
| refuel_request (amount_needed : float)
| repaired (refueled : bool)
| refueled
| traffic_update_msg (u v : node) (new_weight : Z)
| demand_surge (station : node) (count : nat)
| travel_request (destination : node).

Record Message : Type := mkMessage {
  to : string;
  sender : string;
  performative : Performative;
  thread : option string;
  body : Content
}.

(** [create_message(to_jid, performative, content_data, thread_id)], sent
    by the agent [from]; a falsy [thread_id] leaves the thread unset. *)
Definition create_message (from to_jid : string) (p : Performative)
    (content_data : Content) (thread_id : option string) : Message :=
  mkMessage to_jid from p
    (match thread_id with
     | Some t => if String.eqb t "" then None else Some t
     | None => None
     end)
    content_data.

(** [msg.make_reply()] followed by setting the performative and the body. *)
Definition make_reply (msg : Message) (p : Performative) (b : Content) : Message :=
  mkMessage (sender msg) (to msg) p (thread msg) b.

Definition format_cfp (origin destination : node) (passenger_count : Z) : Content :=
  ride_request origin destination passenger_count.

Definition format_proposal (vehicle_id : string) (eta : Z)
    (capacity_available : Z) (route_plan : option (list node)) : Content :=
  bid vehicle_id eta capacity_available route_plan.

Definition format_breakdown (vehicle_id : string) (location : node)
    (issue_type : string) : Content :=
  breakdown_alert vehicle_id location issue_type.

(** [log_metric]: the line appended to the metrics file. *)
Inductive Metric : Type :=
| NEGOTIATION_OK (source target : string) (value : Z) (vehicle : string)
                 (n_proposals : nat)
| NEGOTIATION_FAIL (source target : string).

End Ontology.

(** ** agents/station.py *)

Module Station.
Import CityMap Ontology.

Record StationAgent : Type := mkStation {
  jid : string;
  location : node;
  known_vehicles : list string;
  passenger_queue : list string
}.

(** One [CNPManager] behaviour. *)
Record CNPManager : Type := mkCNP {
  destination : node;
  passenger_jid : string;
  conversation_id : string
}.

(** [list.remove(x)]: drops the first occurrence. *)
Fixpoint list_remove (x : string) (l : list string) : list string :=
  match l with
  | [] => []
  | y :: l' => if String.eqb y x then l' else y :: list_remove x l'
  end.

Definition list_mem (x : string) (l : list string) : bool :=
  existsb (String.eqb x) l.

(** [proposals.sort(key=lambda x: x[1])].  Python's sort is stable; so is
    this insertion sort, and a stable sort has one possible result. *)
Fixpoint insert_by_eta (x : Message * Z) (l : list (Message * Z))
  : list (Message * Z) :=
  match l with
  | [] => [x]
  | y :: l' => if snd x <=? snd y then x :: y :: l'
               else y :: insert_by_eta x l'
  end.

Fixpoint sort_by_eta (l : list (Message * Z)) : list (Message * Z) :=
  match l with
  | [] => []
  | x :: l' => insert_by_eta x (sort_by_eta l')
  end.

(** The broadcast that opens the session. *)
Definition broadcast_cfp (st : StationAgent) (c : CNPManager) : list Message :=
  map (fun v_jid =>
         create_message (jid st) v_jid CFP
           (format_cfp (location st) (destination c) 1)
           (Some (conversation_id c)))
      (known_vehicles st).

(** [content["eta"]]: the bodies of [format_proposal] and the answer
    [{"status": "vehicle_found", "eta": ..}] have the key. *)
Definition eta_of (content : Content) : option Z :=
  match content with
  | bid _ eta _ _ => Some eta
  | vehicle_found eta => Some eta
  | _ => None
  end.

(** [content["vehicle_id"]]: the bodies of [format_proposal],
    [format_status] and [format_breakdown] have the key. *)
Definition vehicle_id_of (content : Content) : option string :=
  match content with
  | bid vehicle_id _ _ _ => Some vehicle_id
  | status_update vehicle_id _ _ _ _ => Some vehicle_id
  | breakdown_alert vehicle_id _ _ => Some vehicle_id
  | _ => None
  end.

(** The collection loop over the messages received before the cutoff:
    a reply counts when it carries the session's thread and is a
    [PROPOSE]; its ["eta"] is read from the body. *)
Fixpoint collect (c : CNPManager) (inbox : list Message)
  : result (list (Message * Z)) :=
  match inbox with
  | [] => Ok []
  | response :: inbox' =>
      if match thread response with
         | Some t => String.eqb t (conversation_id c)
         | None => false
         end
         && performative_eqb (performative response) PROPOSE
      then match eta_of (body response) with
           | Some eta =>
               rbind (collect c inbox') (fun ps => Ok ((response, eta) :: ps))
           | None => Raise KeyError
           end
      else collect c inbox'
  end.

(** [ListenForPassengers.run] on a travel request: the passenger joins
    the queue and a [CNPManager] with a fresh conversation id is started. *)
Definition on_travel_request (st : StationAgent) (passenger : string)
    (dest : node) (fresh_id : string) : StationAgent * CNPManager :=
  (mkStation (jid st) (location st) (known_vehicles st)
             (passenger_queue st ++ [passenger]),
   mkCNP dest passenger fresh_id).

(** [ListenForPassengers.run] on a [CANCEL]. *)
Definition on_cancel (st : StationAgent) (passenger : string) : StationAgent :=
  if list_mem passenger (passenger_queue st)
  then mkStation (jid st) (location st) (known_vehicles st)
                 (list_remove passenger (passenger_queue st))
  else st.

Record Outcome : Type := mkOutcome {
  station_after : StationAgent;
  sent : list Message;
  metric : Metric
}.

Definition dequeue (st : StationAgent) (p : string) : StationAgent :=
  mkStation (jid st) (location st) (known_vehicles st)
            (list_remove p (passenger_queue st)).

(** The part of [CNPManager.run] after the collection window. *)
Definition conclude (st : StationAgent) (c : CNPManager)
    (proposals : list (Message * Z)) : result Outcome :=
  match sort_by_eta proposals with
  | (best_proposal, best_eta) :: others =>
      match vehicle_id_of (body best_proposal) with
      | Some best_vehicle =>
          let reply_accept :=
            make_reply best_proposal ACCEPT_PROPOSAL
                       (passenger_id (passenger_jid c)) in
          let rejects :=
            map (fun x => make_reply (fst x) REJECT_PROPOSAL
                                     (reason "better_proposal_found"))
                others in
          let msg_p :=
            create_message (jid st) (passenger_jid c) INFORM
                           (vehicle_found best_eta) None in
          let st' :=
            if list_mem (passenger_jid c) (passenger_queue st)
            then dequeue st (passenger_jid c) else st in
          Ok (mkOutcome st' (reply_accept :: rejects ++ [msg_p])
                (NEGOTIATION_OK (location st) (destination c) best_eta
                   best_vehicle (length (sort_by_eta proposals))))
      | None => Raise KeyError
      end
  | [] =>
      let m := NEGOTIATION_FAIL (location st) (destination c) in
      if list_mem (passenger_jid c) (passenger_queue st)
      then Ok (mkOutcome (dequeue st (passenger_jid c))
                 [create_message (jid st) (passenger_jid c) REFUSE
                                 (reason "no_vehicles_available") None]
                 m)
      else Ok (mkOutcome st [] m)
  end.

(** [CNPManager.run]: broadcast, collect, conclude. *)
Definition run (st : StationAgent) (c : CNPManager) (inbox : list Message)
  : result Outcome :=
  rbind (collect c inbox) (fun proposals =>
  rbind (conclude st c proposals) (fun o =>
  Ok (mkOutcome (station_after o) (broadcast_cfp st c ++ sent o) (metric o)))).

(** What [CNPManager.run] has sent when it ends, whether it returns or
    raises: the broadcast and then the messages of the conclusion.  An
    exception in the collection loop, or at [best_vehicle], comes before
    the first reply is sent. *)
Definition sent_by_run (st : StationAgent) (c : CNPManager) (inbox : list Message)
  : list Message :=
  broadcast_cfp st c
  ++ match rbind (collect c inbox) (conclude st c) with
     | Ok o => sent o
     | Raise _ => []
     end.

End Station.

(** ** agents/vehicle.py *)

Module Vehicle.
Import PyFloat CityMap Ontology.

(** A manifest entry [{"id": p_id, "dest": dest}]. *)
Record Passenger : Type := mkPassenger {
  p_id : string;
  p_dest : node
}.

(** A pending bid [{"origin": .., "dest": .., "fuel_cost": ..}]. *)
Record PendingBid : Type := mkBid {
  b_origin : node;
  b_dest : node;
  b_fuel_cost : float
}.

Record VehicleAgent : Type := mkVehicle {
  jid : string;
  vehicle_type : string;
  current_location : node;
  maintenance_jid : string;
  gas_station_jid : string;
  dashboard_jid : string;
  capacity : Z;
  patrol_route : list node;
  patrol_index : nat;
  manifest : list Passenger;
  waypoints : list node;
  pending_bids : gmap string PendingBid;
  fuel_level : float;
  fuel_consumption : float;
  is_broken : bool;
  is_refueling : bool;
  city_map : CityGraph
}.

(** Index of the first occurrence, [list.index]. *)
Fixpoint index_of (x : node) (l : list node) : option nat :=
  match l with
  | [] => None
  | y :: l' => if String.eqb y x then Some O
               else match index_of x l' with
                    | Some i => Some (S i)
                    | None => None
                    end
  end.

(** [VehicleAgent.__init__] *)
Definition init (jid vehicle_type : string) (start_location : node)
    (maintenance_jid gas_station_jid dashboard_jid : string)
    (capacity : Z) (patrol_route : list node) : VehicleAgent :=
  mkVehicle jid vehicle_type start_location maintenance_jid gas_station_jid
    dashboard_jid capacity patrol_route
    (match index_of start_location patrol_route with
     | Some i => i
     | None => O
     end)
    [] [] ∅ (of_int 100) lit_0_2 false false create_sample_map.

(** *** Assignments to the attributes of [self.agent] *)

Definition set_current_location (x : node) (a : VehicleAgent) : VehicleAgent :=
  mkVehicle (jid a) (vehicle_type a) x (maintenance_jid a) (gas_station_jid a)
    (dashboard_jid a) (capacity a) (patrol_route a) (patrol_index a)
    (manifest a) (waypoints a) (pending_bids a) (fuel_level a)
    (fuel_consumption a) (is_broken a) (is_refueling a) (city_map a).

Definition set_patrol_index (x : nat) (a : VehicleAgent) : VehicleAgent :=
  mkVehicle (jid a) (vehicle_type a) (current_location a) (maintenance_jid a)
    (gas_station_jid a) (dashboard_jid a) (capacity a) (patrol_route a) x
    (manifest a) (waypoints a) (pending_bids a) (fuel_level a)
    (fuel_consumption a) (is_broken a) (is_refueling a) (city_map a).

Definition set_manifest (x : list Passenger) (a : VehicleAgent) : VehicleAgent :=
  mkVehicle (jid a) (vehicle_type a) (current_location a) (maintenance_jid a)
    (gas_station_jid a) (dashboard_jid a) (capacity a) (patrol_route a)
    (patrol_index a) x (waypoints a) (pending_bids a) (fuel_level a)
    (fuel_consumption a) (is_broken a) (is_refueling a) (city_map a).

Definition set_waypoints (x : list node) (a : VehicleAgent) : VehicleAgent :=
  mkVehicle (jid a) (vehicle_type a) (current_location a) (maintenance_jid a)
    (gas_station_jid a) (dashboard_jid a) (capacity a) (patrol_route a)
    (patrol_index a) (manifest a) x (pending_bids a) (fuel_level a)
    (fuel_consumption a) (is_broken a) (is_refueling a) (city_map a).

Definition set_pending_bids (x : gmap string PendingBid) (a : VehicleAgent)
  : VehicleAgent :=
  mkVehicle (jid a) (vehicle_type a) (current_location a) (maintenance_jid a)
    (gas_station_jid a) (dashboard_jid a) (capacity a) (patrol_route a)
    (patrol_index a) (manifest a) (waypoints a) x (fuel_level a)
    (fuel_consumption a) (is_broken a) (is_refueling a) (city_map a).

Definition set_fuel_level (x : float) (a : VehicleAgent) : VehicleAgent :=
  mkVehicle (jid a) (vehicle_type a) (current_location a) (maintenance_jid a)
    (gas_station_jid a) (dashboard_jid a) (capacity a) (patrol_route a)
    (patrol_index a) (manifest a) (waypoints a) (pending_bids a) x
    (fuel_consumption a) (is_broken a) (is_refueling a) (city_map a).

Definition set_is_broken (x : bool) (a : VehicleAgent) : VehicleAgent :=
  mkVehicle (jid a) (vehicle_type a) (current_location a) (maintenance_jid a)
    (gas_station_jid a) (dashboard_jid a) (capacity a) (patrol_route a)
    (patrol_index a) (manifest a) (waypoints a) (pending_bids a)
    (fuel_level a) (fuel_consumption a) x (is_refueling a) (city_map a).

Definition set_is_refueling (x : bool) (a : VehicleAgent) : VehicleAgent :=
  mkVehicle (jid a) (vehicle_type a) (current_location a) (maintenance_jid a)
    (gas_station_jid a) (dashboard_jid a) (capacity a) (patrol_route a)
    (patrol_index a) (manifest a) (waypoints a) (pending_bids a)
    (fuel_level a) (fuel_consumption a) (is_broken a) x (city_map a).

Definition set_city_map (x : CityGraph) (a : VehicleAgent) : VehicleAgent :=
  mkVehicle (jid a) (vehicle_type a) (current_location a) (maintenance_jid a)
    (gas_station_jid a) (dashboard_jid a) (capacity a) (patrol_route a)
    (patrol_index a) (manifest a) (waypoints a) (pending_bids a)
    (fuel_level a) (fuel_consumption a) (is_broken a) (is_refueling a) x.

(** *** The behaviour monad: agent state, sent messages, exceptions *)

Definition Beh (A : Type) : Type :=
  VehicleAgent -> result (A * VehicleAgent * list Message).

Definition ret {A : Type} (x : A) : Beh A := fun a => Ok (x, a, []).

Definition bind {A B : Type} (m : Beh A) (k : A -> Beh B) : Beh B :=
  fun a =>
    match m a with
    | Ok (x, a1, out1) =>
        match k x a1 with
        | Ok (y, a2, out2) => Ok (y, a2, out1 ++ out2)
        | Raise e => Raise e
        end
    | Raise e => Raise e
    end.

Notation "'let*' x ':=' m 'in' k" := (bind m (fun x => k))
  (at level 10, x name, m at level 100, k at level 200).
Notation "'do' m 'then' k" := (bind m (fun _ => k))
  (at level 10, m at level 100, k at level 200).

Definition get : Beh VehicleAgent := fun a => Ok (a, a, []).
Definition modify (f : VehicleAgent -> VehicleAgent) : Beh unit :=
  fun a => Ok (tt, f a, []).
Definition send (m : Message) : Beh unit := fun a => Ok (tt, a, [m]).
Definition lift {A : Type} (r : result A) : Beh A :=
  fun a => match r with Ok x => Ok (x, a, []) | Raise e => Raise e end.
Definition when (b : bool) (m : Beh unit) : Beh unit :=
  if b then m else ret tt.

(** *** Small Python idioms *)

Definition is_tram (a : VehicleAgent) : bool := String.eqb (vehicle_type a) "tram".

Definition mem (x : node) (l : list node) : bool := existsb (String.eqb x) l.

(** Truth value of a path: [None] and the empty list are falsy. *)
Definition truthy (p : option (list node)) : bool :=
  match p with
  | Some (_ :: _) => true
  | _ => false
  end.

(** [len(manifest) >= capacity] *)
Definition is_full (a : VehicleAgent) : bool :=
  capacity a <=? Z.of_nat (length (manifest a)).

(** *** The methods of [TransportBehaviour] *)

(** [send_status_update(status)]: the dictionary of [format_status] with
    the key ["fuel"] added; nothing is sent without a dashboard. *)
Definition send_status_update (status : string) : Beh unit :=
  let* a := get in
  if String.eqb (dashboard_jid a) "" then ret tt
  else send (create_message (jid a) (dashboard_jid a) INFORM
               (status_update (jid a) (current_location a) status
                              (length (manifest a)) (fuel_level a))
               None).

Definition send_refuse (msg : Message) (why : string) : Beh unit :=
  send (make_reply msg REFUSE (reason why)).

Definition go_to_gas_station : Beh unit :=
  let* a := get in
  if is_refueling a || mem "GasStation" (waypoints a) then ret tt
  else modify (set_waypoints (waypoints a ++ ["GasStation"%string])).

Definition trigger_breakdown (issue_type : string) : Beh unit :=
  do modify (set_is_broken true) then
  do send_status_update "broken" then
  let* a := get in
  send (create_message (jid a) (maintenance_jid a) REQUEST
          (format_breakdown (jid a) (current_location a) issue_type) None).

Definition process_service_message (content : Content) : Beh unit :=
  match content with
  | repaired was_refueled =>
      do modify (set_is_broken false) then
      do when was_refueled (modify (set_fuel_level (of_int 100))) then
      send_status_update "idle"
  | refueled =>
      do modify (set_fuel_level (of_int 100)) then
      do modify (set_is_refueling false) then
      do modify (set_current_location "GasStation") then
      send_status_update "idle"
  | _ => ret tt
  end.

Definition process_stop (location : node) : Beh unit :=
  let* a := get in
  if String.eqb location "GasStation" then
    do send (create_message (jid a) (gas_station_jid a) REQUEST
               (refuel_request (sub (of_int 100) (fuel_level a))) None) then
    modify (set_is_refueling true)
  else
    let new_manifest :=
      List.filter (fun p => negb (String.eqb (p_dest p) location)) (manifest a) in
    let exiting :=
      length (List.filter (fun p => String.eqb (p_dest p) location) (manifest a)) in
    do when (0 <? Z.of_nat exiting) (modify (set_manifest new_manifest)) then
    let* a1 := get in
    do when (match manifest a1 with [] => true | _ => false end
             && negb (is_tram a1))
         (let* path_pump := lift (get_shortest_path (city_map a1) location
                                                    "GasStation" "bus") in
          let* cost_to_pump :=
            (if truthy path_pump
             then let* d := lift (get_total_distance (city_map a1) path_pump) in
                  lift (int_mul d (fuel_consumption a1))
             else ret (of_int 0)) in
          when (ltb (fuel_level a1) (add cost_to_pump (of_int 10)))
            (when (negb (mem "GasStation" (waypoints a1))) go_to_gas_station))
    then
    send_status_update "idle".

Definition TIME_SCALE : float := lit_0_1.

(** [move_to_next_node]; [fault] is the outcome of [random.random() < 0.01]. *)
Definition move_to_next_node (fault : bool) : Beh unit :=
  let* a := get in
  match waypoints a with
  | [] => ret tt
  | target_stop :: remaining =>
      if String.eqb (current_location a) target_stop then
        do modify (set_waypoints remaining) then
        process_stop target_stop
      else
        let* path := lift (get_shortest_path (city_map a) (current_location a)
                                             target_stop (vehicle_type a)) in
        match path with
        | Some (_ :: next_node :: _) =>
            match edge_data (city_map a) (current_location a) next_node with
            | None => lift (Raise KeyError)
            | Some edge =>
                let travel_time := weight edge in
                let distance :=
                  match base_weight edge with Some b => b | None => 10 end in
                let* fuel_cost := lift (int_mul distance (fuel_consumption a)) in
                if negb (is_tram a) && ltb (fuel_level a) fuel_cost then
                  trigger_breakdown "no_fuel"
                else
                  do send_status_update "moving" then
                  let* sleep_time := lift (int_mul travel_time TIME_SCALE) in
                  do modify (set_current_location next_node) then
                  do when (negb (is_tram a))
                       (modify (set_fuel_level (sub (fuel_level a) fuel_cost)))
                  then
                  if fault then trigger_breakdown "engine_fail"
                  else send_status_update "moving"
            end
        | _ => modify (set_waypoints remaining)
        end
  end.

(** [handle_cfp(msg, content)].  [content["origin"]] and
    [content["destination"]] are read after the fuel and capacity checks;
    a body without them raises [KeyError] there. *)
Definition handle_cfp (msg : Message) (content : Content) : Beh unit :=
  let* a := get in
  let thread_id := thread msg in
  if negb (is_tram a) && ltb (fuel_level a) (of_int 30) then
    do send_refuse msg "low_fuel" then
    when (match manifest a with [] => true | _ => false end
          && negb (mem "GasStation" (waypoints a)))
      go_to_gas_station
  else if is_full a then send_refuse msg "full_capacity"
  else
    match content with
    | ride_request origin destination _ =>
    let* path_pickup := lift (get_shortest_path (city_map a) (current_location a)
                                                origin (vehicle_type a)) in
    let* path_trip := lift (get_shortest_path (city_map a) origin destination
                                              (vehicle_type a)) in
    if negb (truthy path_pickup) || negb (truthy path_trip) then
      send_refuse msg "route_impossible"
    else
      let* pickup_time := lift (get_total_time (city_map a) path_pickup) in
      let* trip_time := lift (get_total_time (city_map a) path_trip) in
      let* pickup_cost := lift (get_total_distance (city_map a) path_pickup) in
      let* trip_cost := lift (get_total_distance (city_map a) path_trip) in
      let* fuel_needed :=
        lift (int_mul (pickup_cost + trip_cost) (fuel_consumption a)) in
      let propose :=
        do when (match thread_id with
                 | Some t => negb (String.eqb t "")
                 | None => false
                 end)
             (modify (set_pending_bids
                        (match thread_id with
                         | Some t => <[t := mkBid origin destination fuel_needed]>
                                       (pending_bids a)
                         | None => pending_bids a
                         end)))
        then
        send (make_reply msg PROPOSE
                (format_proposal (jid a) pickup_cost
                   (capacity a - Z.of_nat (length (manifest a))) path_trip)) in
      if negb (is_tram a) then
        let* path_pump := lift (get_shortest_path (city_map a) destination
                                                  "GasStation" "bus") in
        let* safety :=
          (if truthy path_pump
           then let* t := lift (get_total_time (city_map a) path_pump) in
                lift (int_mul t (fuel_consumption a))
           else ret (of_int 0)) in
        let total_required := add (add fuel_needed safety) (of_int 15) in
        if ltb (fuel_level a) total_required then
          send_refuse msg "insufficient_fuel_safety"
        else propose
      else propose
    | _ => lift (Raise KeyError)
    end.

(** [waypoints[-1]] *)
Definition last_waypoint (l : list node) : option node := List.last (map Some l) None.

(** [handle_acceptance(msg, content)] *)
Definition handle_acceptance (msg : Message) (content : Content) : Beh unit :=
  let* a := get in
  if is_full a then
    send (make_reply msg REFUSE (reason "capacity_full_error"))
  else
    match thread msg with
    | None => ret tt
    | Some thread_id =>
        match pending_bids a !! thread_id with
        | Some bid_data =>
            let origin := b_origin bid_data in
            let dest := b_dest bid_data in
            let pid := match content with
                       | passenger_id p => p
                       | _ => "unknown"%string
                       end in
            do modify (set_manifest (manifest a ++ [mkPassenger pid dest])) then
            do when (negb (String.eqb (current_location a) origin))
                 (when (match last_waypoint (waypoints a) with
                        | None => true
                        | Some w => negb (String.eqb w origin)
                        end)
                    (modify (set_waypoints (origin :: waypoints a))))
            then
            let* a1 := get in
            do when (negb (mem dest (waypoints a1)))
                 (modify (set_waypoints (waypoints a1 ++ [dest])))
            then
            modify (set_pending_bids (delete thread_id (pending_bids a)))
        | None => ret tt
        end
    end.

(** The demand-surge diversion of [run]. *)
Definition divert (target_station : node) : Beh unit :=
  let* a := get in
  when (negb (is_full a)
        && negb (String.eqb target_station (current_location a))
        && negb (mem target_station (waypoints a))
        && negb (is_broken a)
        && negb (is_refueling a))
    (modify (set_waypoints (target_station :: waypoints a))).

(** The dispatch on the received message in [run]. *)
Definition dispatch (msg : Message) : Beh unit :=
  match performative msg, body msg with
  | INFORM, traffic_update_msg u v w =>
      let* a := get in
      modify (set_city_map (traffic_update (city_map a) u v w))
  | CFP, content => handle_cfp msg content
  | ACCEPT_PROPOSAL, content => handle_acceptance msg content
  | _, repaired r => process_service_message (repaired r)
  | _, refueled => process_service_message refueled
  | INFORM, demand_surge station _ => divert station
  | _, _ => ret tt
  end.

(** The patrol fallback of [run]. *)
Definition patrol : Beh unit :=
  let* a := get in
  when (negb (is_broken a) && negb (is_refueling a)
        && match waypoints a with [] => true | _ => false end
        && match patrol_route a with [] => false | _ => true end)
    (let next_idx := ((patrol_index a + 1) mod length (patrol_route a))%nat in
     match nth_error (patrol_route a) next_idx with
     | None => ret tt
     | Some next_stop =>
         if String.eqb (current_location a) next_stop
         then modify (set_patrol_index next_idx)
         else do modify (set_waypoints (waypoints a ++ [next_stop])) then
              modify (set_patrol_index next_idx)
     end).

(** One cycle of [TransportBehaviour.run]: [msg] is what
    [receive(timeout=0.1)] returned. *)
Definition run (msg : option Message) (fault : bool) : Beh unit :=
  do match msg with
     | Some m => dispatch m
     | None => ret tt
     end
  then
  do patrol then
  let* a := get in
  when (negb (is_broken a) && negb (is_refueling a)
        && match waypoints a with [] => false | _ => true end)
    (move_to_next_node fault).

End Vehicle.

(** ** agents/maintenance.py *)

Module Maintenance.
Import Ontology.

(** A [RepairJob], named by the breakdown report it serves. *)
Record RepairJob : Type := mkJob {
  request_sender : string;
  vehicle_id : string;
  issue : string
}.

(** The workshop: the semaphore [sem] (its counter and its FIFO of
    waiters, as in CPython's [asyncio.Semaphore]) and the jobs inside the
    [async with self.agent.sem] block.  The agent is one cooperative task
    loop, so a job runs without interruption between two [await]s. *)
Record Workshop : Type := mkWorkshop {
  jid : string;
  num_mechanics : nat;
  sem_value : nat;
  waiters : list RepairJob;
  in_service : list RepairJob
}.

(** [MaintenanceAgent.setup]: [sem = asyncio.Semaphore(num_mechanics)]. *)
Definition setup (jid : string) (num_mechanics : nat) : Workshop :=
  mkWorkshop jid num_mechanics num_mechanics [] [].

Definition job_eqb (j k : RepairJob) : bool :=
  String.eqb (request_sender j) (request_sender k)
  && String.eqb (vehicle_id j) (vehicle_id k)
  && String.eqb (issue j) (issue k).

Fixpoint remove_job (j : RepairJob) (l : list RepairJob) : list RepairJob :=
  match l with
  | [] => []
  | k :: l' => if job_eqb k j then l' else k :: remove_job j l'
  end.

(** [Semaphore.locked()] *)
Definition locked (w : Workshop) : bool :=
  (sem_value w =? 0)%nat || match waiters w with [] => false | _ => true end.

Inductive Event : Type :=
| Arrive (j : RepairJob)     (* the dispatcher starts a job for a report *)
| Finish (j : RepairJob).    (* a job in service ends its [sleep(5)] *)

(** The reply of a finished job. *)
Definition repaired_reply (w : Workshop) (j : RepairJob) : Message :=
  mkMessage (request_sender j) (jid w) INFORM None
            (repaired (String.eqb (issue j) "no_fuel")).

(** One scheduling step.
    - [Arrive j]: [RepairJob.run] reaches [async with sem]; [acquire]
      takes a permit when the semaphore is not locked and otherwise
      queues the job.
    - [Finish j]: the job replies and leaves the block; [release] gives
      the permit back and wakes the first waiter, which takes it.
    [None]: the event cannot happen in this state. *)
Definition step (w : Workshop) (e : Event) : option (Workshop * list Message) :=
  match e with
  | Arrive j =>
      if locked w
      then Some (mkWorkshop (jid w) (num_mechanics w) (sem_value w)
                            (waiters w ++ [j]) (in_service w), [])
      else Some (mkWorkshop (jid w) (num_mechanics w) (Nat.pred (sem_value w))
                            (waiters w) (in_service w ++ [j]), [])
  | Finish j =>
      if existsb (fun k => job_eqb k j) (in_service w)
      then
        let running := remove_job j (in_service w) in
        match waiters w with
        | next :: ws =>
            Some (mkWorkshop (jid w) (num_mechanics w) (sem_value w) ws
                             (running ++ [next]), [repaired_reply w j])
        | [] =>
            Some (mkWorkshop (jid w) (num_mechanics w) (S (sem_value w)) []
                             running, [repaired_reply w j])
        end
      else None
  end.

(** A schedule: events applied in order; an event that cannot happen is
    skipped. *)
Fixpoint run (w : Workshop) (es : list Event) : Workshop :=
  match es with
  | [] => w
  | e :: es' =>
      match step w e with
      | Some (w', _) => run w' es'
      | None => run w es'
      end
  end.

Definition is_finish (e : Event) : bool :=
  match e with Finish _ => true | Arrive _ => false end.

End Maintenance.

(** ** agents/traffic_manager.py *)

Module TrafficManager.
Import CityMap Ontology.

Record TrafficManagerAgent : Type := mkTrafficManager {
  jid : string;
  known_vehicles : list string;
  edges : list (node * node)
}.

(** [TrafficManagerAgent.__init__] *)
Definition init (jid : string) (known_vehicles : list string) : TrafficManagerAgent :=
  mkTrafficManager jid known_vehicles
    [ ("Central", "North"); ("North", "Central"); ("Central", "East");
      ("East", "Central"); ("South", "Airport"); ("Airport", "South") ]%string.

(** [random.choice(seq)]: the element at a random index; [None] stands for
    the [IndexError] on an empty sequence. *)
Definition choice {A : Type} (seq : list A) (r : nat) : option A :=
  nth_error seq (r mod length seq).

(** [TrafficJamBehaviour.run].  The three random draws are inputs: [r] for
    [random.choice], [is_jam] for [random.random() > 0.3] and [k] for
    [random.randint(30, 60)]. *)
Definition run (t : TrafficManagerAgent) (r : nat) (is_jam : bool) (k : Z)
  : option (list Message) :=
  match choice (edges t) r with
  | None => None
  | Some (u, v) =>
      let new_weight := if is_jam then k else 10 in
      Some (map (fun v_jid =>
                   create_message (jid t) v_jid INFORM
                     (traffic_update_msg u v new_weight) None)
                (known_vehicles t))
  end.

End TrafficManager.

(** ** agents/gas_station.py *)

Module GasStation.
Import Ontology.

(** One cycle of [RefuelServiceBehaviour.run] on a received message: a
    [REQUEST] of type [refuel_request] is answered, after the sleep, by
    [{"status": "refueled", "fuel_level": 100.0}]; anything else is read
    and dropped. *)
Definition serve (msg : Message) : list Message :=
  match performative msg, body msg with
  | REQUEST, refuel_request _ => [make_reply msg INFORM refueled]
  | _, _ => []
  end.

(** The behaviour is one loop: the messages are served one at a time, in
    the order of their arrival. *)
Definition run (inbox : list Message) : list Message := flat_map serve inbox.

End GasStation.

(** ** agents/station.py: the surge broadcast *)

Module Broadcast.
Import CityMap Ontology Station.

(** [BroadcastStateBehaviour.run] *)
Definition run (st : StationAgent) : list Message :=
  let queue_size := length (passenger_queue st) in
  if (2 <? queue_size)%nat
  then map (fun v_jid =>
              create_message (jid st) v_jid INFORM
                (demand_surge (location st) queue_size) None)
           (known_vehicles st)
  else [].

End Broadcast.

(** ** agents/maintenance.py: the dispatcher *)

Module Dispatcher.
Import Ontology Maintenance.

(** [DispatcherBehaviour.run] on a received message: a [REQUEST] of type
    [breakdown_alert] starts a [RepairJob] for it. *)
Definition run (msg : Message) : option RepairJob :=
  match performative msg, body msg with
  | REQUEST, breakdown_alert vehicle_id _ issue =>
      Some (mkJob (sender msg) vehicle_id issue)
  | _, _ => None
  end.

End Dispatcher.

(** ** Vocabulary of the properties *)

Module Props.
Import PyFloat CityMap Ontology.

(** The number of passengers aboard. *)
Definition load (v : Vehicle.VehicleAgent) : Z :=
  Z.of_nat (length (Vehicle.manifest v)).

(** What a method other than an award may do to the manifest: leave the
    capacity alone and let nobody aboard. *)
Definition no_boarding {A : Type} (m : Vehicle.Beh A) : Prop :=
  forall a x a' out,
    m a = Ok (x, a', out) ->
    Vehicle.capacity a' = Vehicle.capacity a /\ load a' <= load a.

(** A method keeps [len(manifest) <= capacity]. *)
Definition keeps_bound {A : Type} (m : Vehicle.Beh A) : Prop :=
  forall a x a' out,
    m a = Ok (x, a', out) ->
    load a <= Vehicle.capacity a -> load a' <= Vehicle.capacity a'.

(** [u -> v] is an edge of the view restricted to [vehicle_type]: the
    edge is in the graph and its permitted set contains the class. *)
Definition view_edge (g : CityGraph) (vehicle_type : string) (u v : node) : Prop :=
  exists d l,
    edge_data g u v = Some d /\ allowed_types d = Some l /\ In vehicle_type l.

(** Every consecutive edge of [p] exists and permits [vehicle_type]. *)
Fixpoint allowed_path (g : CityGraph) (vehicle_type : string) (p : list node)
  : Prop :=
  match p with
  | u :: ((v :: _) as tl) =>
      view_edge g vehicle_type u v /\ allowed_path g vehicle_type tl
  | _ => True
  end.

(** [v] can be reached from [u] in the restricted view. *)
Inductive reachable (g : CityGraph) (vehicle_type : string) (u : node)
  : node -> Prop :=
| reach_refl : reachable g vehicle_type u u
| reach_step v w :
    reachable g vehicle_type u v -> view_edge g vehicle_type v w ->
    reachable g vehicle_type u w.

Definition nonneg_weights (g : CityGraph) : bool :=
  forallb (fun x => 0 <=? weight (snd x)) (edges g).

(** [p] starts at [s] and ends at [t]. *)
Definition connects (s t : node) (p : list node) : Prop :=
  head p = Some s /\ last p = Some t.

(** *** The state of the search *)

(** The root of a direction: the source forward, the target backward. *)
Definition root_of (source target : node) (dir : bool) : node :=
  if dir then target else source.

(** [p] leads from the root to [u] along the neighbours of direction
    [dir], at the total cost [d]. *)
Inductive route (g : CityGraph) (vehicle_type : string) (dir : bool) (root : node)
  : node -> list node -> Z -> Prop :=
| route_root : route g vehicle_type dir root root [root] 0
| route_step v p d w c :
    route g vehicle_type dir root v p d ->
    In (w, c) (neighs g vehicle_type dir v) ->
    route g vehicle_type dir root w (p ++ [w]) (d + c).

(** The invariant of one direction.  During the loop over the neighbours
    of [v], [pending] holds the neighbours that are still to come; at the
    head of the [while] loop it is empty. *)
Record side_inv (g : CityGraph) (vehicle_type : string) (dir : bool) (root : node)
    (v : node) (pending : list (node * Z)) (x : Side) : Prop := mkSideInv {
  si_root : (dists x = [] /\ fringe x = [(0, root)] /\ seen x = [(root, 0)])
            \/ assoc root (dists x) = Some 0;
  si_paths : forall u d, assoc u (seen x) = Some d ->
      exists p, path_to u (paths x) = Some p
                /\ route g vehicle_type dir root u p d;
  si_dists : forall u d, assoc u (dists x) = Some d -> assoc u (seen x) = Some d;
  si_fringe : forall k u, In (k, u) (fringe x) ->
      exists d, assoc u (seen x) = Some d /\ d <= k;
  si_queued : forall u d, assoc u (seen x) = Some d -> assoc u (dists x) = None ->
      In (d, u) (fringe x);
  si_mono : forall u d k w, assoc u (dists x) = Some d -> In (k, w) (fringe x) ->
      d <= k;
  si_closed : forall u du w c,
      assoc u (dists x) = Some du ->
      In (w, c) (neighs g vehicle_type dir u) ->
      (u = v /\ In (w, c) pending)
      \/ exists d, assoc w (seen x) = Some d /\ d <= du + c
}.

(** What the two directions know of each other. *)
Record meet_inv (g : CityGraph) (vehicle_type : string) (source target : node)
    (s : Search) : Prop := mkMeetInv {
  mi_meet : forall w d0 d1,
      assoc w (seen (forward s)) = Some d0 ->
      assoc w (seen (backward s)) = Some d1 ->
      exists finaldist finalpath,
        final s = Some (finaldist, finalpath) /\ finaldist <= d0 + d1;
  mi_final : forall finaldist finalpath,
      final s = Some (finaldist, finalpath) ->
      connects source target finalpath
      /\ allowed_path g vehicle_type finalpath
      /\ sum_weights g finalpath = Ok finaldist
}.

(** How far the search has got: before the first turn, after the forward
    turn that settles the source, or with both roots settled. *)
Definition phase (source target : node) (dir : bool) (s : Search) : Prop :=
  (forward s = start source /\ backward s = start target /\ dir = true)
  \/ (dists (forward s) = [(source, 0)] /\ backward s = start target
      /\ dir = false)
  \/ (assoc source (dists (forward s)) <> None
      /\ assoc target (dists (backward s)) <> None).

(** The invariant of the [while] loop. *)
Record search_inv (g : CityGraph) (vehicle_type : string) (source target : node)
    (dir : bool) (s : Search) : Prop := mkInv {
  inv_forward : side_inv g vehicle_type false source source [] (forward s);
  inv_backward : side_inv g vehicle_type true target target [] (backward s);
  inv_meet : meet_inv g vehicle_type source target s;
  inv_disjoint : forall u, assoc u (dists (forward s)) <> None ->
                           assoc u (dists (backward s)) = None;
  inv_phase : phase source target dir s
}.

(** The edge that a neighbour [w] of [v] in direction [dir] stands for. *)
Definition edge_of (dir : bool) (v w : node) : node * node :=
  if dir then (w, v) else (v, w).

(** The end of an edge that direction [dir] leaves from. *)
Definition tail_of (dir : bool) (x : node * node * EdgeData) : node :=
  if dir then snd (fst x) else fst (fst x).

Definition is_settled (dir : bool) (dist : list (node * Z))
    (x : node * node * EdgeData) : bool :=
  match assoc (tail_of dir x) dist with Some _ => true | None => false end.

(** The pushes that direction [dir] can still make: one for every edge
    that leaves a node it has not settled. *)
Definition pushes_left (g : CityGraph) (dir : bool) (x : Side) : nat :=
  length (List.filter (fun e => negb (is_settled dir (dists x) e)) (edges g)).

(** The pops that can still happen. *)
Definition pops_left (g : CityGraph) (s : Search) : nat :=
  length (fringe (forward s)) + pushes_left g false (forward s)
  + length (fringe (backward s)) + pushes_left g true (backward s).

(** The paths of one direction are as short as the settled nodes allow:
    the path to a settled node has no more nodes than are settled, the path
    to a node that is only seen at most one more. *)
Record short_paths (x : Side) : Prop := mkShort {
  sp_settled : forall u d p,
      assoc u (dists x) = Some d -> path_to u (paths x) = Some p ->
      (length p <= length (dists x))%nat;
  sp_seen : forall u p,
      path_to u (paths x) = Some p -> (length p <= S (length (dists x)))%nat
}.

(** The path found so far is no longer than the two directions together. *)
Definition short_final (s : Search) : Prop :=
  forall finaldist finalpath,
    final s = Some (finaldist, finalpath) ->
    (length finalpath
     <= length (dists (forward s)) + length (dists (backward s)) + 1)%nat.

(** The lengths that the [while] loop keeps bounded. *)
Record length_inv (g : CityGraph) (s : Search) : Prop := mkLen {
  len_forward : short_paths (forward s);
  len_backward : short_paths (backward s);
  len_final : short_final s;
  len_pops : (length (dists (forward s)) + length (dists (backward s))
              + pops_left g s <= 2 * length (edges g) + 2)%nat
}.

(** The rewrite of a traffic update, on one entry of the edge list. *)
Definition retime (u v : node) (w : Z) (x : node * node * EdgeData)
  : node * node * EdgeData :=
  if same_edge u v x
  then (fst x, mkEdge w (base_weight (snd x)) (allowed_types (snd x)))
  else x.

(** A sequence of traffic updates, applied in order. *)
Definition apply_updates (g : CityGraph) (us : list (node * node * Z)) : CityGraph :=
  fold_left (fun g '(u, v, w) => traffic_update g u v w) us g.

(** [st'] is [st] with the first entry of [p] taken off the queue: what
    stood before it and what stood after it are kept, in order. *)
Definition dequeued (st : Station.StationAgent) (p : string)
    (st' : Station.StationAgent) : Prop :=
  exists before after,
    Station.passenger_queue st = before ++ p :: after
    /\ ~ In p before
    /\ st' = Station.mkStation (Station.jid st) (Station.location st)
               (Station.known_vehicles st) (before ++ after).

(** The rejection sent for a bid that did not win. *)
Definition reject (x : Message * Z) : Message :=
  make_reply (fst x) REJECT_PROPOSAL (reason "better_proposal_found").

(** *** Concrete agents, from [main.py] *)

Definition bus_1 : Vehicle.VehicleAgent :=
  Vehicle.init "pedro_bus_1@jabb.im" "bus" "South" "pedro_mechanic@jabb.im"
    "pedro_fuel@jabb.im" "pedro_dashboard@jabb.im" 4
    ["South"; "Central"; "North"; "West"; "University"; "South"]%string.

Definition tram_1 : Vehicle.VehicleAgent :=
  Vehicle.init "pedro_tram_1@jabb.im" "tram" "North" "pedro_mechanic@jabb.im"
    "pedro_fuel@jabb.im" "pedro_dashboard@jabb.im" 6
    ["North"; "East"; "Stadium"; "North"]%string.

Definition st_south : Station.StationAgent :=
  Station.mkStation "pedro_st_south@jabb.im" "South"
    ["pedro_bus_1@jabb.im"; "pedro_tram_1@jabb.im"]%string [].

(** An award of the South station for the session [s]. *)
Definition award (s p : string) : Message :=
  mkMessage "pedro_bus_1@jabb.im" "pedro_st_south@jabb.im" ACCEPT_PROPOSAL
            (Some s) (passenger_id p).

(** [bus_1] with four passengers aboard and a bid pending for ["s5"]. *)
Definition bus_1_full : Vehicle.VehicleAgent :=
  Vehicle.set_pending_bids
    (<["s5" := Vehicle.mkBid "South" "Airport" (of_int 5)]> ∅)
    (Vehicle.set_manifest
       [Vehicle.mkPassenger "p1" "Central"; Vehicle.mkPassenger "p2" "North";
        Vehicle.mkPassenger "p3" "Central"; Vehicle.mkPassenger "p4" "West"]
       bus_1).

(** [tram_1] after a diversion towards South, a stop served by buses only. *)
Definition tram_1_diverted : Vehicle.VehicleAgent :=
  Vehicle.set_waypoints ["South"; "East"]%string tram_1.

(** A session of the South station for a passenger bound for the Airport,
    and three bids for it in arrival order, the last two with equal ETA. *)
Definition st_south_waiting : Station.StationAgent :=
  Station.mkStation "pedro_st_south@jabb.im" "South"
    ["pedro_bus_1@jabb.im"; "pedro_bus_2@jabb.im"; "pedro_bus_3@jabb.im"]%string
    ["pedro_p_3@jabb.im"; "pedro_p_1@jabb.im"]%string.

Definition cnp_south : Station.CNPManager :=
  Station.mkCNP "Airport" "pedro_p_1@jabb.im" "6f1c-session".

Definition proposal (vehicle : string) (eta : Z) : Message :=
  mkMessage "pedro_st_south@jabb.im" vehicle PROPOSE (Some "6f1c-session"%string)
            (bid vehicle eta 4 (Some ["South"; "Airport"]%string)).

Definition bids_south : list Message :=
  [ proposal "pedro_bus_2@jabb.im" 12;
    mkMessage "pedro_st_south@jabb.im" "pedro_tram_1@jabb.im" REFUSE
              (Some "6f1c-session"%string) (reason "route_impossible");
    proposal "pedro_bus_1@jabb.im" 7;
    proposal "pedro_bus_3@jabb.im" 7 ].

(** *** Fuel planning *)

(** The reserve and the threshold as the specification words them: the
    distance of the destination-to-depot path, scaled, plus the buffer. *)
Definition spec_total_required (a : Vehicle.VehicleAgent) (origin destination : node)
  : result float :=
  let m := Vehicle.city_map a in
  rbind (get_shortest_path m (Vehicle.current_location a) origin
                           (Vehicle.vehicle_type a)) (fun path_pickup =>
  rbind (get_shortest_path m origin destination (Vehicle.vehicle_type a))
        (fun path_trip =>
  rbind (get_total_distance m path_pickup) (fun pickup_cost =>
  rbind (get_total_distance m path_trip) (fun trip_cost =>
  rbind (get_shortest_path m destination "GasStation" "bus") (fun path_pump =>
  rbind (get_total_distance m path_pump) (fun pump_distance =>
  Ok (add (add (mul (of_int (pickup_cost + trip_cost)) (Vehicle.fuel_consumption a))
               (mul (of_int pump_distance) (Vehicle.fuel_consumption a)))
          (of_int 15)))))))).

(** The ETA carried by a bid. *)
Definition bid_eta (m : Message) : option Z :=
  match body m with
  | bid _ eta _ _ => Some eta
  | _ => None
  end.

(** [bus_1] at South with fuel 30.0 (fourteen runs between South and the
    Airport after a full tank), while Airport -> South is congested. *)
Definition bus_1_low : Vehicle.VehicleAgent :=
  Vehicle.set_city_map (traffic_update create_sample_map "Airport" "South" 50)
    (Vehicle.set_fuel_level (of_int 30) bus_1).

Definition cfp_south : Message :=
  create_message "pedro_st_south@jabb.im" "pedro_bus_1@jabb.im" CFP
    (format_cfp "South" "Airport" 1) (Some "51-session"%string).

(** [bus_1] at South with a full tank, while South -> Airport is congested. *)
Definition bus_1_jam : Vehicle.VehicleAgent :=
  Vehicle.set_city_map (traffic_update create_sample_map "South" "Airport" 40) bus_1.

Definition cfp_airport : Message :=
  create_message "pedro_st_airport@jabb.im" "pedro_bus_1@jabb.im" CFP
    (format_cfp "Airport" "South" 1) (Some "a9-session"%string).

(** *** Three breakdowns reported at once *)

Definition job (vehicle why : string) : Maintenance.RepairJob :=
  Maintenance.mkJob vehicle vehicle why.

Definition three_breakdowns : list Maintenance.Event :=
  [ Maintenance.Arrive (job "pedro_bus_1@jabb.im" "no_fuel");
    Maintenance.Arrive (job "pedro_bus_2@jabb.im" "engine_fail");
    Maintenance.Arrive (job "pedro_tram_1@jabb.im" "engine_fail") ].

End Props.

(** ** Vocabulary of the further properties *)

Module Extra.
Import PyFloat CityMap Ontology Props.

(** The outcome of a run with [f] applied to the final state. *)
Definition map_state {A : Type} (f : Vehicle.VehicleAgent -> Vehicle.VehicleAgent)
    (r : result (A * Vehicle.VehicleAgent * list Message))
  : result (A * Vehicle.VehicleAgent * list Message) :=
  match r with
  | Ok (x, a, out) => Ok (x, f a, out)
  | Raise e => Raise e
  end.

(** [content.get("passenger_id", "unknown")] *)
Definition passenger_of (content : Content) : string :=
  match content with
  | passenger_id p => p
  | _ => "unknown"%string
  end.

(** The waypoint queue after an award is committed: the origin goes to the
    front unless the vehicle is there or the queue ends with it, then the
    destination goes to the back unless it is queued. *)
Definition queue_after_award (location origin dest : node) (queue : list node)
  : list node :=
  let with_origin :=
    if negb (String.eqb location origin)
       && match Vehicle.last_waypoint queue with
          | None => true
          | Some w => negb (String.eqb w origin)
          end
    then origin :: queue else queue in
  if Vehicle.mem dest with_origin then with_origin else with_origin ++ [dest].

(** [bus_1] with three passengers aboard and bids pending for two sessions. *)
Definition bus_1_one_seat : Vehicle.VehicleAgent :=
  Vehicle.set_pending_bids
    (<["s5" := Vehicle.mkBid "South" "Airport" (of_int 5)]>
       (<["s6" := Vehicle.mkBid "South" "Central" (of_int 3)]> ∅))
    (Vehicle.set_manifest
       [Vehicle.mkPassenger "p1" "Central"; Vehicle.mkPassenger "p2" "North";
        Vehicle.mkPassenger "p3" "Central"]
       bus_1).

(** The call for proposals that a session sends to one vehicle. *)
Definition cfp_to (st : Station.StationAgent) (c : Station.CNPManager)
    (v_jid : string) : Message :=
  create_message (Station.jid st) v_jid CFP
    (format_cfp (Station.location st) (Station.destination c) 1)
    (Some (Station.conversation_id c)).

(** The award that a session sends for a winning proposal. *)
Definition award_for (c : Station.CNPManager) (proposal : Message) : Message :=
  make_reply proposal ACCEPT_PROPOSAL (passenger_id (Station.passenger_jid c)).

(** The bid of [bus_1], standing at South, for the session [cnp_south]. *)
Definition bus_1_proposal : Message :=
  make_reply (cfp_to st_south_waiting cnp_south "pedro_bus_1@jabb.im") PROPOSE
    (bid "pedro_bus_1@jabb.im" 0 4 (Some ["South"; "Airport"]%string)).

Definition bus_1_after_bid : Vehicle.VehicleAgent :=
  Vehicle.set_pending_bids
    (<["6f1c-session" := Vehicle.mkBid "South" "Airport" (of_int 5)]> ∅) bus_1.

(** *** Runs that return *)

(** [m], started in [a], returns, and its result and final state satisfy
    [Q]. *)
Definition runs {A : Type} (m : Vehicle.Beh A) (a : Vehicle.VehicleAgent)
    (Q : A -> Vehicle.VehicleAgent -> Prop) : Prop :=
  exists x a' out, m a = Ok (x, a', out) /\ Q x a'.

(** Both ends of every edge are nodes, as [add_edge] leaves them. *)
Definition closed_edges (g : CityGraph) : bool :=
  forallb (fun x => has_node g (fst (fst x)) && has_node g (snd (fst x)))
          (edges g).

(** The largest time or distance that an edge may carry, and the largest
    number of edges, for the products of [vehicle.py] with the float
    [fuel_consumption] or [TIME_SCALE] to stay in the range of floats:
    Python raises [OverflowError] on [int * float] from
    [2 ** 1024 - 2 ** 970] on, a path returned by the search has at most
    [2 * |E| + 2] edges, and [handle_cfp] adds the distances of two paths. *)
Definition metric_limit : Z := 2 ^ 1000.

Definition edge_limit : Z := 2 ^ 20.

(** [edge_data.get("base_weight", 10)] *)
Definition distance_of (d : EdgeData) : Z :=
  match base_weight d with Some b => b | None => 10 end.

Definition bounded_metrics (g : CityGraph) : bool :=
  (Z.of_nat (length (edges g)) <=? edge_limit)
  && forallb (fun x => (weight (snd x) <=? metric_limit)
                       && (Z.abs (distance_of (snd x)) <=? metric_limit))
             (edges g).

(** A vehicle whose map has non-negative times, times and distances within
    [metric_limit] on at most [edge_limit] edges, closed edges and the
    depot, and that stands at, is bound for, patrols and has bid for nodes
    of that map only. *)
Record roadworthy (a : Vehicle.VehicleAgent) : Prop := mkRoadworthy {
  rw_weights : nonneg_weights (Vehicle.city_map a) = true;
  rw_bounded : bounded_metrics (Vehicle.city_map a) = true;
  rw_edges : closed_edges (Vehicle.city_map a) = true;
  rw_depot : has_node (Vehicle.city_map a) "GasStation" = true;
  rw_location :
    has_node (Vehicle.city_map a) (Vehicle.current_location a) = true;
  rw_waypoints :
    forallb (has_node (Vehicle.city_map a)) (Vehicle.waypoints a) = true;
  rw_patrol :
    forallb (has_node (Vehicle.city_map a)) (Vehicle.patrol_route a) = true;
  rw_bids :
    map_Forall
      (fun (_ : string) b =>
         has_node (Vehicle.city_map a) (Vehicle.b_origin b) = true
         /\ has_node (Vehicle.city_map a) (Vehicle.b_dest b) = true)
      (Vehicle.pending_bids a)
}.

(** What the other agents send to a vehicle: a traffic update carries a
    non-negative time within [metric_limit], a call for proposals is a ride
    request between two nodes, a surge alert names a node. *)
Definition well_formed (g : CityGraph) (m : Message) : Prop :=
  match performative m, body m with
  | INFORM, traffic_update_msg _ _ w => 0 <= w <= metric_limit
  | CFP, ride_request origin destination _ =>
      has_node g origin = true /\ has_node g destination = true
  | CFP, _ => False
  | INFORM, demand_surge station _ => has_node g station = true
  | _, _ => True
  end.


(** [content["eta"]] can be read: the body is a dictionary with that key. *)
Definition has_eta (m : Message) : bool :=
  match Station.eta_of (body m) with
  | Some _ => true
  | None => false
  end.

(** *** More concrete agents *)

(** [bus_1], at South, bound for the Airport. *)
Definition bus_1_to_airport : Vehicle.VehicleAgent :=
  Vehicle.set_waypoints ["Airport"]%string bus_1.

(** [tram_1], at the North, bound for the East with an empty tank. *)
Definition tram_1_dry : Vehicle.VehicleAgent :=
  Vehicle.set_fuel_level (of_int 0) (Vehicle.set_waypoints ["East"]%string tram_1).

(** The traffic update that the manager sends to [bus_1] for a jam of 45
    minutes between the Airport and the South. *)
Definition jam_airport_south : Message :=
  create_message "pedro_traffic@jabb.im" "pedro_bus_1@jabb.im" INFORM
    (traffic_update_msg "Airport" "South" 45) None.

(** The South station with three passengers waiting, and its surge alert
    to [tram_1]. *)
Definition st_south_crowded : Station.StationAgent :=
  Station.mkStation "pedro_st_south@jabb.im" "South"
    ["pedro_bus_1@jabb.im"; "pedro_tram_1@jabb.im"]%string
    ["pedro_p_1@jabb.im"; "pedro_p_2@jabb.im"; "pedro_p_3@jabb.im"]%string.

Definition surge_south : Message :=
  create_message "pedro_st_south@jabb.im" "pedro_tram_1@jabb.im" INFORM
    (demand_surge "South" 3) None.

End Extra.
(** ** Symbolic execution of the handlers *)

(** [c] has no case analysis inside. *)
Ltac no_cases c :=
  lazymatch c with
  | context [if _ then _ else _] => fail
  | context [match _ with Ok _ => _ | Raise _ => _ end] => fail
  | context [match _ with Some _ => _ | None => _ end] => fail
  | context [match _ with [] => _ | _ :: _ => _ end] => fail
  | context [match _ with (_, _) => _ end] => fail
  | _ => idtac
  end.

(** One step on the run recorded in hypothesis [H]: unfold the monad and
    the small methods, or split on an innermost scrutinee. *)
Ltac step_method H :=
  first
    [ progress (unfold Vehicle.bind, Vehicle.get, Vehicle.lift,
                 Vehicle.send_refuse, Vehicle.send, Vehicle.when,
                 Vehicle.modify, Vehicle.ret, Vehicle.go_to_gas_station,
                 Vehicle.send_status_update, Vehicle.trigger_breakdown in H;
                simpl in H)
    | match type of H with
      | context [match ?c with (_, _) => _ end] => no_cases c; destruct c
      | context [if ?c then _ else _] => no_cases c; destruct c eqn:?
      | context [match ?c with Ok _ => _ | Raise _ => _ end] =>
          no_cases c; destruct c eqn:?
      | context [match ?c with Some _ => _ | None => _ end] =>
          no_cases c; destruct c eqn:?
      | context [match ?c with [] => _ | _ :: _ => _ end] =>
          no_cases c; destruct c eqn:?
      | context [match ?c with
                 | Ontology.ride_request _ _ _ => _
                 | _ => _
                 end] => no_cases c; destruct c
      end ].

(** The same on the goal, for equations between two runs. *)
Ltac step_goal :=
  first
    [ progress (cbv beta iota delta
                  [Vehicle.bind Vehicle.get Vehicle.lift Vehicle.send_refuse
                   Vehicle.send Vehicle.when Vehicle.modify Vehicle.ret
                   Vehicle.go_to_gas_station Vehicle.send_status_update
                   Vehicle.trigger_breakdown]; simpl)
    | match goal with
      | |- context [match ?c with (_, _) => _ end] => no_cases c; destruct c
      | |- context [if ?c then _ else _] => no_cases c; destruct c eqn:?
      | |- context [match ?c with Ok _ => _ | Raise _ => _ end] =>
          no_cases c; destruct c eqn:?
      | |- context [match ?c with Some _ => _ | None => _ end] =>
          no_cases c; destruct c eqn:?
      | |- context [match ?c with [] => _ | _ :: _ => _ end] =>
          no_cases c; destruct c eqn:?
      | |- context [match ?c with
                    | Ontology.ride_request _ _ _ => _
                    | _ => _
                    end] => no_cases c; destruct c
      end ].

(** * Properties *)

(** ** The vehicle: awards *)

Section Awards.
Import PyFloat CityMap Ontology Vehicle Props.

Variable a : VehicleAgent.
Variable msg : Message.
Variable content : Content.

Lemma is_full_true : is_full a = true <-> capacity a <= load a.
Proof. unfold is_full, load. apply Z.leb_le. Qed.

Lemma is_full_false : is_full a = false <-> load a < capacity a.
Proof. unfold is_full, load. apply Z.leb_gt. Qed.

(** An award that finds the vehicle full changes nothing and is answered
    by one refusal. *)
Lemma handle_acceptance_full :
  capacity a <= load a ->
  handle_acceptance msg content a
  = Ok (tt, a, [make_reply msg REFUSE (reason "capacity_full_error")]).
Proof.
  intros Hfull. apply is_full_true in Hfull.
  unfold handle_acceptance, bind, get, send. simpl. now rewrite Hfull.
Qed.

(** An award always returns; the capacity is never touched and the
    manifest grows by at most one, and only when there was room. *)
Lemma handle_acceptance_returns :
  exists a' out,
    handle_acceptance msg content a = Ok (tt, a', out)
    /\ capacity a' = capacity a
    /\ (load a' = load a \/ (load a < capacity a /\ load a' = load a + 1)).
Proof.
  destruct (is_full a) eqn:Hfull.
  - exists a, [make_reply msg REFUSE (reason "capacity_full_error")].
    split; [apply handle_acceptance_full, is_full_true, Hfull | auto].
  - apply is_full_false in Hfull as Hlt.
    unfold handle_acceptance, bind, get. simpl. rewrite Hfull.
    destruct (thread msg) as [t|]; [| eexists _, _; simpl; eauto].
    destruct (pending_bids a !! t) as [b|]; [| eexists _, _; simpl; eauto].
    unfold when, modify, ret. simpl.
    repeat match goal with
           | |- context [if ?c then _ else _] => destruct c; simpl
           | |- context [match ?c with Some _ => _ | None => _ end] =>
               destruct c; simpl
           end;
      (eexists _, _; split; [reflexivity |]; simpl; split; [reflexivity |];
       right; split; [exact Hlt |];
       unfold load; simpl; rewrite length_app; simpl; lia).
Qed.

(** C1.  [len(manifest) <= capacity] is kept by every award, and an award
    that arrives while the manifest is at capacity is answered by the
    refusal [capacity_full_error] and leaves the manifest, the waypoint
    queue and the pending-bid table (so the bid of that session too) as
    they were. *)
Theorem award_keeps_capacity_bound :
  load a <= capacity a ->
  exists a' out,
    handle_acceptance msg content a = Ok (tt, a', out)
    /\ load a' <= capacity a'
    /\ (capacity a <= load a ->
        out = [make_reply msg REFUSE (reason "capacity_full_error")]
        /\ manifest a' = manifest a
        /\ waypoints a' = waypoints a
        /\ pending_bids a' = pending_bids a).
Proof.
  intros Hinv.
  destruct handle_acceptance_returns as (a' & out & Hrun & Hcap & Hload).
  exists a', out. split; [exact Hrun |]. split.
  - rewrite Hcap. destruct Hload as [-> | [Hlt ->]]; lia.
  - intros Hfull. rewrite (handle_acceptance_full Hfull) in Hrun.
    now inversion Hrun.
Qed.

(** C10.  An award whose session is not in the pending-bid table, received
    with room aboard, changes nothing in the vehicle and sends nothing. *)
Theorem stale_award_dropped :
  load a < capacity a ->
  match thread msg with
  | Some t => pending_bids a !! t = None
  | None => True
  end ->
  handle_acceptance msg content a = Ok (tt, a, []).
Proof.
  intros Hroom Hstale. apply is_full_false in Hroom.
  unfold handle_acceptance, bind, get. simpl. rewrite Hroom.
  destruct (thread msg) as [t|]; [| reflexivity].
  now rewrite Hstale.
Qed.

End Awards.

Lemma award_keeps_capacity_bound_witness :
  Props.load Props.bus_1_full <= Vehicle.capacity Props.bus_1_full
  /\ exists a' out,
      Vehicle.handle_acceptance (Props.award "s5" "p9") (Ontology.passenger_id "p9")
        Props.bus_1_full = Ok (tt, a', out)
      /\ Props.load a' <= Vehicle.capacity a'
      /\ (Vehicle.capacity Props.bus_1_full <= Props.load Props.bus_1_full ->
          out = [Ontology.make_reply (Props.award "s5" "p9") Ontology.REFUSE
                   (Ontology.reason "capacity_full_error")]
          /\ Vehicle.manifest a' = Vehicle.manifest Props.bus_1_full
          /\ Vehicle.waypoints a' = Vehicle.waypoints Props.bus_1_full
          /\ Vehicle.pending_bids a' = Vehicle.pending_bids Props.bus_1_full).
Proof.
  split; [vm_compute; discriminate |].
  apply (award_keeps_capacity_bound Props.bus_1_full (Props.award "s5" "p9")
           (Ontology.passenger_id "p9")).
  vm_compute; discriminate.
Defined.

Lemma stale_award_dropped_witness :
  Props.load Props.bus_1 < Vehicle.capacity Props.bus_1
  /\ Vehicle.pending_bids Props.bus_1 !! "s7" = None
  /\ Vehicle.handle_acceptance (Props.award "s7" "p9") (Ontology.passenger_id "p9")
       Props.bus_1 = Ok (tt, Props.bus_1, []).
Proof.
  assert (H1 : Props.load Props.bus_1 < Vehicle.capacity Props.bus_1)
    by (vm_compute; reflexivity).
  assert (H2 : Vehicle.pending_bids Props.bus_1 !! "s7" = None)
    by (vm_compute; reflexivity).
  split; [exact H1 |]. split; [exact H2 |].
  exact (stale_award_dropped Props.bus_1 (Props.award "s7" "p9")
           (Ontology.passenger_id "p9") H1 H2).
Defined.

(** ** The vehicle: a waypoint that cannot be reached *)

Section Movement.
Import PyFloat CityMap Ontology Vehicle Props.

(** C9.  When the head waypoint is not the current location and the
    class-filtered search finds no path to it (or one of fewer than two
    nodes), a movement step only drops that waypoint: the vehicle stays
    where it is with the same fuel, manifest and flags, sends nothing and
    raises nothing. *)
Theorem unreachable_waypoint_skipped
    (a : VehicleAgent) (fault : bool) (target_stop : node)
    (remaining : list node) (path : option (list node)) :
  waypoints a = target_stop :: remaining ->
  current_location a <> target_stop ->
  get_shortest_path (city_map a) (current_location a) target_stop
                    (vehicle_type a) = Ok path ->
  match path with
  | None => True
  | Some p => (length p < 2)%nat
  end ->
  exists a',
    move_to_next_node fault a = Ok (tt, a', [])
    /\ waypoints a' = remaining
    /\ current_location a' = current_location a
    /\ fuel_level a' = fuel_level a
    /\ manifest a' = manifest a
    /\ is_broken a' = is_broken a
    /\ is_refueling a' = is_refueling a.
Proof.
  intros Hw Hloc Hpath Hshort.
  exists (set_waypoints remaining a).
  split; [| now simpl].
  unfold move_to_next_node, bind, get, lift, modify. simpl. rewrite Hw.
  destruct (String.eqb_spec (current_location a) target_stop) as [E | _];
    [contradiction |].
  rewrite Hpath.
  destruct path as [[| x [| y p]] |]; simpl in *; try reflexivity; lia.
Qed.

End Movement.

Lemma unreachable_waypoint_skipped_witness :
  Vehicle.waypoints Props.tram_1_diverted = ["South"; "East"]%string
  /\ Vehicle.current_location Props.tram_1_diverted <> "South"%string
  /\ CityMap.get_shortest_path (Vehicle.city_map Props.tram_1_diverted)
       (Vehicle.current_location Props.tram_1_diverted)
       "South" (Vehicle.vehicle_type Props.tram_1_diverted) = Ok None
  /\ exists a',
      Vehicle.move_to_next_node false Props.tram_1_diverted = Ok (tt, a', [])
      /\ Vehicle.waypoints a' = ["East"]%string
      /\ Vehicle.current_location a' = Vehicle.current_location Props.tram_1_diverted
      /\ Vehicle.fuel_level a' = Vehicle.fuel_level Props.tram_1_diverted
      /\ Vehicle.manifest a' = Vehicle.manifest Props.tram_1_diverted
      /\ Vehicle.is_broken a' = Vehicle.is_broken Props.tram_1_diverted
      /\ Vehicle.is_refueling a' = Vehicle.is_refueling Props.tram_1_diverted.
Proof.
  assert (H1 : Vehicle.waypoints Props.tram_1_diverted = ["South"; "East"]%string)
    by reflexivity.
  assert (H2 : Vehicle.current_location Props.tram_1_diverted <> "South"%string)
    by (vm_compute; discriminate).
  assert (H3 : CityMap.get_shortest_path (Vehicle.city_map Props.tram_1_diverted)
                 (Vehicle.current_location Props.tram_1_diverted) "South"
                 (Vehicle.vehicle_type Props.tram_1_diverted)
               = Ok None) by (vm_compute; reflexivity).
  split; [exact H1 |]. split; [exact H2 |]. split; [exact H3 |].
  exact (unreachable_waypoint_skipped Props.tram_1_diverted false "South"
           ["East"]%string None H1 H2 H3 I).
Defined.

(** ** The station: closing a negotiation *)

Section Negotiation.
Import CityMap Ontology Station Props.

Lemma list_mem_In (x : string) (l : list string) :
  list_mem x l = true <-> In x l.
Proof.
  unfold list_mem. rewrite existsb_exists. split.
  - intros (y & Hy & E). apply String.eqb_eq in E. now subst.
  - intros H. exists x. split; [exact H | apply String.eqb_refl].
Qed.

Lemma list_remove_absent (x : string) (l : list string) :
  ~ In x l -> list_remove x l = l.
Proof.
  induction l as [| y l IH]; simpl; intros H; [reflexivity |].
  destruct (String.eqb_spec y x) as [-> | _]; [tauto |].
  f_equal. apply IH. tauto.
Qed.

(** Removing the first occurrence takes exactly one occurrence away. *)
Lemma list_remove_count (x : string) (l : list string) :
  In x l ->
  S (count_occ String.string_dec (list_remove x l) x) = count_occ String.string_dec l x.
Proof.
  induction l as [| y l IH]; simpl; intros H; [contradiction |].
  destruct (String.eqb_spec y x) as [-> | Hne].
  - now destruct (String.string_dec x x).
  - simpl. destruct (String.string_dec y x); [contradiction |].
    apply IH. tauto.
Qed.

Lemma list_remove_gone (x : string) (l : list string) :
  List.NoDup l -> ~ In x (list_remove x l).
Proof.
  induction 1 as [| y l Hy Hnd IH]; simpl; [tauto |].
  destruct (String.eqb_spec y x) as [-> | Hne]; [exact Hy |].
  simpl. tauto.
Qed.

(** [list.remove] splits the list at the first occurrence. *)
Lemma list_remove_first (x : string) (l : list string) :
  In x l ->
  exists before after,
    l = before ++ x :: after /\ ~ In x before
    /\ list_remove x l = before ++ after.
Proof.
  induction l as [| y l IH]; simpl; intros H; [contradiction |].
  destruct (String.eqb_spec y x) as [-> | Hne].
  - exists [], l. simpl. auto.
  - destruct IH as (before & after & Hl & Hb & Hr); [tauto |].
    exists (y :: before), after. simpl. rewrite Hl at 1. rewrite Hr.
    split; [reflexivity |]. split; [tauto | reflexivity].
Qed.

Lemma dequeue_dequeued (st : StationAgent) (p : string) :
  In p (passenger_queue st) -> dequeued st p (dequeue st p).
Proof.
  intros H. destruct (list_remove_first _ _ H) as (before & after & Hl & Hb & Hr).
  exists before, after. unfold dequeue. now rewrite Hr.
Qed.

(** *** The sort *)

Lemma insert_by_eta_perm (x : Message * Z) (l : list (Message * Z)) :
  Permutation (insert_by_eta x l) (x :: l).
Proof.
  induction l as [| y l IH]; simpl; [reflexivity |].
  destruct (snd x <=? snd y); [reflexivity |].
  rewrite IH. apply perm_swap.
Qed.

Lemma sort_by_eta_perm (l : list (Message * Z)) :
  Permutation (sort_by_eta l) l.
Proof.
  induction l as [| x l IH]; simpl; [reflexivity |].
  rewrite insert_by_eta_perm. now constructor.
Qed.

(** The head of the sorted list is the earliest bid of least ETA, and
    the tail is the sort of the other bids. *)
Lemma sort_by_eta_head (l : list (Message * Z)) :
  l <> [] ->
  exists before winner after,
    l = before ++ winner :: after
    /\ Forall (fun x => snd winner < snd x) before
    /\ Forall (fun x => snd winner <= snd x) after
    /\ sort_by_eta l = winner :: sort_by_eta (before ++ after).
Proof.
  induction l as [| x l IH]; [congruence | intros _].
  destruct l as [| y l].
  - exists [], x, []. simpl. repeat split; constructor.
  - destruct IH as (before & w & after & Hl & Hb & Ha & Hs); [congruence |].
    assert (Hx : sort_by_eta (x :: y :: l)
                 = insert_by_eta x (w :: sort_by_eta (before ++ after))).
    { change (sort_by_eta (x :: y :: l))
        with (insert_by_eta x (sort_by_eta (y :: l))).
      now rewrite Hs. }
    cbn [insert_by_eta] in Hx. revert Hx.
    destruct (Z.leb_spec (snd x) (snd w)) as [Hle | Hgt]; intros Hx.
    + exists [], x, (y :: l). split; [reflexivity |].
      split; [constructor |]. split; [| now rewrite Hx, <- Hs].
      rewrite Hl. apply Forall_app. split.
      * eapply List.Forall_impl; [| exact Hb]. simpl. intros; lia.
      * constructor; [exact Hle |].
        eapply List.Forall_impl; [| exact Ha]. simpl. intros; lia.
    + exists (x :: before), w, after. rewrite Hl.
      split; [reflexivity |]. split; [now constructor |].
      split; [exact Ha |]. rewrite <- Hl. exact Hx.
Qed.

(** *** The collection *)

Lemma collect_etas (c : CNPManager) (inbox : list Message) :
  forall proposals,
    collect c inbox = Ok proposals ->
    Forall (fun x => eta_of (body (fst x)) = Some (snd x)) proposals.
Proof.
  induction inbox as [| m inbox IH]; simpl; intros ps H.
  - inversion H. constructor.
  - destruct (_ && _); [| now apply IH].
    destruct (eta_of (body m)) as [eta |] eqn:Hb; [| discriminate].
    destruct (collect c inbox) as [ps' |]; simpl in H; [| discriminate].
    inversion H; subst. constructor; [exact Hb | now apply IH].
Qed.

Variable st : StationAgent.
Variable c : CNPManager.
Variable inbox : list Message.

(** C2.  With at least one proposal collected, each naming its vehicle,
    the session awards the earliest proposal of least ETA, sends one
    rejection [better_proposal_found] for each of the other proposals,
    tells the passenger the winning ETA and takes the passenger's first
    entry off the queue, leaving the rest of the queue as it stood. *)
Theorem negotiation_awards_minimum (proposals : list (Message * Z)) :
  collect c inbox = Ok proposals ->
  proposals <> [] ->
  Forall (fun x => vehicle_id_of (body (fst x)) <> None) proposals ->
  exists before winner after rejected o,
    proposals = before ++ winner :: after
    /\ Forall (fun x => snd winner < snd x) before
    /\ Forall (fun x => snd winner <= snd x) after
    /\ Permutation rejected (before ++ after)
    /\ run st c inbox = Ok o
    /\ sent o =
         broadcast_cfp st c
         ++ make_reply (fst winner) ACCEPT_PROPOSAL (passenger_id (passenger_jid c))
         :: map reject rejected
         ++ [create_message (jid st) (passenger_jid c) INFORM
                            (vehicle_found (snd winner)) None]
    /\ (In (passenger_jid c) (passenger_queue st) ->
        dequeued st (passenger_jid c) (station_after o))
    /\ (~ In (passenger_jid c) (passenger_queue st) -> station_after o = st).
Proof.
  intros Hcol Hne Hids.
  destruct (sort_by_eta_head proposals Hne) as (before & w & after & Hl & Hb & Ha & Hs).
  assert (Hw : exists v, vehicle_id_of (body (fst w)) = Some v).
  { rewrite List.Forall_forall in Hids. specialize (Hids w).
    destruct (vehicle_id_of (body (fst w))) as [v |]; [eauto |].
    exfalso. apply Hids; [| reflexivity]. rewrite Hl.
    apply in_or_app. right. now left. }
  destruct Hw as (v & Hw).
  exists before, w, after, (sort_by_eta (before ++ after)).
  unfold run. rewrite Hcol. simpl. unfold conclude. rewrite Hs.
  destruct w as [wm weta]. simpl in *. rewrite Hw.
  eexists. split; [exact Hl |]. split; [exact Hb |]. split; [exact Ha |].
  split; [apply sort_by_eta_perm |]. split; [reflexivity |].
  split; [reflexivity |]. simpl.
  destruct (list_mem (passenger_jid c) (passenger_queue st)) eqn:Hq.
  - apply list_mem_In in Hq. split; [| contradiction].
    intros _. now apply dequeue_dequeued.
  - split; [| reflexivity].
    intros Hin. apply list_mem_In in Hin. congruence.
Qed.

(** C6.  With no bid collected the session fails: a passenger still in the
    queue has the first entry taken off it, the rest of the queue staying
    as it stood, and is sent one refusal [no_vehicles_available]; a
    passenger who has left the queue is sent nothing. *)
Theorem negotiation_without_bids :
  collect c inbox = Ok [] ->
  exists o,
    run st c inbox = Ok o
    /\ metric o = NEGOTIATION_FAIL (location st) (destination c)
    /\ (In (passenger_jid c) (passenger_queue st) ->
        sent o = broadcast_cfp st c
                 ++ [create_message (jid st) (passenger_jid c) REFUSE
                                    (reason "no_vehicles_available") None]
        /\ dequeued st (passenger_jid c) (station_after o))
    /\ (~ In (passenger_jid c) (passenger_queue st) ->
        sent o = broadcast_cfp st c /\ station_after o = st).
Proof.
  intros Hcol. unfold run, conclude. rewrite Hcol. simpl.
  destruct (list_mem (passenger_jid c) (passenger_queue st)) eqn:Hq; simpl;
    eexists; (split; [reflexivity |]); simpl; (split; [reflexivity |]); split;
    intros Hin.
  - split; [reflexivity | now apply dequeue_dequeued].
  - apply list_mem_In in Hq. contradiction.
  - apply list_mem_In in Hin. congruence.
  - split; [apply app_nil_r | reflexivity].
Qed.

End Negotiation.

(** The session of the South station for the passenger who stands second
    in its queue: three proposals, bus_1 and bus_3 tied at 7. *)
Lemma negotiation_awards_minimum_witness :
  Station.collect Props.cnp_south Props.bids_south
  = Ok [ (Props.proposal "pedro_bus_2@jabb.im" 12, 12);
         (Props.proposal "pedro_bus_1@jabb.im" 7, 7);
         (Props.proposal "pedro_bus_3@jabb.im" 7, 7) ]
  /\ Forall (fun x : Ontology.Message * Z =>
               Station.vehicle_id_of (Ontology.body (fst x)) <> None)
       [ (Props.proposal "pedro_bus_2@jabb.im" 12, 12);
         (Props.proposal "pedro_bus_1@jabb.im" 7, 7);
         (Props.proposal "pedro_bus_3@jabb.im" 7, 7) ]
  /\ In (Station.passenger_jid Props.cnp_south)
        (Station.passenger_queue Props.st_south_waiting)
  /\ exists before winner after rejected o,
      [ (Props.proposal "pedro_bus_2@jabb.im" 12, 12);
        (Props.proposal "pedro_bus_1@jabb.im" 7, 7);
        (Props.proposal "pedro_bus_3@jabb.im" 7, 7) ]
      = before ++ winner :: after
      /\ Forall (fun x => snd winner < snd x) before
      /\ Forall (fun x => snd winner <= snd x) after
      /\ Permutation rejected (before ++ after)
      /\ Station.run Props.st_south_waiting Props.cnp_south Props.bids_south = Ok o
      /\ Station.sent o =
           Station.broadcast_cfp Props.st_south_waiting Props.cnp_south
           ++ Ontology.make_reply (fst winner) Ontology.ACCEPT_PROPOSAL
                (Ontology.passenger_id (Station.passenger_jid Props.cnp_south))
           :: map Props.reject rejected
           ++ [Ontology.create_message (Station.jid Props.st_south_waiting)
                 (Station.passenger_jid Props.cnp_south) Ontology.INFORM
                 (Ontology.vehicle_found (snd winner)) None]
      /\ (In (Station.passenger_jid Props.cnp_south)
             (Station.passenger_queue Props.st_south_waiting) ->
          Props.dequeued Props.st_south_waiting
            (Station.passenger_jid Props.cnp_south) (Station.station_after o))
      /\ (~ In (Station.passenger_jid Props.cnp_south)
               (Station.passenger_queue Props.st_south_waiting) ->
          Station.station_after o = Props.st_south_waiting).
Proof.
  split; [vm_compute; reflexivity |].
  assert (Hids : Forall (fun x : Ontology.Message * Z =>
                           Station.vehicle_id_of (Ontology.body (fst x)) <> None)
                   [ (Props.proposal "pedro_bus_2@jabb.im" 12, 12);
                     (Props.proposal "pedro_bus_1@jabb.im" 7, 7);
                     (Props.proposal "pedro_bus_3@jabb.im" 7, 7) ])
    by (repeat constructor; discriminate).
  split; [exact Hids |].
  split; [simpl; tauto |].
  apply (negotiation_awards_minimum Props.st_south_waiting Props.cnp_south
           Props.bids_south).
  - vm_compute; reflexivity.
  - discriminate.
  - exact Hids.
Defined.

(** The same session when every vehicle refused or stayed silent. *)
Lemma negotiation_without_bids_witness :
  Station.collect Props.cnp_south [] = Ok []
  /\ In (Station.passenger_jid Props.cnp_south)
        (Station.passenger_queue Props.st_south_waiting)
  /\ exists o,
      Station.run Props.st_south_waiting Props.cnp_south [] = Ok o
      /\ Station.metric o
         = Ontology.NEGOTIATION_FAIL (Station.location Props.st_south_waiting)
             (Station.destination Props.cnp_south)
      /\ (In (Station.passenger_jid Props.cnp_south)
             (Station.passenger_queue Props.st_south_waiting) ->
          Station.sent o
          = Station.broadcast_cfp Props.st_south_waiting Props.cnp_south
            ++ [Ontology.create_message (Station.jid Props.st_south_waiting)
                  (Station.passenger_jid Props.cnp_south) Ontology.REFUSE
                  (Ontology.reason "no_vehicles_available") None]
          /\ Props.dequeued Props.st_south_waiting
               (Station.passenger_jid Props.cnp_south) (Station.station_after o))
      /\ (~ In (Station.passenger_jid Props.cnp_south)
               (Station.passenger_queue Props.st_south_waiting) ->
          Station.sent o
          = Station.broadcast_cfp Props.st_south_waiting Props.cnp_south
          /\ Station.station_after o = Props.st_south_waiting).
Proof.
  split; [reflexivity |].
  split; [simpl; tauto |].
  apply (negotiation_without_bids Props.st_south_waiting Props.cnp_south []).
  reflexivity.
Defined.

(** The session of the witness, run: bus_1 and bus_3 tie at 7 and bus_1,
    heard first, wins. *)
Example south_session_outcome :
  match Station.run Props.st_south_waiting Props.cnp_south Props.bids_south with
  | Ok o =>
      map (fun m => (Ontology.to m, Ontology.performative m, Ontology.body m))
          (Station.sent o)
      = [ ("pedro_bus_1@jabb.im", Ontology.CFP, Ontology.ride_request "South" "Airport" 1);
          ("pedro_bus_2@jabb.im", Ontology.CFP, Ontology.ride_request "South" "Airport" 1);
          ("pedro_bus_3@jabb.im", Ontology.CFP, Ontology.ride_request "South" "Airport" 1);
          ("pedro_bus_1@jabb.im", Ontology.ACCEPT_PROPOSAL,
           Ontology.passenger_id "pedro_p_1@jabb.im");
          ("pedro_bus_3@jabb.im", Ontology.REJECT_PROPOSAL,
           Ontology.reason "better_proposal_found");
          ("pedro_bus_2@jabb.im", Ontology.REJECT_PROPOSAL,
           Ontology.reason "better_proposal_found");
          ("pedro_p_1@jabb.im", Ontology.INFORM, Ontology.vehicle_found 7) ]%string
      /\ Station.passenger_queue (Station.station_after o)
         = ["pedro_p_3@jabb.im"]%string
  | Raise _ => False
  end.
Proof. vm_compute. auto. Qed.

(** The same session with no bid: the passenger, second in the queue, is
    refused and leaves it; who stood before stays. *)
Example south_session_without_bids :
  match Station.run Props.st_south_waiting Props.cnp_south [] with
  | Ok o =>
      map (fun m => (Ontology.to m, Ontology.performative m, Ontology.body m))
          (Station.sent o)
      = [ ("pedro_bus_1@jabb.im", Ontology.CFP, Ontology.ride_request "South" "Airport" 1);
          ("pedro_bus_2@jabb.im", Ontology.CFP, Ontology.ride_request "South" "Airport" 1);
          ("pedro_bus_3@jabb.im", Ontology.CFP, Ontology.ride_request "South" "Airport" 1);
          ("pedro_p_1@jabb.im", Ontology.REFUSE,
           Ontology.reason "no_vehicles_available") ]%string
      /\ Station.passenger_queue (Station.station_after o)
         = ["pedro_p_3@jabb.im"]%string
  | Raise _ => False
  end.
Proof. vm_compute. auto. Qed.

(** ** The road network: traffic updates *)

Section Traffic.
Import CityMap Ontology Props.

Lemma find_edge_map (f : node * node * EdgeData -> node * node * EdgeData)
    (x y : node) (l : list (node * node * EdgeData)) :
  (forall e, fst (f e) = fst e) ->
  find (same_edge x y) (map f l) = option_map f (find (same_edge x y) l).
Proof.
  intros Hf. induction l as [| e l IH]; simpl; [reflexivity |].
  unfold same_edge at 1. rewrite Hf. fold (same_edge x y e).
  now destruct (same_edge x y e).
Qed.

Lemma retime_key (u v : node) (w : Z) (e : node * node * EdgeData) :
  fst (retime u v w e) = fst e.
Proof. unfold retime. now destruct (same_edge u v e). Qed.

Lemma edge_data_set_weight (g : CityGraph) (u v x y : node) (w : Z) :
  edge_data (set_weight g u v w) x y
  = option_map
      (fun d => if String.eqb x u && String.eqb y v
                then mkEdge w (base_weight d) (allowed_types d) else d)
      (edge_data g x y).
Proof.
  unfold edge_data, set_weight. simpl.
  change (map _ (edges g)) with (map (retime u v w) (edges g)).
  rewrite (find_edge_map (retime u v w) x y (edges g) (retime_key u v w)).
  destruct (find (same_edge x y) (edges g)) as [e |] eqn:Hfind; simpl;
    [| reflexivity].
  apply find_some in Hfind as [_ Hkey].
  unfold retime, same_edge in *.
  apply andb_prop in Hkey as [Hx Hy].
  apply String.eqb_eq in Hx, Hy. rewrite Hx, Hy.
  now destruct (String.eqb x u && String.eqb y v).
Qed.

Lemma edge_data_traffic_update (g : CityGraph) (u v x y : node) (w : Z) :
  edge_data (traffic_update g u v w) x y
  = option_map
      (fun d => if String.eqb x u && String.eqb y v
                then mkEdge w (base_weight d) (allowed_types d) else d)
      (edge_data g x y).
Proof.
  unfold traffic_update. destruct (has_edge g u v) eqn:Hedge.
  - apply edge_data_set_weight.
  - destruct (String.eqb_spec x u) as [-> |];
      [destruct (String.eqb_spec y v) as [-> |] |]; simpl.
    + unfold has_edge in Hedge. now destruct (edge_data g u v).
    + now destruct (edge_data g u y).
    + now destruct (edge_data g x y).
Qed.

(** A traffic update leaves the distance and the permitted classes of
    every edge alone, and creates or removes no edge. *)
Lemma traffic_update_frame (g : CityGraph) (u v x y : node) (w : Z) :
  option_map base_weight (edge_data (traffic_update g u v w) x y)
  = option_map base_weight (edge_data g x y)
  /\ option_map allowed_types (edge_data (traffic_update g u v w) x y)
     = option_map allowed_types (edge_data g x y).
Proof.
  rewrite edge_data_traffic_update.
  destruct (edge_data g x y) as [d |]; simpl; [| auto].
  now destruct (String.eqb x u && String.eqb y v).
Qed.

Lemma apply_updates_frame (us : list (node * node * Z)) :
  forall (g : CityGraph) (x y : node),
    option_map base_weight (edge_data (apply_updates g us) x y)
    = option_map base_weight (edge_data g x y)
    /\ option_map allowed_types (edge_data (apply_updates g us) x y)
       = option_map allowed_types (edge_data g x y).
Proof.
  induction us as [| [[u v] w] us IH]; intros g x y; simpl; [auto |].
  unfold apply_updates in *. simpl.
  destruct (IH (traffic_update g u v w) x y) as [-> ->].
  apply traffic_update_frame.
Qed.

Lemma sum_base_weights_frame (g g' : CityGraph) :
  (forall x y, option_map base_weight (edge_data g' x y)
               = option_map base_weight (edge_data g x y)) ->
  forall p, sum_base_weights g' p = sum_base_weights g p.
Proof.
  intros Hframe p. induction p as [| u [| v p] IH]; try reflexivity.
  change (sum_base_weights g' (u :: v :: p))
    with (match edge_data g' u v with
          | Some d =>
              rbind (sum_base_weights g' (v :: p))
                (fun t => Ok (match base_weight d with Some b => b | None => 10 end + t))
          | None => Raise KeyError
          end).
  change (sum_base_weights g (u :: v :: p))
    with (match edge_data g u v with
          | Some d =>
              rbind (sum_base_weights g (v :: p))
                (fun t => Ok (match base_weight d with Some b => b | None => 10 end + t))
          | None => Raise KeyError
          end).
  rewrite IH. specialize (Hframe u v).
  destruct (edge_data g' u v) as [d' |], (edge_data g u v) as [d |];
    simpl in Hframe; try discriminate; [| reflexivity].
  now inversion Hframe.
Qed.

(** C7.  Traffic updates rewrite the time cost only: after any sequence of
    updates every edge has the distance and the permitted classes it had,
    so the distance of any path is what it was, while the time of an
    updated edge is the new weight and the other edges keep theirs. *)
Theorem traffic_changes_time_only (g : CityGraph) (us : list (node * node * Z)) :
  (forall x y,
      option_map base_weight (edge_data (apply_updates g us) x y)
      = option_map base_weight (edge_data g x y)
      /\ option_map allowed_types (edge_data (apply_updates g us) x y)
         = option_map allowed_types (edge_data g x y))
  /\ (forall path,
        get_total_distance (apply_updates g us) path = get_total_distance g path)
  /\ (forall u v w,
        has_edge g u v = true ->
        option_map weight (edge_data (traffic_update g u v w) u v) = Some w
        /\ get_total_time (traffic_update g u v w) (Some [u; v]) = Ok w
        /\ forall x y, (x, y) <> (u, v) ->
             edge_data (traffic_update g u v w) x y = edge_data g x y).
Proof.
  split; [apply apply_updates_frame |]. split.
  - intros [p |]; [| reflexivity]. simpl.
    apply sum_base_weights_frame. intros x y. apply apply_updates_frame.
  - intros u v w Hedge.
    assert (Hnew : option_map weight (edge_data (traffic_update g u v w) u v)
                   = Some w).
    { rewrite edge_data_traffic_update. rewrite !String.eqb_refl. simpl.
      unfold has_edge in Hedge. now destruct (edge_data g u v). }
    split; [exact Hnew |]. split.
    + simpl. destruct (edge_data (traffic_update g u v w) u v) as [d |];
        simpl in *; [| discriminate].
      inversion Hnew. f_equal. lia.
    + intros x y Hxy. rewrite edge_data_traffic_update.
      destruct (String.eqb_spec x u) as [-> |];
        [destruct (String.eqb_spec y v) as [-> |] |]; simpl;
        try congruence; now destruct (edge_data g _ _).
Qed.

(** The traffic message of [run] applies exactly this update to the
    vehicle's own copy of the map and touches nothing else. *)
Lemma dispatch_traffic_update (a : Vehicle.VehicleAgent) (msg : Message)
    (u v : node) (w : Z) :
  performative msg = INFORM ->
  body msg = traffic_update_msg u v w ->
  Vehicle.dispatch msg a
  = Ok (tt, Vehicle.set_city_map (traffic_update (Vehicle.city_map a) u v w) a, []).
Proof.
  intros Hp Hb. unfold Vehicle.dispatch. now rewrite Hp, Hb.
Qed.

End Traffic.

(** The scenario of [test_map.py]: a jam on Central -> North. *)
Example test_map_traffic_not_distance :
  CityMap.get_total_time CityMap.create_sample_map (Some ["Central"; "North"]%string)
  = Ok 10
  /\ CityMap.get_total_time
       (CityMap.traffic_update CityMap.create_sample_map "Central" "North" 50)
       (Some ["Central"; "North"]%string) = Ok 50
  /\ CityMap.get_total_distance
       (CityMap.traffic_update CityMap.create_sample_map "Central" "North" 50)
       (Some ["Central"; "North"]%string) = Ok 10.
Proof. vm_compute. auto. Qed.
(** ** The road network: the class-filtered shortest path *)

Section Search.
Import CityMap Props.

Variable g : CityGraph.
Variable vehicle_type : string.

(** *** Dictionaries and the heap *)

Lemma assoc_cons (u v : node) (d : Z) (l : list (node * Z)) :
  assoc u ((v, d) :: l) = if String.eqb v u then Some d else assoc u l.
Proof. unfold assoc. simpl. now destruct (String.eqb v u). Qed.

Lemma path_to_cons (u v : node) (p : list node) (l : list (node * list node)) :
  path_to u ((v, p) :: l) = if String.eqb v u then Some p else path_to u l.
Proof. unfold path_to. simpl. now destruct (String.eqb v u). Qed.

Lemma assoc_In (u : node) (d : Z) (l : list (node * Z)) :
  assoc u l = Some d -> In (u, d) l.
Proof.
  unfold assoc.
  destruct (find (fun x => String.eqb (fst x) u) l) as [[k x] |] eqn:Hf;
    intros E; inversion E.
  apply find_some in Hf as [Hin Hk]. apply String.eqb_eq in Hk.
  simpl in *. now subst.
Qed.

Lemma pop_min_nil (l : list (Z * node)) : pop_min l = None -> l = [].
Proof.
  destruct l as [| a f]; simpl; [reflexivity |].
  destruct (pop_min f) as [[y r] |]; [| discriminate].
  now destruct (fst a <=? fst y).
Qed.

(** The popped entry comes from the heap, the rest is what remains, and
    no remaining entry is cheaper. *)
Lemma pop_min_some (l : list (Z * node)) :
  forall x rest,
    pop_min l = Some (x, rest) ->
    Permutation l (x :: rest)
    /\ Forall (fun e => fst x <= fst e) rest.
Proof.
  induction l as [| a f IH]; simpl; intros x rest H; [discriminate |].
  destruct (pop_min f) as [[y r] |] eqn:Hpop.
  - destruct (IH y r eq_refl) as [Hp Hall].
    destruct (Z.leb_spec (fst a) (fst y)) as [Hle | Hgt];
      inversion H; subst; clear H.
    + split; [reflexivity |].
      apply (Permutation_Forall (Permutation_sym Hp)).
      constructor; [exact Hle |].
      eapply List.Forall_impl; [| exact Hall]. simpl. intros; lia.
    + split; [rewrite Hp; apply perm_swap |].
      constructor; [lia | exact Hall].
  - inversion H; subst. apply pop_min_nil in Hpop. subst.
    split; [reflexivity | constructor].
Qed.

(** *** Edges of the view *)

Lemma edge_data_In (u v : node) (d : EdgeData) :
  edge_data g u v = Some d -> In (u, v, d) (edges g).
Proof.
  unfold edge_data.
  destruct (find (same_edge u v) (edges g)) as [[[a b] d'] |] eqn:Hf;
    intros E; inversion E; subst.
  apply find_some in Hf as [Hin Hk]. unfold same_edge in Hk. simpl in Hk.
  apply andb_prop in Hk as [Ha Hb]. apply String.eqb_eq in Ha, Hb. now subst.
Qed.

(** The filter of the code keeps exactly the edges of the view. *)
Lemma is_passable_spec (u v : node) :
  is_passable g vehicle_type u v = true <-> view_edge g vehicle_type u v.
Proof.
  unfold is_passable, view_edge. split.
  - destruct (edge_data g u v) as [d |]; [| discriminate].
    destruct (allowed_types d) as [l |] eqn:Hl; [| discriminate].
    intros H. apply existsb_exists in H as (x & Hx & E).
    apply String.eqb_eq in E. subst x. now exists d, l.
  - intros (d & l & -> & -> & Hin). apply existsb_exists.
    exists vehicle_type. split; [exact Hin | apply String.eqb_refl].
Qed.

Lemma neighs_sound (dir : bool) (v w : node) (c : Z) :
  In (w, c) (neighs g vehicle_type dir v) ->
  view_edge g vehicle_type (fst (edge_of dir v w)) (snd (edge_of dir v w))
  /\ exists d,
      edge_data g (fst (edge_of dir v w)) (snd (edge_of dir v w)) = Some d
      /\ c = weight d.
Proof.
  destruct dir; simpl; unfold view_pred, view_succ; rewrite in_flat_map;
    intros (u' & _ & Hin).
  - destruct (is_passable g vehicle_type u' v) eqn:Hpass; [| contradiction].
    destruct (edge_data g u' v) as [d |] eqn:Hd; [| contradiction].
    destruct Hin as [E | []]. inversion E; subst.
    split; [now apply is_passable_spec | eauto].
  - destruct (is_passable g vehicle_type v u') eqn:Hpass; [| contradiction].
    destruct (edge_data g v u') as [d |] eqn:Hd; [| contradiction].
    destruct Hin as [E | []]. inversion E; subst.
    split; [now apply is_passable_spec | eauto].
Qed.

Lemma neighs_complete (u v : node) (d : EdgeData) :
  view_edge g vehicle_type u v ->
  edge_data g u v = Some d ->
  In (v, weight d) (neighs g vehicle_type false u)
  /\ In (u, weight d) (neighs g vehicle_type true v).
Proof.
  intros Hedge Hd. apply is_passable_spec in Hedge.
  pose proof (edge_data_In _ _ _ Hd) as Hin.
  split; simpl; [unfold view_succ | unfold view_pred]; rewrite in_flat_map.
  - exists v. split.
    + unfold neighbours. apply in_map_iff. exists (u, v, d).
      split; [reflexivity |]. apply filter_In.
      split; [exact Hin | apply String.eqb_refl].
    + rewrite Hedge, Hd. now left.
  - exists u. split.
    + unfold predecessors. apply in_map_iff. exists (u, v, d).
      split; [reflexivity |]. apply filter_In.
      split; [exact Hin | apply String.eqb_refl].
    + rewrite Hedge, Hd. now left.
Qed.

(** A neighbour one way is a neighbour the other way, at the same cost. *)
Lemma neighs_transpose (dir : bool) (v w : node) (c : Z) :
  In (w, c) (neighs g vehicle_type dir v) ->
  In (v, c) (neighs g vehicle_type (negb dir) w).
Proof.
  intros H. destruct (neighs_sound _ _ _ _ H) as (Hedge & d & Hd & ->).
  destruct dir; simpl in Hedge, Hd;
    destruct (neighs_complete _ _ _ Hedge Hd) as [H1 H2]; assumption.
Qed.

Lemma neighs_length (dir : bool) (v : node) :
  (length (neighs g vehicle_type dir v)
   <= length (List.filter (fun x => String.eqb (tail_of dir x) v) (edges g)))%nat.
Proof.
  destruct dir; simpl; unfold view_pred, view_succ, predecessors, neighbours.
  - rewrite <- (length_map (fun x : node * node * EdgeData => fst (fst x))).
    induction (map _ _) as [| u l IH]; simpl; [lia |].
    rewrite length_app.
    destruct (is_passable g vehicle_type u v); [| simpl; lia].
    destruct (edge_data g u v); simpl; lia.
  - rewrite <- (length_map (fun x : node * node * EdgeData => snd (fst x))).
    induction (map _ _) as [| u l IH]; simpl; [lia |].
    rewrite length_app.
    destruct (is_passable g vehicle_type v u); [| simpl; lia].
    destruct (edge_data g v u); simpl; lia.
Qed.


(** *** Paths and routes *)

Hypothesis Hnonneg : nonneg_weights g = true.

Lemma neighs_nonneg (dir : bool) (v w : node) (c : Z) :
  In (w, c) (neighs g vehicle_type dir v) -> 0 <= c.
Proof.
  intros H. destruct (neighs_sound _ _ _ _ H) as (_ & d & Hd & ->).
  apply edge_data_In in Hd. unfold nonneg_weights in Hnonneg.
  rewrite forallb_forall in Hnonneg. specialize (Hnonneg _ Hd).
  simpl in Hnonneg. now apply Z.leb_le.
Qed.

Lemma route_nonneg (dir : bool) (root u : node) (p : list node) (d : Z) :
  route g vehicle_type dir root u p d -> 0 <= d.
Proof.
  induction 1 as [| v p d w c _ IH Hin]; [lia |].
  apply neighs_nonneg in Hin. lia.
Qed.

Lemma allowed_path_snoc (p : list node) (v u : node) :
  allowed_path g vehicle_type p ->
  last p = Some v ->
  view_edge g vehicle_type v u ->
  allowed_path g vehicle_type (p ++ [u]).
Proof.
  intros Hp Hlast Hedge. induction p as [| a [| b p] IH].
  - discriminate.
  - simpl in *. inversion Hlast; subst. auto.
  - destruct Hp as [Hab Hrest]. split; [exact Hab |]. now apply IH.
Qed.

Lemma connects_snoc (s v u : node) (p : list node) :
  connects s v p -> connects s u (p ++ [u]).
Proof.
  intros [Hh Hl]. split; [| apply last_snoc].
  destruct p; [discriminate | exact Hh].
Qed.

Lemma sum_weights_cons (a b : node) (p : list node) :
  sum_weights g (a :: b :: p)
  = match edge_data g a b with
    | Some d => rbind (sum_weights g (b :: p)) (fun t => Ok (weight d + t))
    | None => Raise KeyError
    end.
Proof. reflexivity. Qed.

Lemma sum_weights_snoc (p : list node) (v u : node) (d : EdgeData) :
  forall W,
    last p = Some v ->
    sum_weights g p = Ok W ->
    edge_data g v u = Some d ->
    sum_weights g (p ++ [u]) = Ok (W + weight d).
Proof.
  induction p as [| a [| b p] IH]; intros W Hlast Hsum Hd.
  - discriminate.
  - simpl in *. inversion Hlast; inversion Hsum; subst.
    rewrite Hd. simpl. f_equal. lia.
  - rewrite sum_weights_cons in Hsum.
    change ((a :: b :: p) ++ [u]) with (a :: b :: (p ++ [u])).
    rewrite sum_weights_cons.
    destruct (edge_data g a b) as [dab |]; [| discriminate].
    destruct (sum_weights g (b :: p)) as [W' |] eqn:Hsum'; [| discriminate].
    simpl in Hsum. inversion Hsum; subst.
    change (b :: p ++ [u]) with ((b :: p) ++ [u]).
    rewrite (IH W' Hlast eq_refl Hd). simpl. f_equal. lia.
Qed.

(** A forward route is a path of the view from the source, of that time. *)
Lemma route_forward (s u : node) (p : list node) (d : Z) :
  route g vehicle_type false s u p d ->
  connects s u p
  /\ allowed_path g vehicle_type p
  /\ sum_weights g p = Ok d.
Proof.
  induction 1 as [| v p d w c _ (Hc & Ha & Hs) Hin].
  - repeat split.
  - destruct (neighs_sound _ _ _ _ Hin) as (Hedge & e & He & ->).
    simpl in Hedge, He. split; [now apply (connects_snoc s v) |].
    split; [now apply (allowed_path_snoc p v w Ha (proj2 Hc)) |].
    now apply (sum_weights_snoc p v w e d (proj2 Hc)).
Qed.

(** A backward route, read from its end, is a path of the view to the
    target, of that time. *)
Lemma route_backward (t u : node) (p : list node) (d : Z) :
  route g vehicle_type true t u p d ->
  connects u t (rev p)
  /\ allowed_path g vehicle_type (rev p)
  /\ sum_weights g (rev p) = Ok d.
Proof.
  induction 1 as [| v p d w c _ (Hc & Ha & Hs) Hin].
  - repeat split.
  - destruct (neighs_sound _ _ _ _ Hin) as (Hedge & e & He & ->).
    simpl in Hedge, He. rewrite rev_unit.
    destruct Hc as [Hh Hl]. destruct (rev p) as [| v' r] eqn:Hr; [discriminate |].
    simpl in Hh. inversion Hh; subst v'.
    split; [split; [reflexivity | exact Hl] |].
    split; [split; assumption |].
    rewrite sum_weights_cons, He, Hs. simpl. f_equal. lia.
Qed.

(** Two paths that meet at [w] join into one. *)
Lemma join_paths (p0 : list node) :
  forall (s w t : node) (q : list node) (d0 d1 : Z),
    connects s w p0 -> connects w t q ->
    allowed_path g vehicle_type p0 -> allowed_path g vehicle_type q ->
    sum_weights g p0 = Ok d0 -> sum_weights g q = Ok d1 ->
    connects s t (p0 ++ tl q)
    /\ allowed_path g vehicle_type (p0 ++ tl q)
    /\ sum_weights g (p0 ++ tl q) = Ok (d0 + d1).
Proof.
  induction p0 as [| a [| b p0] IH]; intros s w t q d0 d1 [Hh0 Hl0] [Hhq Hlq]
    Ha0 Haq Hs0 Hsq.
  - discriminate.
  - simpl in Hh0, Hl0, Hs0. inversion Hh0; inversion Hl0; inversion Hs0; subst.
    destruct q as [| w' q]; [discriminate |]. simpl in Hhq. inversion Hhq; subst.
    simpl. repeat split; assumption.
  - simpl in Hh0. inversion Hh0; subst a. destruct Ha0 as [Hab Ha0].
    rewrite sum_weights_cons in Hs0.
    destruct (edge_data g s b) as [e |] eqn:He; [| discriminate].
    destruct (sum_weights g (b :: p0)) as [d0' |] eqn:Hs0'; [| discriminate].
    simpl in Hs0. inversion Hs0; subst d0.
    destruct (IH b w t q d0' d1 (conj eq_refl Hl0) (conj Hhq Hlq) Ha0 Haq
                eq_refl Hsq) as ((Hh & Hl) & Ha & Hs).
    change ((s :: b :: p0) ++ tl q) with (s :: (b :: p0) ++ tl q).
    change ((b :: p0) ++ tl q) with (b :: (p0 ++ tl q)) in *.
    split; [split; [reflexivity | exact Hl] |].
    split; [split; assumption |].
    rewrite sum_weights_cons, He, Hs. simpl. f_equal. lia.
Qed.

(** Any path of the view to the target is a backward route. *)
Lemma path_route_backward (t : node) (q : list node) :
  forall u W,
    connects u t q ->
    allowed_path g vehicle_type q ->
    sum_weights g q = Ok W ->
    route g vehicle_type true t u (rev q) W.
Proof.
  induction q as [| a [| b q] IH]; intros u W [Hh Hl] Ha Hs.
  - discriminate.
  - simpl in *. inversion Hh; inversion Hl; inversion Hs; subst. constructor.
  - simpl in Hh. inversion Hh; subst a. destruct Ha as [Hub Ha].
    rewrite sum_weights_cons in Hs.
    destruct (edge_data g u b) as [e |] eqn:He; [| discriminate].
    destruct (sum_weights g (b :: q)) as [W' |] eqn:Hs'; [| discriminate].
    simpl in Hs. inversion Hs; subst W.
    destruct (neighs_complete _ _ _ Hub He) as [_ Hin].
    change (rev (u :: b :: q)) with (rev (b :: q) ++ [u]).
    rewrite Z.add_comm.
    apply (route_step g vehicle_type true t b); [| exact Hin].
    apply IH; [split; [reflexivity | exact Hl] | exact Ha | reflexivity].
Qed.

Lemma view_edge_data (u v : node) :
  view_edge g vehicle_type u v -> exists d, edge_data g u v = Some d.
Proof. intros (d & l & Hd & _). eauto. Qed.

Lemma reachable_route (s u : node) :
  reachable g vehicle_type s u ->
  exists p d, route g vehicle_type false s u p d.
Proof.
  induction 1 as [| v w _ (p & d & Hr) Hedge].
  - exists [s], 0. constructor.
  - destruct (view_edge_data _ _ Hedge) as (e & He).
    destruct (neighs_complete _ _ _ Hedge He) as [Hin _].
    exists (p ++ [w]), (d + weight e). now apply (route_step _ _ _ _ v).
Qed.

Lemma reachable_route_backward (t u w : node) :
  reachable g vehicle_type u w ->
  forall p d,
    route g vehicle_type true t w p d ->
    exists p' d', route g vehicle_type true t u p' d'.
Proof.
  induction 1 as [| v w _ IH Hedge]; intros p d Hr; [eauto |].
  destruct (view_edge_data _ _ Hedge) as (e & He).
  destruct (neighs_complete _ _ _ Hedge He) as [_ Hin].
  apply (IH (p ++ [v]) (d + weight e)).
  now apply (route_step _ _ _ _ w).
Qed.

Lemma reachable_cons (s v t : node) :
  view_edge g vehicle_type s v ->
  reachable g vehicle_type v t ->
  reachable g vehicle_type s t.
Proof.
  intros Hedge. induction 1 as [| x w _ IH Hxw].
  - apply (reach_step _ _ _ s); [constructor | exact Hedge].
  - apply (reach_step _ _ _ x); assumption.
Qed.

Lemma path_reachable (p : list node) :
  forall s t,
    connects s t p -> allowed_path g vehicle_type p ->
    reachable g vehicle_type s t.
Proof.
  induction p as [| a [| b p] IH]; intros s t [Hh Hl] Ha.
  - discriminate.
  - simpl in *. inversion Hh; inversion Hl; subst. constructor.
  - simpl in Hh. inversion Hh; subst a. destruct Ha as [Hsb Ha].
    apply (reachable_cons s b); [exact Hsb |].
    apply IH; [split; [reflexivity | exact Hl] | exact Ha].
Qed.

(** *** One direction *)

Lemma side_with_side (dir : bool) (x : Side) (s : Search) :
  side dir (with_side dir x s) = x
  /\ side (negb dir) (with_side dir x s) = side (negb dir) s
  /\ final (with_side dir x s) = final s.
Proof. now destruct dir. Qed.

Lemma side_inv_done (dir : bool) (root v v' : node) (x : Side) :
  side_inv g vehicle_type dir root v [] x ->
  side_inv g vehicle_type dir root v' [] x.
Proof.
  intros [H1 H2 H3 H4 H5 H6 H7]. constructor; try assumption.
  intros u du w c Hu Hin. destruct (H7 u du w c Hu Hin) as [[_ []] | H]. now right.
Qed.

(** Whatever a route reaches is settled no later, or something at least as
    near is still in the heap. *)
Lemma within (dir : bool) (root v : node) (x : Side) :
  side_inv g vehicle_type dir root v [] x ->
  forall u p d,
    route g vehicle_type dir root u p d ->
    (exists du, assoc u (dists x) = Some du /\ du <= d)
    \/ (exists k w, In (k, w) (fringe x) /\ k <= d).
Proof.
  intros Hinv u p d Hroute.
  induction Hroute as [| v0 p d w c _ IH Hin].
  - destruct (si_root _ _ _ _ _ _ _ Hinv) as [(_ & Hf & _) | Hr].
    + right. exists 0, root. rewrite Hf. split; [now left | lia].
    + left. exists 0. split; [exact Hr | lia].
  - pose proof (neighs_nonneg _ _ _ _ Hin) as Hc.
    destruct IH as [(dv0 & Hv0 & Hle) | (k & w' & Hk & Hle)].
    + destruct (si_closed _ _ _ _ _ _ _ Hinv v0 dv0 w c Hv0 Hin)
        as [[_ []] | (e & He & Hle')].
      destruct (assoc w (dists x)) as [dw |] eqn:Hw.
      * left. exists dw. split; [reflexivity |].
        pose proof (si_dists _ _ _ _ _ _ _ Hinv w dw Hw) as Hs. rewrite He in Hs.
        inversion Hs; subst. lia.
      * right. exists e, w. split; [| lia].
        now apply (si_queued _ _ _ _ _ _ _ Hinv).
    + right. exists k, w'. split; [exact Hk | lia].
Qed.

(** A stale entry is dropped. *)
Lemma side_skip (dir : bool) (root v u : node) (x : Side) (dist du : Z)
    (rest : list (Z * node)) :
  side_inv g vehicle_type dir root v [] x ->
  pop_min (fringe x) = Some (dist, u, rest) ->
  assoc u (dists x) = Some du ->
  side_inv g vehicle_type dir root v []
    (mkSide (dists x) (paths x) rest (seen x)).
Proof.
  intros [H1 H2 H3 H4 H5 H6 H7] Hpop Hu.
  destruct (pop_min_some _ _ _ Hpop) as [Hperm _].
  assert (Hsub : forall e, In e rest -> In e (fringe x)).
  { intros e He. apply (Permutation_in _ (Permutation_sym Hperm)). now right. }
  constructor; cbn [dists paths fringe seen]; try assumption.
  - destruct H1 as [(Hd & _) | H1]; [| now right].
    rewrite Hd in Hu. discriminate.
  - intros k w Hin. apply H4. auto.
  - intros w d Hs Hw. pose proof (H5 w d Hs Hw) as Hin.
    apply (Permutation_in _ Hperm) in Hin. destruct Hin as [E | Hin]; [| exact Hin].
    inversion E; subst. congruence.
  - intros w d k w' Hw Hin. apply (H6 w d k w' Hw). auto.
Qed.

(** The entry of least distance is settled with the distance last seen
    for its node, which no settled distance exceeds. *)
Lemma side_settle (dir : bool) (root v u : node) (x : Side) (dist : Z)
    (rest : list (Z * node)) :
  side_inv g vehicle_type dir root v [] x ->
  pop_min (fringe x) = Some (dist, u, rest) ->
  assoc u (dists x) = None ->
  side_inv g vehicle_type dir root u (neighs g vehicle_type dir u)
    (mkSide ((u, dist) :: dists x) (paths x) rest (seen x))
  /\ assoc u (seen x) = Some dist
  /\ (forall w d, assoc w ((u, dist) :: dists x) = Some d -> d <= dist)
  /\ (forall k w, In (k, w) (fringe x) -> dist <= k).
Proof.
  intros [H1 H2 H3 H4 H5 H6 H7] Hpop Hu.
  destruct (pop_min_some _ _ _ Hpop) as [Hperm Hmin].
  rewrite List.Forall_forall in Hmin. simpl in Hmin.
  assert (Hsub : forall e, In e rest -> In e (fringe x)).
  { intros e He. apply (Permutation_in _ (Permutation_sym Hperm)). now right. }
  assert (Hhead : In (dist, u) (fringe x)).
  { apply (Permutation_in _ (Permutation_sym Hperm)). now left. }
  assert (Hleast : forall k w, In (k, w) (fringe x) -> dist <= k).
  { intros k w Hin. apply (Permutation_in _ Hperm) in Hin.
    destruct Hin as [E | Hin]; [inversion E; lia | apply (Hmin (k, w) Hin)]. }
  assert (Hseen : assoc u (seen x) = Some dist).
  { destruct (H4 _ _ Hhead) as (d & Hd & Hle).
    pose proof (Hleast _ _ (H5 u d Hd Hu)). rewrite Hd. f_equal. lia. }
  split; [| split; [exact Hseen | split; [| exact Hleast]]].
  - constructor; cbn [dists paths fringe seen].
    + right. destruct H1 as [(Hd & Hf & Hs) | H1].
      * rewrite Hf in Hhead. destruct Hhead as [E | []]. inversion E; subst.
        rewrite assoc_cons, String.eqb_refl. reflexivity.
      * rewrite assoc_cons. destruct (String.eqb_spec u root) as [-> |];
          [congruence | exact H1].
    + exact H2.
    + intros w d. rewrite assoc_cons.
      destruct (String.eqb_spec u w) as [<- |]; [| apply H3].
      intros E. inversion E; subst. exact Hseen.
    + intros k w Hin. apply H4. auto.
    + intros w d Hs. rewrite assoc_cons.
      destruct (String.eqb_spec u w) as [<- | Hne]; [discriminate |].
      intros Hw. pose proof (H5 w d Hs Hw) as Hin.
      apply (Permutation_in _ Hperm) in Hin. destruct Hin as [E | Hin]; [| exact Hin].
      inversion E; subst. contradiction.
    + intros w d k w'. rewrite assoc_cons.
      destruct (String.eqb_spec u w) as [<- |].
      * intros E Hin. inversion E; subst. apply (Hmin (k, w') Hin).
      * intros Hw Hin. apply (H6 w d k w' Hw). auto.
    + intros w dw w' c. rewrite assoc_cons.
      destruct (String.eqb_spec u w) as [<- |].
      * intros _ Hin. left. auto.
      * intros Hw Hin. destruct (H7 w dw w' c Hw Hin) as [[_ []] | H]. now right.
  - intros w d. rewrite assoc_cons.
    destruct (String.eqb_spec u w) as [<- |]; [intros E; inversion E; lia |].
    intros Hw. apply (H6 w d dist u Hw Hhead).
Qed.

(** A neighbour that is not pushed. *)
Lemma side_keep (dir : bool) (root v w : node) (c dv : Z)
    (pending : list (node * Z)) (x : Side) :
  side_inv g vehicle_type dir root v ((w, c) :: pending) x ->
  assoc v (dists x) = Some dv ->
  (exists d, assoc w (seen x) = Some d /\ d <= dv + c) ->
  side_inv g vehicle_type dir root v pending x.
Proof.
  intros [H1 H2 H3 H4 H5 H6 H7] Hv Hw. constructor; try assumption.
  intros u du w' c' Hu Hin.
  destruct (H7 u du w' c' Hu Hin) as [[-> [E | Hp]] | H]; [| now left | now right].
  inversion E; subst w' c'. right. rewrite Hv in Hu. inversion Hu; subst. exact Hw.
Qed.

(** A neighbour that is pushed. *)
Lemma side_push (dir : bool) (root v w : node) (c dv : Z) (p : list node)
    (pending : list (node * Z)) (x : Side) :
  side_inv g vehicle_type dir root v ((w, c) :: pending) x ->
  assoc v (dists x) = Some dv ->
  route g vehicle_type dir root v p dv ->
  (forall u d, assoc u (dists x) = Some d -> d <= dv) ->
  In (w, c) (neighs g vehicle_type dir v) ->
  assoc w (dists x) = None ->
  match assoc w (seen x) with
  | Some sw => dv + c <? sw
  | None => true
  end = true ->
  side_inv g vehicle_type dir root v pending
    (mkSide (dists x) ((w, p ++ [w]) :: paths x) (fringe x ++ [(dv + c, w)])
            ((w, dv + c) :: seen x)).
Proof.
  intros [H1 H2 H3 H4 H5 H6 H7] Hv Hroute Hmax Hin Hw Hless.
  pose proof (neighs_nonneg _ _ _ _ Hin) as Hc.
  assert (Hold : forall sw, assoc w (seen x) = Some sw -> dv + c < sw).
  { intros sw E. rewrite E in Hless. now apply Z.ltb_lt. }
  constructor; cbn [dists paths fringe seen].
  - right. destruct H1 as [(Hd & _) | H1]; [| exact H1].
    rewrite Hd in Hv. discriminate.
  - intros u d. rewrite assoc_cons, path_to_cons.
    destruct (String.eqb_spec w u) as [<- |]; [| apply H2].
    intros E. inversion E; subst. exists (p ++ [w]). split; [reflexivity |].
    now apply (route_step _ _ _ _ v).
  - intros u d Hu. rewrite assoc_cons.
    destruct (String.eqb_spec w u) as [<- |]; [congruence | now apply H3].
  - intros k u Hk. rewrite assoc_cons. apply in_app_or in Hk.
    destruct (String.eqb_spec w u) as [<- | Hne].
    + exists (dv + c). split; [reflexivity |].
      destruct Hk as [Hk | [E | []]]; [| inversion E; lia].
      destruct (H4 _ _ Hk) as (d & Hd & Hle). specialize (Hold _ Hd). lia.
    + destruct Hk as [Hk | [E | []]]; [now apply H4 |].
      inversion E; subst. contradiction.
  - intros u d. rewrite assoc_cons.
    destruct (String.eqb_spec w u) as [<- |].
    + intros E _. inversion E; subst. apply in_or_app. right. now left.
    + intros Hs Hu. apply in_or_app. left. now apply H5.
  - intros u d k w' Hu Hk. apply in_app_or in Hk.
    destruct Hk as [Hk | [E | []]]; [now apply (H6 u d k w') |].
    inversion E; subst. specialize (Hmax _ _ Hu). lia.
  - intros u du w' c' Hu Hin'.
    destruct (H7 u du w' c' Hu Hin') as [[-> [E | Hp]] | (d & Hd & Hle)].
    + inversion E; subst w' c'. right. exists (dv + c).
      rewrite assoc_cons, String.eqb_refl. split; [reflexivity |].
      rewrite Hv in Hu. inversion Hu; subst. lia.
    + now left.
    + right. rewrite assoc_cons.
      destruct (String.eqb_spec w w') as [<- |]; [| eauto].
      exists (dv + c). split; [reflexivity |]. specialize (Hold _ Hd). lia.
Qed.

(** *** Where the two directions meet *)

Variable source target : node.

Lemma final_test (s : Search) (total : Z) :
  meet_inv g vehicle_type source target s ->
  match final s with
  | Some (finaldist, _ :: _) => total <? finaldist
  | _ => true
  end = true ->
  forall finaldist finalpath,
    final s = Some (finaldist, finalpath) -> total < finaldist.
Proof.
  intros Hmeet Htest fd fp Hfinal. rewrite Hfinal in Htest.
  destruct (mi_final _ _ _ _ _ Hmeet fd fp Hfinal) as ([Hh _] & _).
  destruct fp; [discriminate | now apply Z.ltb_lt].
Qed.

Lemma final_kept (s : Search) (total : Z) :
  match final s with
  | Some (finaldist, _ :: _) => total <? finaldist
  | _ => true
  end = false ->
  exists finaldist finalpath,
    final s = Some (finaldist, finalpath) /\ finaldist <= total.
Proof.
  destruct (final s) as [[fd [| a fp]] |]; try discriminate.
  intros H. apply Z.ltb_ge in H. eauto.
Qed.

Lemma meet_push (dir : bool) (v w : node) (d : Z) (p : list node)
    (this' : Side) (s : Search) :
  meet_inv g vehicle_type source target s ->
  side_inv g vehicle_type (negb dir) (root_of source target (negb dir)) v []
    (side (negb dir) s) ->
  seen this' = (w, d) :: seen (side dir s) ->
  paths this' = (w, p) :: paths (side dir s) ->
  route g vehicle_type dir (root_of source target dir) w p d ->
  exists s',
    meet w (with_side dir this' s) = Ok s'
    /\ side dir s' = this'
    /\ side (negb dir) s' = side (negb dir) s
    /\ meet_inv g vehicle_type source target s'.
Proof.
  intros Hmeet Hother Hseen Hpaths Hroute.
  destruct dir; cbn [negb side with_side root_of] in *; unfold meet;
    cbn [forward backward final]; rewrite Hseen, Hpaths, assoc_cons, path_to_cons,
      String.eqb_refl.
  - (* backward *)
    destruct (assoc w (seen (forward s))) as [d0 |] eqn:Hw0.
    + destruct (si_paths _ _ _ _ _ _ _ Hother w d0 Hw0) as (p0 & Hp0 & Hr0).
      rewrite Hp0.
      destruct (route_forward _ _ _ _ Hr0) as (Hc0 & Ha0 & Hs0).
      destruct (route_backward _ _ _ _ Hroute) as (Hc1 & Ha1 & Hs1).
      destruct (match final s with
                | Some (finaldist, _ :: _) => d0 + d <? finaldist
                | _ => true
                end) eqn:Htest.
      * eexists. split; [reflexivity |]. split; [reflexivity |].
        split; [reflexivity |]. constructor; cbn [forward backward final].
        -- intros w' d0' d1'. rewrite Hseen, assoc_cons.
           destruct (String.eqb_spec w w') as [<- |].
           ++ intros E0 E1. rewrite Hw0 in E0. inversion E0; inversion E1; subst.
              eexists _, _. split; [reflexivity | lia].
           ++ intros E0 E1.
              destruct (mi_meet _ _ _ _ _ Hmeet w' d0' d1' E0 E1)
                as (fd & fp & Hf & Hle).
              pose proof (final_test s _ Hmeet Htest fd fp Hf).
              eexists _, _. split; [reflexivity | lia].
        -- intros fd fp E. inversion E; subst.
           apply (join_paths p0 source w target (rev p) d0 d); assumption.
      * destruct (final_kept s _ Htest) as (fd & fp & Hf & Hle).
        eexists. split; [reflexivity |]. split; [reflexivity |].
        split; [reflexivity |]. constructor; cbn [forward backward final].
        -- intros w' d0' d1'. rewrite Hseen, assoc_cons.
           destruct (String.eqb_spec w w') as [<- |].
           ++ intros E0 E1. rewrite Hw0 in E0. inversion E0; inversion E1; subst.
              exists fd, fp. split; [exact Hf | lia].
           ++ apply (mi_meet _ _ _ _ _ Hmeet).
        -- apply (mi_final _ _ _ _ _ Hmeet).
    + eexists. split; [reflexivity |]. split; [reflexivity |].
      split; [reflexivity |]. constructor; cbn [forward backward final].
      * intros w' d0' d1'. rewrite Hseen, assoc_cons.
        destruct (String.eqb_spec w w') as [<- |]; [congruence |].
        apply (mi_meet _ _ _ _ _ Hmeet).
      * apply (mi_final _ _ _ _ _ Hmeet).
  - (* forward *)
    destruct (assoc w (seen (backward s))) as [d1 |] eqn:Hw1.
    + destruct (si_paths _ _ _ _ _ _ _ Hother w d1 Hw1) as (p1 & Hp1 & Hr1).
      rewrite Hp1.
      destruct (route_forward _ _ _ _ Hroute) as (Hc0 & Ha0 & Hs0).
      destruct (route_backward _ _ _ _ Hr1) as (Hc1 & Ha1 & Hs1).
      destruct (match final s with
                | Some (finaldist, _ :: _) => d + d1 <? finaldist
                | _ => true
                end) eqn:Htest.
      * eexists. split; [reflexivity |]. split; [reflexivity |].
        split; [reflexivity |]. constructor; cbn [forward backward final].
        -- intros w' d0' d1'. rewrite Hseen, assoc_cons.
           destruct (String.eqb_spec w w') as [<- |].
           ++ intros E0 E1. rewrite Hw1 in E1. inversion E0; inversion E1; subst.
              eexists _, _. split; [reflexivity | lia].
           ++ intros E0 E1.
              destruct (mi_meet _ _ _ _ _ Hmeet w' d0' d1' E0 E1)
                as (fd & fp & Hf & Hle).
              pose proof (final_test s _ Hmeet Htest fd fp Hf).
              eexists _, _. split; [reflexivity | lia].
        -- intros fd fp E. inversion E; subst.
           apply (join_paths p source w target (rev p1) d d1); assumption.
      * destruct (final_kept s _ Htest) as (fd & fp & Hf & Hle).
        eexists. split; [reflexivity |]. split; [reflexivity |].
        split; [reflexivity |]. constructor; cbn [forward backward final].
        -- intros w' d0' d1'. rewrite Hseen, assoc_cons.
           destruct (String.eqb_spec w w') as [<- |].
           ++ intros E0 E1. rewrite Hw1 in E1. inversion E0; inversion E1; subst.
              exists fd, fp. split; [exact Hf | lia].
           ++ apply (mi_meet _ _ _ _ _ Hmeet).
        -- apply (mi_final _ _ _ _ _ Hmeet).
    + eexists. split; [reflexivity |]. split; [reflexivity |].
      split; [reflexivity |]. constructor; cbn [forward backward final].
      * intros w' d0' d1'. rewrite Hseen, assoc_cons.
        destruct (String.eqb_spec w w') as [<- |]; [congruence |].
        apply (mi_meet _ _ _ _ _ Hmeet).
      * apply (mi_final _ _ _ _ _ Hmeet).
Qed.

(** *** The loop over the neighbours *)

Lemma relax_spec (dir : bool) (v : node) (dv : Z) (p : list node) :
  route g vehicle_type dir (root_of source target dir) v p dv ->
  forall pending s,
    side_inv g vehicle_type dir (root_of source target dir) v pending (side dir s) ->
    side_inv g vehicle_type (negb dir) (root_of source target (negb dir)) v []
      (side (negb dir) s) ->
    meet_inv g vehicle_type source target s ->
    assoc v (dists (side dir s)) = Some dv ->
    (forall u d, assoc u (dists (side dir s)) = Some d -> d <= dv) ->
    (forall w c, In (w, c) pending -> In (w, c) (neighs g vehicle_type dir v)) ->
    exists s',
      relax dir dv (Some p) pending s = Ok s'
      /\ side_inv g vehicle_type dir (root_of source target dir) v [] (side dir s')
      /\ side (negb dir) s' = side (negb dir) s
      /\ meet_inv g vehicle_type source target s'
      /\ dists (side dir s') = dists (side dir s)
      /\ (length (fringe (side dir s'))
          <= length (fringe (side dir s)) + length pending)%nat.
Proof.
  intros Hroute pending.
  induction pending as [| [w c] pending IH];
    intros s Hthis Hother Hmeet Hv Hmax Hsub.
  - exists s. split; [reflexivity |]. split; [exact Hthis |].
    split; [reflexivity |]. split; [exact Hmeet |]. split; [reflexivity |].
    simpl. lia.
  - assert (Hin : In (w, c) (neighs g vehicle_type dir v)) by (apply Hsub; now left).
    assert (Hsub' : forall w' c', In (w', c') pending ->
                                  In (w', c') (neighs g vehicle_type dir v))
      by (intros; apply Hsub; now right).
    pose proof (neighs_nonneg _ _ _ _ Hin) as Hc.
    cbn [relax]. cbv zeta.
    destruct (assoc w (dists (side dir s))) as [dw |] eqn:Hw.
    { (* settled already *)
      pose proof (Hmax _ _ Hw) as Hle.
      destruct (Z.ltb_spec (dv + c) dw) as [Hlt | _]; [lia |].
      destruct (IH s) as (s' & Hrun & H1 & H2 & H3 & H4 & H5); try assumption.
      - apply (side_keep dir _ v w c dv pending _ Hthis Hv).
        exists dw. split; [| lia]. now apply (si_dists _ _ _ _ _ _ _ Hthis).
      - exists s'. split; [exact Hrun |]. split; [exact H1 |].
        split; [exact H2 |]. split; [exact H3 |]. split; [exact H4 |].
        simpl. lia. }
    destruct (match assoc w (seen (side dir s)) with
              | Some sw => dv + c <? sw
              | None => true
              end) eqn:Hless.
    + (* pushed *)
      pose proof (side_push dir _ v w c dv p pending _ Hthis Hv Hroute Hmax Hin Hw
                    Hless) as Hthis'.
      destruct (meet_push dir v w (dv + c) (p ++ [w])
                  (mkSide (dists (side dir s)) ((w, p ++ [w]) :: paths (side dir s))
                          (fringe (side dir s) ++ [(dv + c, w)])
                          ((w, dv + c) :: seen (side dir s)))
                  s Hmeet Hother eq_refl eq_refl)
        as (s1 & Hrun1 & Hs1 & Ho1 & Hmeet1).
      { now apply (route_step _ _ _ _ v). }
      rewrite Hrun1.
      destruct (IH s1) as (s' & Hrun & H1 & H2 & H3 & H4 & H5).
      * rewrite Hs1. exact Hthis'.
      * rewrite Ho1. exact Hother.
      * exact Hmeet1.
      * rewrite Hs1. exact Hv.
      * rewrite Hs1. exact Hmax.
      * exact Hsub'.
      * exists s'. split; [exact Hrun |]. split; [exact H1 |].
        split; [now rewrite H2 |]. split; [exact H3 |].
        split; [now rewrite H4, Hs1 |].
        rewrite Hs1 in H5. cbn [fringe] in H5. rewrite length_app in H5.
        simpl in *. lia.
    + (* seen no farther *)
      destruct (assoc w (seen (side dir s))) as [sw |] eqn:Hs; [| discriminate].
      apply Z.ltb_ge in Hless.
      destruct (IH s) as (s' & Hrun & H1 & H2 & H3 & H4 & H5); try assumption.
      * apply (side_keep dir _ v w c dv pending _ Hthis Hv). eauto.
      * exists s'. split; [exact Hrun |]. split; [exact H1 |].
        split; [exact H2 |]. split; [exact H3 |]. split; [exact H4 |].
        simpl. lia.
Qed.

(** *** The invariant of the loop, direction by direction *)

Hypothesis Hdistinct : source <> target.

Lemma inv_side (dir0 d : bool) (s : Search) :
  search_inv g vehicle_type source target dir0 s ->
  side_inv g vehicle_type d (root_of source target d) (root_of source target d) []
    (side d s).
Proof. intros []. now destruct d. Qed.

Lemma inv_disjoint_side (dir0 d : bool) (s : Search) (u : node) :
  search_inv g vehicle_type source target dir0 s ->
  assoc u (dists (side d s)) <> None ->
  assoc u (dists (side (negb d) s)) = None.
Proof.
  intros Hinv Hu. pose proof (inv_disjoint _ _ _ _ _ _ Hinv u) as Hd.
  destruct d; cbn [side negb] in *; [| auto].
  destruct (assoc u (dists (forward s))); [| reflexivity].
  exfalso. apply Hu, Hd. discriminate.
Qed.

Lemma inv_of_sides (dir0 d : bool) (s : Search) :
  side_inv g vehicle_type d (root_of source target d) (root_of source target d) []
    (side d s) ->
  side_inv g vehicle_type (negb d) (root_of source target (negb d))
    (root_of source target (negb d)) [] (side (negb d) s) ->
  meet_inv g vehicle_type source target s ->
  (forall u, assoc u (dists (side d s)) <> None ->
             assoc u (dists (side (negb d) s)) = None) ->
  phase source target dir0 s ->
  search_inv g vehicle_type source target dir0 s.
Proof.
  intros H1 H2 H3 H4 H5. destruct d; cbn [side negb root_of] in *;
    constructor; try assumption.
  intros u Hu. destruct (assoc u (dists (backward s))) eqn:E; [| reflexivity].
  exfalso. apply Hu, H4. congruence.
Qed.

Lemma meet_inv_same (s s' : Search) :
  meet_inv g vehicle_type source target s ->
  seen (forward s') = seen (forward s) ->
  seen (backward s') = seen (backward s) ->
  final s' = final s ->
  meet_inv g vehicle_type source target s'.
Proof.
  intros [H1 H2] E0 E1 Ef. constructor; rewrite ?E0, ?E1, ?Ef; assumption.
Qed.

Lemma pops_left_side (d : bool) (s : Search) :
  pops_left g s
  = (length (fringe (side d s)) + pushes_left g d (side d s)
     + (length (fringe (side (negb d) s))
        + pushes_left g (negb d) (side (negb d) s)))%nat.
Proof. unfold pops_left. destruct d; cbn [side negb]; lia. Qed.

Lemma unsettled_split (d : bool) (dist : list (node * Z)) (v : node) (dv : Z)
    (E : list (node * node * EdgeData)) :
  assoc v dist = None ->
  length (List.filter (fun x => negb (is_settled d dist x)) E)
  = (length (List.filter (fun x => negb (is_settled d ((v, dv) :: dist) x)) E)
     + length (List.filter (fun x => String.eqb (tail_of d x) v) E))%nat.
Proof.
  intros Hv. induction E as [| a E IH]; simpl; [reflexivity |].
  unfold is_settled in *. rewrite assoc_cons. rewrite (String.eqb_sym v).
  destruct (String.eqb_spec (tail_of d a) v) as [Heq | Hne].
  - rewrite Heq, Hv. simpl. lia.
  - destruct (assoc (tail_of d a) dist); simpl; lia.
Qed.

(** *** Leaving the loop *)

(** With a heap empty, the target cannot be reached. *)
Lemma exhausted_unreachable (dir0 : bool) (s : Search) :
  search_inv g vehicle_type source target dir0 s ->
  fringe (forward s) = [] \/ fringe (backward s) = [] ->
  ~ reachable g vehicle_type source target.
Proof.
  intros Hinv Hempty Hreach.
  pose proof (inv_phase _ _ _ _ _ _ Hinv) as Hphase.
  destruct Hempty as [Hf | Hb].
  - destruct (reachable_route _ _ Hreach) as (p & d & Hroute).
    destruct (within false source source _ (inv_forward _ _ _ _ _ _ Hinv) _ _ _ Hroute)
      as [(dt & Ht & _) | (k & w & Hin & _)]; [| rewrite Hf in Hin; contradiction].
    destruct Hphase as [(E & _) | [(E & _) | (_ & Htarget)]].
    + rewrite E in Hf. discriminate.
    + rewrite E, assoc_cons in Ht.
      destruct (String.eqb_spec source target); [contradiction | discriminate].
    + apply Htarget. apply (inv_disjoint _ _ _ _ _ _ Hinv). congruence.
  - destruct (reachable_route_backward target _ _ Hreach [target] 0)
      as (p & d & Hroute); [constructor |].
    destruct (within true target target _ (inv_backward _ _ _ _ _ _ Hinv) _ _ _ Hroute)
      as [(ds & Hs & _) | (k & w & Hin & _)]; [| rewrite Hb in Hin; contradiction].
    destruct Hphase as [(_ & E & _) | [(_ & E & _) | (Hsource & _)]].
    + rewrite E in Hb. discriminate.
    + rewrite E in Hb. discriminate.
    + pose proof (inv_disjoint _ _ _ _ _ _ Hinv source Hsource). congruence.
Qed.

(** With a node settled from both ends, no path of the view is shorter
    than the one found. *)
Lemma meet_bound (dir0 : bool) (s : Search) (F B finaldist : Z)
    (finalpath : list node) :
  search_inv g vehicle_type source target dir0 s ->
  final s = Some (finaldist, finalpath) ->
  (forall k w, In (k, w) (fringe (forward s)) -> F <= k) ->
  (forall k w, In (k, w) (fringe (backward s)) -> B <= k) ->
  finaldist <= F + B ->
  forall u pu b,
    route g vehicle_type true target u pu b ->
    forall da a,
      assoc u (dists (forward s)) = Some da -> da <= a ->
      finaldist <= a + b.
Proof.
  intros Hinv Hfinal HF HB Hsum.
  pose proof (inv_forward _ _ _ _ _ _ Hinv) as Hf.
  pose proof (inv_backward _ _ _ _ _ _ Hinv) as Hb.
  pose proof (inv_meet _ _ _ _ _ _ Hinv) as Hmeet.
  assert (Hboth : forall w d0 d1,
             assoc w (seen (forward s)) = Some d0 ->
             assoc w (seen (backward s)) = Some d1 ->
             finaldist <= d0 + d1).
  { intros w d0 d1 E0 E1.
    destruct (mi_meet _ _ _ _ _ Hmeet w d0 d1 E0 E1) as (fd & fp & E & Hle).
    rewrite Hfinal in E. inversion E; subst. exact Hle. }
  intros u pu b Hroute.
  induction Hroute as [| x' p b' x c Hroute' IH Hin]; intros da a Hu Hle.
  - (* the target itself *)
    assert (Ht : assoc target (seen (backward s)) = Some 0).
    { destruct (si_root _ _ _ _ _ _ _ Hb) as [(_ & _ & E) | E].
      - rewrite E, assoc_cons, String.eqb_refl. reflexivity.
      - now apply (si_dists _ _ _ _ _ _ _ Hb). }
    pose proof (Hboth target da 0 (si_dists _ _ _ _ _ _ _ Hf _ _ Hu) Ht). lia.
  - (* the edge from [x] to [x'] *)
    pose proof (neighs_transpose true x' x c Hin) as Hin'. cbn [negb] in Hin'.
    destruct (si_closed _ _ _ _ _ _ _ Hf x da x' c Hu Hin')
      as [[_ []] | (e & He & Hle')].
    destruct (assoc x' (dists (forward s))) as [dx' |] eqn:Hx'.
    + pose proof (si_dists _ _ _ _ _ _ _ Hf _ _ Hx') as E. rewrite He in E.
      inversion E; subst. specialize (IH dx' (a + c) eq_refl). lia.
    + pose proof (si_queued _ _ _ _ _ _ _ Hf _ _ He Hx') as Hq.
      specialize (HF _ _ Hq).
      destruct (within true target target _ Hb _ _ _ Hroute')
        as [(du & Hdu & Hle'') | (k & w & Hk & Hle'')].
      * pose proof (Hboth x' e du He (si_dists _ _ _ _ _ _ _ Hb _ _ Hdu)). lia.
      * specialize (HB _ _ Hk). lia.
Qed.

(** *** The [while] loop *)

Lemma pop_start (root v : node) (dist : Z) (rest : list (Z * node)) :
  pop_min (fringe (start root)) = Some (dist, v, rest) ->
  dist = 0 /\ v = root /\ rest = [].
Proof. simpl. intros E. inversion E. auto. Qed.

Lemma phase_settled (dir0 : bool) (s : Search) (u : node) (du : Z) :
  search_inv g vehicle_type source target dir0 s ->
  assoc u (dists (side (negb dir0) s)) = Some du ->
  assoc source (dists (forward s)) = Some 0
  /\ assoc target (dists (backward s)) = Some 0.
Proof.
  intros Hinv Hu.
  destruct (inv_phase _ _ _ _ _ _ Hinv) as [(E0 & E1 & ->) | [(E0 & E1 & ->) | (Hs & Ht)]].
  - cbn [negb side] in Hu. rewrite E0 in Hu. discriminate.
  - cbn [negb side] in Hu. rewrite E1 in Hu. discriminate.
  - split.
    + destruct (si_root _ _ _ _ _ _ _ (inv_forward _ _ _ _ _ _ Hinv))
        as [(E & _) | E]; [| exact E].
      rewrite E in Hs. now contradiction Hs.
    + destruct (si_root _ _ _ _ _ _ _ (inv_backward _ _ _ _ _ _ Hinv))
        as [(E & _) | E]; [| exact E].
      rewrite E in Ht. now contradiction Ht.
Qed.

Lemma search_loop_spec (fuel : nat) :
  forall dir s,
    search_inv g vehicle_type source target dir s ->
    (pops_left g s < fuel)%nat ->
    (exists p W,
        search_loop fuel g vehicle_type dir s = Ok (Some p)
        /\ connects source target p
        /\ allowed_path g vehicle_type p
        /\ sum_weights g p = Ok W
        /\ forall q W',
            connects source target q -> allowed_path g vehicle_type q ->
            sum_weights g q = Ok W' -> W <= W')
    \/ (search_loop fuel g vehicle_type dir s = Ok None
        /\ ~ reachable g vehicle_type source target).
Proof.
  induction fuel as [| fuel IH]; intros dir s Hinv Hfuel; [lia |].
  cbn [search_loop].
  destruct (fringe (forward s)) as [| e0 f0] eqn:Ef.
  { right. split; [reflexivity |].
    apply (exhausted_unreachable dir s Hinv). now left. }
  destruct (fringe (backward s)) as [| e1 f1] eqn:Eb.
  { right. split; [reflexivity |].
    apply (exhausted_unreachable dir s Hinv). now right. }
  cbv zeta.
  pose proof (inv_side dir (negb dir) s Hinv) as Hthis.
  pose proof (inv_side dir (negb (negb dir)) s Hinv) as Hother.
  pose proof (inv_meet _ _ _ _ _ _ Hinv) as Hmeet.
  remember (negb dir) as d eqn:Hd.
  destruct (pop_min (fringe (side d s))) as [[[dist v] rest] |] eqn:Hpop.
  2:{ apply pop_min_nil in Hpop. destruct d; cbn [side] in Hpop; congruence. }
  assert (Hlen : length (fringe (side d s)) = S (length rest)).
  { destruct (pop_min_some _ _ _ Hpop) as [Hperm _].
    apply Permutation_length in Hperm. exact Hperm. }
  rewrite (pops_left_side d s) in Hfuel.
  destruct (assoc v (dists (side d s))) as [du |] eqn:Hv.
  - (* a stale entry *)
    pose proof (phase_settled dir s v du Hinv) as Hroots.
    rewrite <- Hd in Hroots. destruct (Hroots Hv) as [Hsrc Htgt].
    destruct (side_with_side d
                (mkSide (dists (side d s)) (paths (side d s)) rest (seen (side d s))) s)
      as (Hs1 & Hs2 & Hs3).
    apply IH.
    + apply (inv_of_sides d d).
      * rewrite Hs1. apply (side_skip d _ _ v _ dist du rest Hthis Hpop Hv).
      * rewrite Hs2. exact Hother.
      * apply (meet_inv_same s _ Hmeet); [| | exact Hs3];
          destruct d; reflexivity.
      * rewrite Hs1, Hs2. cbn [dists]. intros u. apply (inv_disjoint_side dir d s u Hinv).
      * right; right. destruct d; cbn [with_side forward backward dists side];
          split; congruence.
    + rewrite (pops_left_side d), Hs1, Hs2. unfold pushes_left in *.
      cbn [fringe dists]. lia.
  - (* the entry is settled *)
    destruct (side_settle d _ _ v _ dist rest Hthis Hpop Hv)
      as (Hset & Hseen & Hmax & Hleast).
    destruct (side_with_side d
                (mkSide ((v, dist) :: dists (side d s)) (paths (side d s)) rest
                        (seen (side d s))) s)
      as (Hs1 & Hs2 & Hs3).
    rewrite Hs2, Hs3.
    destruct (assoc v (dists (side (negb d) s))) as [dvo |] eqn:Hvo.
    + (* settled from both ends: the search returns *)
      pose proof (si_dists _ _ _ _ _ _ _ Hother _ _ Hvo) as Hseeno.
      assert (Hroots : assoc source (dists (forward s)) = Some 0).
      { destruct (inv_phase _ _ _ _ _ _ Hinv)
          as [(E0 & E1 & ->) | [(E0 & E1 & ->) | (Hs & Ht)]].
        - subst d. cbn [negb side] in Hvo. rewrite E1 in Hvo. discriminate.
        - subst d. cbn [negb side] in Hvo, Hpop. rewrite E1 in Hpop.
          destruct (pop_start _ _ _ _ Hpop) as (_ & -> & _).
          rewrite E0, assoc_cons in Hvo.
          destruct (String.eqb_spec source target); [contradiction | discriminate].
        - destruct (si_root _ _ _ _ _ _ _ (inv_forward _ _ _ _ _ _ Hinv))
            as [(E & _) | E]; [| exact E].
          rewrite E in Hs. now contradiction Hs. }
      assert (Hfinal : exists fd fp F B,
                 final s = Some (fd, fp) /\ fd <= F + B
                 /\ (forall k w, In (k, w) (fringe (forward s)) -> F <= k)
                 /\ (forall k w, In (k, w) (fringe (backward s)) -> B <= k)).
      { clear Hd. destruct d; cbn [side negb] in *.
        - destruct (mi_meet _ _ _ _ _ Hmeet v dvo dist Hseeno Hseen)
            as (fd & fp & Hf & Hle).
          exists fd, fp, dvo, dist. split; [exact Hf |]. split; [exact Hle |].
          split; [| exact Hleast].
          intros k w Hin. apply (si_mono _ _ _ _ _ _ _ Hother v dvo k w Hvo Hin).
        - destruct (mi_meet _ _ _ _ _ Hmeet v dist dvo Hseen Hseeno)
            as (fd & fp & Hf & Hle).
          exists fd, fp, dist, dvo. split; [exact Hf |]. split; [exact Hle |].
          split; [exact Hleast |].
          intros k w Hin. apply (si_mono _ _ _ _ _ _ _ Hother v dvo k w Hvo Hin). }
      destruct Hfinal as (fd & fp & F & B & Hf & Hle & HF & HB).
      rewrite Hf. left. exists fp, fd. split; [reflexivity |].
      destruct (mi_final _ _ _ _ _ Hmeet fd fp Hf) as (Hc & Ha & Hs).
      split; [exact Hc |]. split; [exact Ha |]. split; [exact Hs |].
      intros q W' Hq Haq Hsq.
      pose proof (path_route_backward target q source W' Hq Haq Hsq) as Hr.
      pose proof (meet_bound dir s F B fd fp Hinv Hf HF HB Hle source (rev q) W' Hr
                    0 0 Hroots) as Hb.
      lia.
    + (* the neighbours are relaxed *)
      destruct (si_paths _ _ _ _ _ _ _ Hthis v dist Hseen) as (p & Hp & Hroute).
      rewrite Hp.
      destruct (relax_spec d v dist p Hroute (neighs g vehicle_type d v)
                  (with_side d
                     (mkSide ((v, dist) :: dists (side d s)) (paths (side d s)) rest
                             (seen (side d s))) s))
        as (s2 & Hrun & H1 & H2 & H3 & H4 & H5).
      * rewrite Hs1. exact Hset.
      * rewrite Hs2. apply (side_inv_done _ _ _ _ _ Hother).
      * apply (meet_inv_same s _ Hmeet); [| | exact Hs3];
          destruct d; reflexivity.
      * rewrite Hs1. cbn [dists]. rewrite assoc_cons, String.eqb_refl. reflexivity.
      * rewrite Hs1. exact Hmax.
      * auto.
      * rewrite Hrun. rewrite Hs1 in H4, H5. rewrite Hs2 in H2.
        cbn [dists fringe] in H4, H5.
        apply IH.
        -- apply (inv_of_sides d d).
           ++ apply (side_inv_done _ _ v). exact H1.
           ++ rewrite H2. exact Hother.
           ++ exact H3.
           ++ rewrite H4, H2. intros u. rewrite assoc_cons.
              destruct (String.eqb_spec v u) as [<- |];
                [intros _; exact Hvo | apply (inv_disjoint_side dir d s u Hinv)].
           ++ destruct (inv_phase _ _ _ _ _ _ Hinv)
                as [(E0 & E1 & ->) | [(E0 & E1 & ->) | (Hs & Ht)]].
              ** subst d. cbn [negb side] in *. rewrite E0 in Hpop, H4.
                 destruct (pop_start _ _ _ _ Hpop) as (-> & -> & _).
                 right; left. split; [exact H4 |]. split; [congruence | reflexivity].
              ** subst d. cbn [negb side] in *. rewrite E1 in Hpop, H4.
                 destruct (pop_start _ _ _ _ Hpop) as (-> & -> & _).
                 right; right. rewrite H2, H4, E0. cbn [start dists].
                 rewrite !assoc_cons, !String.eqb_refl. split; discriminate.
              ** right; right. clear Hd. destruct d; cbn [negb side] in *;
                   rewrite H2, H4, assoc_cons;
                   (split; [| try assumption]; try assumption);
                   destruct (String.eqb v _); try discriminate; assumption.
        -- rewrite (pops_left_side d), H2. unfold pushes_left in *. rewrite H4.
           pose proof (unsettled_split d (dists (side d s)) v dist (edges g) Hv).
           pose proof (neighs_length d v). lia.
Qed.

End Search.

Section ShortestPath.
Import CityMap Props.

Lemma has_node_In (g : CityGraph) (u : node) :
  has_node g u = true <-> In u (nodes g).
Proof.
  unfold has_node. rewrite existsb_exists. split.
  - intros (y & Hy & E). apply String.eqb_eq in E. now subst.
  - intros H. exists u. split; [exact H | apply String.eqb_refl].
Qed.

Lemma initial_pops (g : CityGraph) (source target : node) :
  (pops_left g (mkSearch (start source) (start target) None)
   < 2 * length (edges g) + 3)%nat.
Proof.
  unfold pops_left, pushes_left. cbn [forward backward start fringe dists].
  pose proof (List.filter_length_le (fun _ : node * node * EdgeData => true) (edges g)).
  simpl length. lia.
Qed.

Lemma initial_side (g : CityGraph) (vehicle_type : string) (dir : bool)
    (root : node) :
  side_inv g vehicle_type dir root root [] (start root).
Proof.
  constructor; cbn [start dists paths fringe seen].
  - left. auto.
  - intros u d. rewrite assoc_cons, path_to_cons.
    destruct (String.eqb_spec root u) as [<- |]; [| discriminate].
    intros E. inversion E; subst. exists [root]. split; [reflexivity | constructor].
  - discriminate.
  - intros k u [E | []]. inversion E; subst. exists 0.
    rewrite assoc_cons, String.eqb_refl. split; [reflexivity | lia].
  - intros u d. rewrite assoc_cons.
    destruct (String.eqb_spec root u) as [<- |]; [| discriminate].
    intros E _. inversion E; subst. now left.
  - discriminate.
  - discriminate.
Qed.

Lemma initial_inv (g : CityGraph) (vehicle_type : string) (source target : node) :
  source <> target ->
  search_inv g vehicle_type source target true
             (mkSearch (start source) (start target) None).
Proof.
  intros Hne. constructor; cbn [forward backward final].
  - apply initial_side.
  - apply initial_side.
  - constructor; cbn [forward backward final start seen]; [| discriminate].
    intros w d0 d1. rewrite !assoc_cons.
    destruct (String.eqb_spec source w) as [<- |]; [| discriminate].
    destruct (String.eqb_spec target source) as [E |]; [| discriminate].
    now contradiction Hne.
  - reflexivity.
  - left. auto.
Qed.

(** A path on a map with non-negative weights takes no negative time. *)
Lemma sum_weights_nonneg (g : CityGraph) (p : list node) :
  nonneg_weights g = true ->
  forall W, sum_weights g p = Ok W -> 0 <= W.
Proof.
  intros Hg. induction p as [| a [| b p] IH]; intros W Hs.
  - inversion Hs. lia.
  - inversion Hs. lia.
  - rewrite sum_weights_cons in Hs.
    destruct (edge_data g a b) as [e |] eqn:He; [| discriminate].
    destruct (sum_weights g (b :: p)) as [W' |]; [| discriminate].
    simpl in Hs. inversion Hs; subst.
    specialize (IH W' eq_refl).
    apply edge_data_In in He. unfold nonneg_weights in Hg.
    rewrite forallb_forall in Hg. specialize (Hg _ He). simpl in Hg.
    apply Z.leb_le in Hg. lia.
Qed.

(** What [get_shortest_path] returns on a map with non-negative weights,
    between two of its nodes: a path of the view that nothing beats, or
    [None] where the view has no path. *)
Lemma get_shortest_path_spec (g : CityGraph) (s t : node) (vehicle_type : string) :
  nonneg_weights g = true -> In s (nodes g) -> In t (nodes g) ->
  (exists p W,
      get_shortest_path g s t vehicle_type = Ok (Some p)
      /\ connects s t p
      /\ allowed_path g vehicle_type p
      /\ sum_weights g p = Ok W
      /\ forall q W',
          connects s t q -> allowed_path g vehicle_type q ->
          sum_weights g q = Ok W' -> W <= W')
  \/ (get_shortest_path g s t vehicle_type = Ok None
      /\ ~ reachable g vehicle_type s t).
Proof.
  intros Hg Hs Ht.
  unfold get_shortest_path, nx_shortest_path, bidirectional_dijkstra.
  apply has_node_In in Hs, Ht. rewrite Hs, Ht. cbn [negb].
  destruct (String.eqb_spec s t) as [<- | Hne].
  - left. exists [s], 0. split; [reflexivity |]. split; [now split |].
    split; [exact I |]. split; [reflexivity |].
    intros q W' _ _. now apply sum_weights_nonneg.
  - apply (search_loop_spec g vehicle_type Hg s t Hne);
      [now apply initial_inv | apply initial_pops].
Qed.

(** *** The search always ends *)

Lemma meet_sides (w : node) (s s' : Search) :
  meet w s = Ok s' -> forward s' = forward s /\ backward s' = backward s.
Proof.
  unfold meet.
  destruct (assoc w (seen (forward s))), (assoc w (seen (backward s)));
    try (intros E; inversion E; now subst).
  destruct (match final s with Some (_, _ :: _) => _ | _ => true end);
    [| intros E; inversion E; now subst].
  destruct (path_to w (paths (forward s))), (path_to w (paths (backward s)));
    intros E; inversion E; now subst.
Qed.

Lemma relax_length (dir : bool) (dv : Z) (pv : option (list node))
    (pending : list (node * Z)) :
  forall s s',
    relax dir dv pv pending s = Ok s' ->
    dists (side dir s') = dists (side dir s)
    /\ side (negb dir) s' = side (negb dir) s
    /\ (length (fringe (side dir s'))
        <= length (fringe (side dir s)) + length pending)%nat.
Proof.
  induction pending as [| [w c] pending IH]; intros s s' Hrun.
  - inversion Hrun; subst. simpl. split; [reflexivity |]. split; [reflexivity | lia].
  - cbn [relax] in Hrun. cbv zeta in Hrun.
    destruct (assoc w (dists (side dir s))).
    { destruct (dv + c <? z); [discriminate |].
      destruct (IH _ _ Hrun) as (H1 & H2 & H3).
      split; [exact H1 |]. split; [exact H2 | simpl; lia]. }
    destruct (match assoc w (seen (side dir s)) with
              | Some sw => dv + c <? sw
              | None => true
              end).
    + destruct pv as [p |]; [| discriminate].
      destruct (meet w _) as [s1 |] eqn:Hmeet; [| discriminate].
      apply meet_sides in Hmeet as [Hf Hb].
      destruct (IH _ _ Hrun) as (H1 & H2 & H3).
      assert (E : side dir s1
                  = mkSide (dists (side dir s)) ((w, p ++ [w]) :: paths (side dir s))
                      (fringe (side dir s) ++ [(dv + c, w)])
                      ((w, dv + c) :: seen (side dir s))
                  /\ side (negb dir) s1 = side (negb dir) s).
      { destruct dir; cbn [side negb with_side forward backward] in *;
          rewrite ?Hf, ?Hb; auto. }
      destruct E as [E1 E2]. rewrite E1 in H1, H3. rewrite E2 in H2.
      cbn [dists fringe] in *. rewrite length_app in H3. simpl in *.
      split; [exact H1 |]. split; [exact H2 | lia].
    + destruct (IH _ _ Hrun) as (H1 & H2 & H3).
      split; [exact H1 |]. split; [exact H2 | simpl; lia].
Qed.

Lemma meet_raises (w : node) (s : Search) (e : exn) :
  meet w s = Raise e -> e = KeyError.
Proof.
  unfold meet.
  destruct (assoc w (seen (forward s))), (assoc w (seen (backward s)));
    try discriminate.
  destruct (match final s with Some (_, _ :: _) => _ | _ => true end);
    [| discriminate].
  destruct (path_to w (paths (forward s))), (path_to w (paths (backward s)));
    intros E; inversion E; reflexivity.
Qed.

Lemma relax_raises (dir : bool) (dv : Z) (pv : option (list node))
    (pending : list (node * Z)) :
  forall s e, relax dir dv pv pending s = Raise e -> e <> FuelExhausted.
Proof.
  induction pending as [| [w c] pending IH]; intros s e Hrun; [discriminate |].
  cbn [relax] in Hrun. cbv zeta in Hrun.
  destruct (assoc w (dists (side dir s))).
  { destruct (dv + c <? z); [inversion Hrun; discriminate | eauto]. }
  destruct (match assoc w (seen (side dir s)) with
            | Some sw => dv + c <? sw
            | None => true
            end); [| eauto].
  destruct pv as [p |]; [| inversion Hrun; discriminate].
  destruct (meet w _) as [s1 | e1] eqn:Hmeet; [eauto |].
  inversion Hrun; subst. apply meet_raises in Hmeet. subst. discriminate.
Qed.

Lemma search_loop_never_exhausted (g : CityGraph) (vehicle_type : string)
    (fuel : nat) :
  forall dir s,
    (pops_left g s < fuel)%nat ->
    search_loop fuel g vehicle_type dir s <> Raise FuelExhausted.
Proof.
  induction fuel as [| fuel IH]; intros dir s Hfuel; [lia |].
  cbn [search_loop].
  destruct (fringe (forward s)) as [| e0 f0] eqn:Ef; [discriminate |].
  destruct (fringe (backward s)) as [| e1 f1] eqn:Eb; [discriminate |].
  cbv zeta. remember (negb dir) as d eqn:Hd.
  destruct (pop_min (fringe (side d s))) as [[[dist v] rest] |] eqn:Hpop;
    [| discriminate].
  assert (Hlen : length (fringe (side d s)) = S (length rest)).
  { destruct (pop_min_some _ _ _ Hpop) as [Hperm _].
    apply Permutation_length in Hperm. exact Hperm. }
  rewrite (pops_left_side g d s) in Hfuel.
  destruct (assoc v (dists (side d s))) as [du |] eqn:Hv.
  - destruct (side_with_side d
                (mkSide (dists (side d s)) (paths (side d s)) rest (seen (side d s))) s)
      as (Hs1 & Hs2 & _).
    apply IH. rewrite (pops_left_side g d), Hs1, Hs2. unfold pushes_left in *.
    cbn [fringe dists]. lia.
  - destruct (side_with_side d
                (mkSide ((v, dist) :: dists (side d s)) (paths (side d s)) rest
                        (seen (side d s))) s)
      as (Hs1 & Hs2 & Hs3).
    destruct (assoc v (dists (side (negb d) _))).
    { rewrite Hs3. destruct (final s) as [[fd fp] |]; discriminate. }
    destruct (relax d dist _ _ _) as [s2 | e] eqn:Hrun;
      [| intros E; inversion E; subst; now apply relax_raises in Hrun].
    apply relax_length in Hrun as (H1 & H2 & H3).
    rewrite Hs1 in H1, H3. rewrite Hs2 in H2. cbn [dists fringe] in H1, H3.
    apply IH. rewrite (pops_left_side g d), H2. unfold pushes_left in *. rewrite H1.
    pose proof (unsettled_split d (dists (side d s)) v dist (edges g) Hv).
    pose proof (neighs_length g vehicle_type d v). lia.
Qed.

(** The bound on the steps of the search is never reached, whatever the
    weights. *)
Lemma get_shortest_path_total (g : CityGraph) (start_node end_node : node)
    (vehicle_type : string) :
  get_shortest_path g start_node end_node vehicle_type <> Raise FuelExhausted.
Proof.
  unfold get_shortest_path, nx_shortest_path, bidirectional_dijkstra.
  destruct (negb _); [discriminate |]. destruct (negb _); [discriminate |].
  destruct (String.eqb _ _); [discriminate |].
  apply search_loop_never_exhausted, initial_pops.
Qed.

(** C3.  On a map with non-negative weights, a query between two nodes of
    the map returns: either a path from the start to the end in which
    every consecutive edge is an edge of the map whose [allowed_types]
    contains the vehicle class, or [None], and [None] exactly when the end
    cannot be reached through such edges.  No exception is raised. *)
Theorem shortest_path_respects_classes
    (g : CityGraph) (start_node end_node : node) (vehicle_type : string) :
  nonneg_weights g = true ->
  In start_node (nodes g) ->
  In end_node (nodes g) ->
  (exists p,
      get_shortest_path g start_node end_node vehicle_type = Ok (Some p)
      /\ connects start_node end_node p
      /\ allowed_path g vehicle_type p
      /\ reachable g vehicle_type start_node end_node)
  \/ (get_shortest_path g start_node end_node vehicle_type = Ok None
      /\ ~ reachable g vehicle_type start_node end_node).
Proof.
  intros Hnonneg Hs Ht.
  destruct (get_shortest_path_spec g start_node end_node vehicle_type Hnonneg Hs Ht)
    as [(p & W & Hrun & Hc & Ha & _) | H]; [left | now right].
  exists p. split; [exact Hrun |]. split; [exact Hc |]. split; [exact Ha |].
  now apply (path_reachable g vehicle_type p).
Qed.

End ShortestPath.

(** A tram has a way from the North to the Stadium: over the East, on
    edges that all permit trams. *)
Lemma shortest_path_respects_classes_witness :
  Props.nonneg_weights CityMap.create_sample_map = true
  /\ In "North"%string (CityMap.nodes CityMap.create_sample_map)
  /\ In "Stadium"%string (CityMap.nodes CityMap.create_sample_map)
  /\ ((exists p,
         CityMap.get_shortest_path CityMap.create_sample_map "North" "Stadium" "tram"
         = Ok (Some p)
         /\ Props.connects "North" "Stadium" p
         /\ Props.allowed_path CityMap.create_sample_map "tram" p
         /\ Props.reachable CityMap.create_sample_map "tram" "North" "Stadium")
      \/ (CityMap.get_shortest_path CityMap.create_sample_map "North" "Stadium" "tram"
          = Ok None
          /\ ~ Props.reachable CityMap.create_sample_map "tram" "North" "Stadium")).
Proof.
  assert (H1 : Props.nonneg_weights CityMap.create_sample_map = true)
    by (vm_compute; reflexivity).
  assert (H2 : In "North"%string (CityMap.nodes CityMap.create_sample_map))
    by (vm_compute; tauto).
  assert (H3 : In "Stadium"%string (CityMap.nodes CityMap.create_sample_map))
    by (vm_compute; tauto).
  split; [exact H1 |]. split; [exact H2 |]. split; [exact H3 |].
  exact (shortest_path_respects_classes CityMap.create_sample_map
           "North" "Stadium" "tram" H1 H2 H3).
Defined.

(** The queries of [test_map.py]. *)
Example test_map_bus_east_stadium :
  CityMap.get_shortest_path CityMap.create_sample_map "East" "Stadium" "bus" = Ok None.
Proof. vm_compute. reflexivity. Qed.

Example test_map_tram_south_airport :
  CityMap.get_shortest_path CityMap.create_sample_map "South" "Airport" "tram" = Ok None.
Proof. vm_compute. reflexivity. Qed.

Example test_map_tram_north_stadium :
  CityMap.get_shortest_path CityMap.create_sample_map "North" "Stadium" "tram"
  = Ok (Some ["North"; "East"; "Stadium"]%string).
Proof. vm_compute. reflexivity. Qed.

Example test_map_bus_to_pump :
  CityMap.get_shortest_path CityMap.create_sample_map "University" "GasStation" "bus"
  = Ok (Some ["University"; "South"; "GasStation"]%string)
  /\ CityMap.get_shortest_path CityMap.create_sample_map "GasStation" "North" "bus"
     = Ok (Some ["GasStation"; "South"; "Central"; "North"]%string).
Proof. vm_compute. auto. Qed.

(** Between two routes that take equally long, the one on which the two
    ends of the search meet first is returned.  With 33 minutes from the
    Airport to the South both routes from the Airport to the Centre take 45
    and the one over the East is found; with 33 minutes from the South to
    the Airport both routes from the Centre to the Airport take 45 and the
    one over the South is found. *)
Example tie_between_routes :
  CityMap.get_shortest_path
    (CityMap.traffic_update CityMap.create_sample_map "Airport" "South" 33)
    "Airport" "Central" "bus"
  = Ok (Some ["Airport"; "East"; "Central"]%string)
  /\ CityMap.get_total_time
       (CityMap.traffic_update CityMap.create_sample_map "Airport" "South" 33)
       (Some ["Airport"; "South"; "Central"]%string)
     = CityMap.get_total_time
         (CityMap.traffic_update CityMap.create_sample_map "Airport" "South" 33)
         (Some ["Airport"; "East"; "Central"]%string)
  /\ CityMap.get_shortest_path
       (CityMap.traffic_update CityMap.create_sample_map "South" "Airport" 33)
       "Central" "Airport" "bus"
     = Ok (Some ["Central"; "South"; "Airport"]%string)
  /\ CityMap.get_total_time
       (CityMap.traffic_update CityMap.create_sample_map "South" "Airport" 33)
       (Some ["Central"; "South"; "Airport"]%string)
     = CityMap.get_total_time
         (CityMap.traffic_update CityMap.create_sample_map "South" "Airport" 33)
         (Some ["Central"; "East"; "Airport"]%string).
Proof. vm_compute. repeat split; reflexivity. Qed.

(** A name that is not a node of the map is not a case of [None]:
    networkx raises [NodeNotFound], which [get_shortest_path] lets through. *)
Example unknown_node_raises :
  CityMap.get_shortest_path CityMap.create_sample_map "Harbour" "Central" "bus"
  = Raise NodeNotFound.
Proof. vm_compute. reflexivity. Qed.

(** ** The road network: how long a returned path can be *)

Section PathLength.
Import CityMap Props.

Variable g : CityGraph.
Variable vehicle_type : string.

Lemma short_paths_side (dir : bool) (s : Search) :
  short_paths (forward s) -> short_paths (backward s) ->
  short_paths (side dir s).
Proof. now destruct dir. Qed.

Lemma short_paths_fringe (x : Side) (rest : list (Z * node)) :
  short_paths x -> short_paths (mkSide (dists x) (paths x) rest (seen x)).
Proof. intros [H1 H2]. now constructor. Qed.

Lemma short_paths_settle (x : Side) (v : node) (dist : Z) (rest : list (Z * node)) :
  short_paths x ->
  short_paths (mkSide ((v, dist) :: dists x) (paths x) rest (seen x)).
Proof.
  intros [H1 H2]. constructor; cbn [dists paths length].
  - intros u d p. rewrite assoc_cons.
    destruct (String.eqb v u); [intros _; apply H2 |].
    intros Hu Hp. specialize (H1 u d p Hu Hp). lia.
  - intros u p Hp. specialize (H2 u p Hp). lia.
Qed.

Lemma short_paths_push (x : Side) (w : node) (p : list node) (k : Z) :
  short_paths x ->
  assoc w (dists x) = None ->
  (length p <= length (dists x))%nat ->
  short_paths (mkSide (dists x) ((w, p ++ [w]) :: paths x) (fringe x ++ [(k, w)])
                      ((w, k) :: seen x)).
Proof.
  intros [H1 H2] Hw Hp. constructor; cbn [dists paths].
  - intros u d q Hu. rewrite path_to_cons.
    destruct (String.eqb_spec w u) as [<- |]; [congruence | apply (H1 u d q Hu)].
  - intros u q. rewrite path_to_cons.
    destruct (String.eqb w u); [| apply H2].
    intros E. inversion E; subst. rewrite length_app. simpl. lia.
Qed.

Lemma meet_short (w : node) (s s' : Search) :
  meet w s = Ok s' ->
  short_paths (forward s) -> short_paths (backward s) -> short_final s ->
  short_final s'.
Proof.
  intros Hmeet Hf Hb Hfinal. pose proof (meet_sides _ _ _ Hmeet) as [Ef Eb].
  unfold short_final. rewrite Ef, Eb. revert Hmeet. unfold meet.
  destruct (assoc w (seen (forward s))), (assoc w (seen (backward s)));
    try (intros E; inversion E; subst; exact Hfinal).
  destruct (match final s with Some (_, _ :: _) => _ | _ => true end);
    [| intros E; inversion E; subst; exact Hfinal].
  destruct (path_to w (paths (forward s))) as [p0 |] eqn:H0; [| discriminate].
  destruct (path_to w (paths (backward s))) as [p1 |] eqn:H1; [| discriminate].
  intros E; inversion E; subst. cbn [final]. intros fd fp E'. inversion E'; subst.
  pose proof (sp_seen _ Hf _ _ H0). pose proof (sp_seen _ Hb _ _ H1).
  rewrite length_app.
  assert (length (tl (rev p1)) = pred (length p1)) as ->.
  { rewrite <- (List.length_rev p1). now destruct (rev p1). }
  lia.
Qed.

Lemma relax_short (dir : bool) (dv : Z) (pv : option (list node))
    (pending : list (node * Z)) :
  forall s s',
    relax dir dv pv pending s = Ok s' ->
    (forall p, pv = Some p -> (length p <= length (dists (side dir s)))%nat) ->
    short_paths (forward s) -> short_paths (backward s) -> short_final s ->
    short_paths (forward s') /\ short_paths (backward s') /\ short_final s'.
Proof.
  induction pending as [| [w c] pending IH]; intros s s' Hrun Hpv Hf Hb Hfinal.
  - inversion Hrun; subst. auto.
  - cbn [relax] in Hrun. cbv zeta in Hrun.
    destruct (assoc w (dists (side dir s))) as [dw |] eqn:Hw.
    { destruct (dv + c <? dw); [discriminate | eauto]. }
    destruct (match assoc w (seen (side dir s)) with
              | Some sw => dv + c <? sw
              | None => true
              end); [| eauto].
    destruct pv as [p |]; [| discriminate].
    destruct (meet w _) as [s1 |] eqn:Hmeet; [| discriminate].
    pose proof (short_paths_push (side dir s) w p (dv + c)
                  (short_paths_side dir s Hf Hb) Hw (Hpv p eq_refl)) as Hpush.
    assert (Hsides : short_paths (forward (with_side dir
                        (mkSide (dists (side dir s)) ((w, p ++ [w]) :: paths (side dir s))
                           (fringe (side dir s) ++ [(dv + c, w)])
                           ((w, dv + c) :: seen (side dir s))) s))
                     /\ short_paths (backward (with_side dir
                        (mkSide (dists (side dir s)) ((w, p ++ [w]) :: paths (side dir s))
                           (fringe (side dir s) ++ [(dv + c, w)])
                           ((w, dv + c) :: seen (side dir s))) s))).
    { destruct dir; cbn [with_side forward backward side] in *; auto. }
    destruct Hsides as [Hf1 Hb1].
    pose proof (meet_sides _ _ _ Hmeet) as [Ef Eb].
    apply (IH s1 s' Hrun).
    + intros q E. inversion E; subst q.
      destruct dir; cbn [side with_side forward backward dists] in *;
        rewrite ?Ef, ?Eb; cbn [dists]; now apply Hpv.
    + now rewrite Ef.
    + now rewrite Eb.
    + apply (meet_short _ _ _ Hmeet Hf1 Hb1).
      unfold short_final in *.
      destruct dir; cbn [with_side forward backward final dists side] in *;
        exact Hfinal.
Qed.

Lemma search_loop_length (fuel : nat) :
  forall dir s p,
    length_inv g s ->
    search_loop fuel g vehicle_type dir s = Ok (Some p) ->
    (length p <= 2 * length (edges g) + 3)%nat.
Proof.
  induction fuel as [| fuel IH]; intros dir s p [Hf Hb Hfinal Hpops] Hrun;
    [discriminate |].
  cbn [search_loop] in Hrun.
  destruct (fringe (forward s)) as [| e0 f0] eqn:Ef; [discriminate |].
  destruct (fringe (backward s)) as [| e1 f1] eqn:Eb; [discriminate |].
  cbv zeta in Hrun. remember (negb dir) as d eqn:Hd.
  destruct (pop_min (fringe (side d s))) as [[[dist v] rest] |] eqn:Hpop;
    [| discriminate].
  assert (Hlen : length (fringe (side d s)) = S (length rest)).
  { destruct (pop_min_some _ _ _ Hpop) as [Hperm _].
    apply Permutation_length in Hperm. exact Hperm. }
  assert (Hdists : (length (dists (forward s)) + length (dists (backward s))
                    = length (dists (side d s)) + length (dists (side (negb d) s)))%nat)
    by (destruct d; cbn [side negb]; lia).
  rewrite (pops_left_side g d s) in Hpops.
  destruct (assoc v (dists (side d s))) as [du |] eqn:Hv.
  - (* a stale entry *)
    destruct (side_with_side d
                (mkSide (dists (side d s)) (paths (side d s)) rest (seen (side d s))) s)
      as (Hs1 & Hs2 & Hs3).
    eapply IH; [| exact Hrun].
    constructor.
    + destruct d; cbn [with_side forward backward side] in *;
        [exact Hf | now apply short_paths_fringe].
    + destruct d; cbn [with_side forward backward side] in *;
        [now apply short_paths_fringe | exact Hb].
    + unfold short_final in *.
      destruct d; cbn [with_side forward backward final dists side] in *;
        exact Hfinal.
    + rewrite (pops_left_side g d), Hs1, Hs2. unfold pushes_left in *.
      assert (length (dists (forward (with_side d
                 (mkSide (dists (side d s)) (paths (side d s)) rest (seen (side d s))) s)))
              = length (dists (forward s))) as -> by (now destruct d).
      assert (length (dists (backward (with_side d
                 (mkSide (dists (side d s)) (paths (side d s)) rest (seen (side d s))) s)))
              = length (dists (backward s))) as -> by (now destruct d).
      cbn [fringe dists]. lia.
  - (* the entry is settled *)
    destruct (side_with_side d
                (mkSide ((v, dist) :: dists (side d s)) (paths (side d s)) rest
                        (seen (side d s))) s)
      as (Hs1 & Hs2 & Hs3).
    rewrite Hs2, Hs3 in Hrun.
    destruct (assoc v (dists (side (negb d) s))) as [dvo |] eqn:Hvo.
    + destruct (final s) as [[fd fp] |] eqn:Hfin; [| discriminate].
      inversion Hrun; subst fp. specialize (Hfinal _ _ Hfin). lia.
    + destruct (relax d dist _ _ _) as [s2 |] eqn:Hrelax; [| discriminate].
      pose proof (relax_length _ _ _ _ _ _ Hrelax) as (H1 & H2 & H3).
      rewrite Hs1 in H1, H3. rewrite Hs2 in H2. cbn [dists fringe] in H1, H3.
      assert (Hsides : short_paths (forward (with_side d
                          (mkSide ((v, dist) :: dists (side d s)) (paths (side d s)) rest
                                  (seen (side d s))) s))
                       /\ short_paths (backward (with_side d
                          (mkSide ((v, dist) :: dists (side d s)) (paths (side d s)) rest
                                  (seen (side d s))) s))).
      { destruct d; cbn [with_side forward backward side] in *;
          (split; [try exact Hf | try exact Hb]); now apply short_paths_settle. }
      destruct Hsides as [Hf1 Hb1].
      destruct (relax_short _ _ _ _ _ _ Hrelax) as (Hf2 & Hb2 & Hfinal2);
        [| exact Hf1 | exact Hb1 | |].
      * intros q Hq. rewrite Hs1. cbn [dists length].
        pose proof (sp_seen _ (short_paths_side d s Hf Hb) _ _ Hq). lia.
      * unfold short_final in *. rewrite Hs3. intros fd fp Hfin.
        specialize (Hfinal fd fp Hfin).
        destruct d; cbn [with_side forward backward dists side length] in *; lia.
      * eapply IH; [| exact Hrun].
        constructor; [exact Hf2 | exact Hb2 | exact Hfinal2 |].
        assert (Hdists2 : (length (dists (forward s2)) + length (dists (backward s2))
                           = length (dists (side d s2))
                             + length (dists (side (negb d) s2)))%nat)
          by (destruct d; cbn [side negb]; lia).
        rewrite Hdists2, (pops_left_side g d), H2. unfold pushes_left in *.
        rewrite H1. cbn [length].
        pose proof (unsettled_split d (dists (side d s)) v dist (edges g) Hv).
        pose proof (neighs_length g vehicle_type d v). lia.
Qed.

(** A path returned by [get_shortest_path] has at most [2 * |E| + 3]
    nodes. *)
Lemma shortest_path_length (s t : node) (p : list node) :
  get_shortest_path g s t vehicle_type = Ok (Some p) ->
  (length p <= 2 * length (edges g) + 3)%nat.
Proof.
  unfold get_shortest_path, nx_shortest_path, bidirectional_dijkstra.
  destruct (negb _); [discriminate |]. destruct (negb _); [discriminate |].
  destruct (String.eqb s t).
  - intros E. inversion E; subst. simpl. lia.
  - apply search_loop_length. constructor; cbn [forward backward final start].
    + constructor; cbn [dists paths start]; [discriminate |].
      intros u p0. rewrite path_to_cons.
      destruct (String.eqb s u); [| discriminate].
      intros E. inversion E. simpl. lia.
    + constructor; cbn [dists paths start]; [discriminate |].
      intros u p0. rewrite path_to_cons.
      destruct (String.eqb t u); [| discriminate].
      intros E. inversion E. simpl. lia.
    + intros fd fp. discriminate.
    + pose proof (initial_pops g s t). cbn [dists start length]. lia.
Qed.

End PathLength.

(** ** The vehicle: answering a call for proposals *)

Section Bids.
Import PyFloat CityMap Ontology Vehicle Props.

(** Fourteen hops of 25 km burn 70.0: the fuel level 30.0 is one the
    vehicle reaches. *)
Example fuel_after_fourteen_runs :
  Nat.iter 14 (fun f => sub f (mul (of_int 25) lit_0_2)) (of_int 100) = of_int 30.
Proof. vm_compute. reflexivity. Qed.

(** C4, at a failing input.  The bus has fuel 30.0; the two legs need
    5.0 and the depot is 30 km from the destination, so the threshold of
    the specification is 5.0 + 6.0 + 15 = 26.0 and the bus should bid.
    [handle_cfp] scales the travel time of the way to the depot (55 with the
    jam) and refuses below 5.0 + 11.0 + 15 = 31.0. *)
Theorem safety_reserve_scales_time :
  handle_cfp cfp_south (body cfp_south) bus_1_low
  = Ok (tt, bus_1_low,
        [make_reply cfp_south REFUSE (reason "insufficient_fuel_safety")])
  /\ is_tram bus_1_low = false
  /\ ltb (fuel_level bus_1_low) (of_int 30) = false
  /\ is_full bus_1_low = false
  /\ spec_total_required bus_1_low "South" "Airport" = Ok (of_int 26)
  /\ ltb (fuel_level bus_1_low) (of_int 26) = false
  /\ get_total_distance (city_map bus_1_low)
       (Some ["Airport"; "South"; "GasStation"]%string) = Ok 30
  /\ get_total_time (city_map bus_1_low)
       (Some ["Airport"; "South"; "GasStation"]%string) = Ok 55.
Proof. vm_compute. repeat split; reflexivity. Qed.

(** C5, at a failing input.  With the jam the pickup leg South -> Airport
    takes 40 and is 25 long; the bid carries 25. *)
Theorem jammed_pickup_bid_eta :
  exists a' m,
    handle_cfp cfp_airport (body cfp_airport) bus_1_jam = Ok (tt, a', [m])
    /\ performative m = PROPOSE
    /\ bid_eta m = Some 25
    /\ get_shortest_path (city_map bus_1_jam) (current_location bus_1_jam)
         "Airport" (vehicle_type bus_1_jam)
       = Ok (Some ["South"; "Airport"]%string)
    /\ get_total_time (city_map bus_1_jam) (Some ["South"; "Airport"]%string)
       = Ok 40
    /\ get_total_distance (city_map bus_1_jam) (Some ["South"; "Airport"]%string)
       = Ok 25.
Proof.
  eexists _, _. split; [vm_compute; reflexivity |].
  vm_compute. repeat split; reflexivity.
Qed.

(** What [handle_cfp] does in general: every bid it sends carries the
    distance of the pickup leg as its ETA. *)
Lemma bid_eta_is_pickup_distance (a a' : VehicleAgent) (msg m : Message)
    (content : Content) (out : list Message) :
  handle_cfp msg content a = Ok (tt, a', out) ->
  In m out ->
  performative m = PROPOSE ->
  exists origin destination n path_pickup pickup_cost,
    content = ride_request origin destination n
    /\ get_shortest_path (city_map a) (current_location a) origin (vehicle_type a)
       = Ok path_pickup
    /\ get_total_distance (city_map a) path_pickup = Ok pickup_cost
    /\ bid_eta m = Some pickup_cost.
Proof.
  intros Hrun Hin Hprop. unfold handle_cfp in Hrun.
  repeat step_method Hrun;
    try discriminate;
    inversion Hrun; subst; clear Hrun; simpl in Hin;
    repeat match goal with
           | H : _ \/ _ |- _ => destruct H
           | H : False |- _ => destruct H
           end;
    subst; try discriminate;
    eexists _, _, _, _, _; (split; [reflexivity |]);
    (split; [eassumption |]); (split; [eassumption |]); reflexivity.
Qed.

(** And the refusal [insufficient_fuel_safety] is decided by the travel
    time of the way to the depot, not by its distance. *)
Lemma safety_refusal_iff_time_reserve (a : VehicleAgent) (msg : Message)
    (origin destination : node) (n : Z)
    (path_pickup path_trip path_pump : option (list node))
    (pickup_time trip_time pickup_cost trip_cost pump_time : Z)
    (fuel_needed safety : float) :
  is_tram a = false ->
  ltb (fuel_level a) (of_int 30) = false ->
  is_full a = false ->
  get_shortest_path (city_map a) (current_location a) origin (vehicle_type a)
  = Ok path_pickup ->
  get_shortest_path (city_map a) origin destination (vehicle_type a)
  = Ok path_trip ->
  truthy path_pickup = true ->
  truthy path_trip = true ->
  get_total_time (city_map a) path_pickup = Ok pickup_time ->
  get_total_time (city_map a) path_trip = Ok trip_time ->
  get_total_distance (city_map a) path_pickup = Ok pickup_cost ->
  get_total_distance (city_map a) path_trip = Ok trip_cost ->
  int_mul (pickup_cost + trip_cost) (fuel_consumption a) = Ok fuel_needed ->
  get_shortest_path (city_map a) destination "GasStation" "bus" = Ok path_pump ->
  get_total_time (city_map a) path_pump = Ok pump_time ->
  int_mul pump_time (fuel_consumption a) = Ok safety ->
  (exists a',
      handle_cfp msg (ride_request origin destination n) a
      = Ok (tt, a', [make_reply msg REFUSE (reason "insufficient_fuel_safety")]))
  <-> ltb (fuel_level a)
          (add (add fuel_needed (if truthy path_pump then safety else of_int 0))
               (of_int 15)) = true.
Proof.
  intros Htram Hlow Hfull Hpp Hpt Htp Htt Hpickt Htript Hpickc Htripc Hneed Hpump
    Hpumpt Hsafety.
  unfold handle_cfp, bind, get, lift, send_refuse, send, when, modify, ret.
  rewrite Htram, Hlow, Hfull, Hpp, Hpt, Htp, Htt, Hpickt, Htript, Hpickc, Htripc,
    Hneed, Hpump.
  simpl. destruct (truthy path_pump); [rewrite Hpumpt; simpl; rewrite Hsafety |];
    simpl;
    match goal with
    | |- context [if ?c then _ else _] => destruct c
    end; simpl; (split; [| eauto; discriminate]);
    try (intros [a' H]; destruct (thread msg) as [t |];
         [destruct (negb (t =? "")%string) |]; simpl in H; discriminate).
  all: reflexivity.
Qed.

End Bids.

(** ** The vehicle: the bound on the manifest over a whole cycle *)

Section Cycle.
Import PyFloat CityMap Ontology Vehicle Props.

Lemma bind_Ok {A B : Type} (m : Beh A) (k : A -> Beh B) (a a2 : VehicleAgent)
    (y : B) (out : list Message) :
  bind m k a = Ok (y, a2, out) ->
  exists x a1 out1 out2,
    m a = Ok (x, a1, out1) /\ k x a1 = Ok (y, a2, out2) /\ out = out1 ++ out2.
Proof.
  unfold bind. destruct (m a) as [[[x a1] out1] |] eqn:Hm; [| discriminate].
  destruct (k x a1) as [[[y' a2'] out2] |] eqn:Hk; [| discriminate].
  intros H. inversion H; subst. exists x, a1, out1, out2.
  split; [reflexivity |]. split; [exact Hk | reflexivity].
Qed.

Lemma no_boarding_bind {A B : Type} (m : Beh A) (k : A -> Beh B) :
  no_boarding m -> (forall x, no_boarding (k x)) -> no_boarding (bind m k).
Proof.
  intros Hm Hk a y a2 out Hrun.
  apply bind_Ok in Hrun as (x & a1 & o1 & o2 & H1 & H2 & _).
  destruct (Hm _ _ _ _ H1), (Hk x _ _ _ _ H2). split; [congruence | lia].
Qed.

Lemma no_boarding_handle_cfp (msg : Message) (content : Content) :
  no_boarding (handle_cfp msg content).
Proof.
  intros a x a' out Hrun. unfold handle_cfp in Hrun.
  repeat step_method Hrun;
    try discriminate; inversion Hrun; subst; simpl; unfold load; simpl;
    split; (reflexivity || lia).
Qed.

Lemma filter_length_load (f : Passenger -> bool) (l : list Passenger) :
  Z.of_nat (length (List.filter f l)) <= Z.of_nat (length l).
Proof. pose proof (List.filter_length_le f l). lia. Qed.

Lemma no_boarding_process_stop (location : node) :
  no_boarding (process_stop location).
Proof.
  intros a x a' out Hrun. unfold process_stop in Hrun.
  repeat step_method Hrun;
    try discriminate; inversion Hrun; subst; simpl; unfold load; simpl;
    (split; [reflexivity |]);
    first
      [ lia
      | apply filter_length_load
      | match goal with
        | H : List.filter ?f ?m = _ |- _ =>
            let Hlen := fresh in
            pose proof (List.filter_length_le f m) as Hlen;
            rewrite H in Hlen; simpl in Hlen; lia
        end ].
Qed.

Lemma no_boarding_move_to_next_node (fault : bool) :
  no_boarding (move_to_next_node fault).
Proof.
  intros a x a' out Hrun. unfold move_to_next_node in Hrun.
  unfold bind at 1, get at 1 in Hrun. cbv beta iota in Hrun.
  destruct (waypoints a) as [| target_stop remaining] eqn:Hw.
  - inversion Hrun; subst. split; [reflexivity | lia].
  - destruct (String.eqb (current_location a) target_stop).
    + destruct ((do modify (set_waypoints remaining)
                 then process_stop target_stop) a)
        as [[[y a2] o2] |] eqn:E; [| discriminate].
      inversion Hrun; subst.
      apply bind_Ok in E as (u & a1 & o1 & o3 & H1 & H2 & _).
      inversion H1; subst.
      destruct (no_boarding_process_stop target_stop _ _ _ _ H2) as [Hc Hl].
      split; [exact Hc | exact Hl].
    + repeat step_method Hrun;
        try discriminate; inversion Hrun; subst; simpl; unfold load; simpl;
        split; (reflexivity || lia).
Qed.

Lemma no_boarding_simple (m : Beh unit) :
  (forall a a' out, m a = Ok (tt, a', out) ->
                    capacity a' = capacity a /\ manifest a' = manifest a) ->
  no_boarding m.
Proof.
  intros H a [] a' out Hrun. destruct (H a a' out Hrun) as [Hc Hm].
  split; [exact Hc |]. unfold load. rewrite Hm. lia.
Qed.

Lemma no_boarding_process_service_message (content : Content) :
  no_boarding (process_service_message content).
Proof.
  apply no_boarding_simple. intros a a' out Hrun.
  unfold process_service_message in Hrun.
  destruct content; try (inversion Hrun; subst; now split);
    repeat step_method Hrun; inversion Hrun; subst; now split.
Qed.

Lemma no_boarding_divert (target_station : node) :
  no_boarding (divert target_station).
Proof.
  apply no_boarding_simple. intros a a' out Hrun. unfold divert in Hrun.
  repeat step_method Hrun; inversion Hrun; subst; now split.
Qed.

Lemma no_boarding_patrol : no_boarding patrol.
Proof.
  apply no_boarding_simple. intros a a' out Hrun. unfold patrol in Hrun.
  repeat step_method Hrun; inversion Hrun; subst; now split.
Qed.

Lemma no_boarding_keeps {A : Type} (m : Beh A) : no_boarding m -> keeps_bound m.
Proof.
  intros H a x a' out Hrun Hinv. destruct (H a x a' out Hrun). lia.
Qed.

Lemma keeps_bound_bind {A B : Type} (m : Beh A) (k : A -> Beh B) :
  keeps_bound m -> (forall x, keeps_bound (k x)) -> keeps_bound (bind m k).
Proof.
  intros Hm Hk a y a2 out Hrun Hinv.
  apply bind_Ok in Hrun as (x & a1 & o1 & o2 & H1 & H2 & _).
  eapply Hk; [exact H2 |]. eapply Hm; [exact H1 | exact Hinv].
Qed.

Lemma keeps_bound_handle_acceptance (msg : Message) (content : Content) :
  keeps_bound (handle_acceptance msg content).
Proof.
  intros a [] a' out Hrun Hinv.
  destruct (handle_acceptance_returns a msg content)
    as (a1 & o1 & Hrun' & Hcap & Hload).
  rewrite Hrun in Hrun'. inversion Hrun'; subst.
  rewrite Hcap. destruct Hload as [-> | [Hlt ->]]; lia.
Qed.

Lemma keeps_bound_dispatch (msg : Message) : keeps_bound (dispatch msg).
Proof.
  unfold dispatch.
  destruct (performative msg), (body msg);
    first
      [ apply keeps_bound_handle_acceptance
      | apply no_boarding_keeps;
        first [ apply no_boarding_handle_cfp
              | apply (no_boarding_process_service_message (repaired _))
              | apply (no_boarding_process_service_message refueled)
              | apply no_boarding_divert
              | apply no_boarding_simple; intros a a' out Hrun;
                repeat step_method Hrun; inversion Hrun; subst; now split ] ].
Qed.

(** Over a whole cycle of [run], whatever message arrives: a vehicle within
    its capacity stays within it. *)
Lemma run_keeps_capacity_bound (msg : option Message) (fault : bool) :
  keeps_bound (run msg fault).
Proof.
  unfold run. apply keeps_bound_bind.
  - destruct msg as [m |]; [apply keeps_bound_dispatch |].
    intros a x a' out Hrun Hinv. now inversion Hrun; subst.
  - intros _. apply keeps_bound_bind; [apply no_boarding_keeps, no_boarding_patrol |].
    intros _. apply no_boarding_keeps. apply no_boarding_bind.
    + intros a x a' out Hrun. inversion Hrun; subst. split; [reflexivity | lia].
    + intros a0. unfold when. destruct (_ && _).
      * apply no_boarding_move_to_next_node.
      * intros a x a' out Hrun. inversion Hrun; subst. split; [reflexivity | lia].
Qed.

End Cycle.

(** ** The workshop: at most [num_mechanics] repairs at a time *)

Section Workshop.
Import Ontology Maintenance Props.

Lemma remove_job_length (j : RepairJob) (l : list RepairJob) :
  existsb (fun k => job_eqb k j) l = true ->
  S (length (remove_job j l)) = length l.
Proof.
  induction l as [| k l IH]; simpl; [discriminate |].
  destruct (job_eqb k j); simpl; [reflexivity |].
  intros H. now rewrite IH.
Qed.

(** The permits handed out and the permits left add up to the number of
    mechanics; a step keeps it so. *)
Lemma step_keeps_permits (w w' : Workshop) (e : Event) (out : list Message) :
  step w e = Some (w', out) ->
  (length (in_service w) + sem_value w = num_mechanics w)%nat ->
  (length (in_service w') + sem_value w' = num_mechanics w')%nat.
Proof.
  intros Hstep Hinv. destruct e as [j | j]; simpl in Hstep.
  - unfold locked in Hstep.
    destruct (sem_value w) as [| v] eqn:Hv; simpl in Hstep.
    + inversion Hstep; subst. simpl. lia.
    + destruct (waiters w); inversion Hstep; subst; simpl;
        rewrite ?length_app; simpl; lia.
  - destruct (existsb (fun k => job_eqb k j) (in_service w)) eqn:Hin;
      [| discriminate].
    apply remove_job_length in Hin.
    destruct (waiters w); inversion Hstep; subst; simpl;
      rewrite ?length_app; simpl; lia.
Qed.

Lemma run_keeps_permits (es : list Event) :
  forall w,
    (length (in_service w) + sem_value w = num_mechanics w)%nat ->
    (length (in_service (run w es)) + sem_value (run w es)
     = num_mechanics (run w es))%nat.
Proof.
  induction es as [| e es IH]; intros w Hinv; simpl; [exact Hinv |].
  destruct (step w e) as [[w' out] |] eqn:Hstep; [| now apply IH].
  apply IH. now apply (step_keeps_permits w w' e out).
Qed.

Lemma step_num_mechanics (w w' : Workshop) (e : Event) (out : list Message) :
  step w e = Some (w', out) -> num_mechanics w' = num_mechanics w.
Proof.
  destruct e as [j | j]; simpl.
  - destruct (locked w); intros H; now inversion H.
  - destruct (existsb _ _); [| discriminate].
    destruct (waiters w); intros H; now inversion H.
Qed.

Lemma run_num_mechanics (es : list Event) :
  forall w, num_mechanics (run w es) = num_mechanics w.
Proof.
  induction es as [| e es IH]; intros w; simpl; [reflexivity |].
  destruct (step w e) as [[w' out] |] eqn:Hstep; [| apply IH].
  rewrite IH. now apply (step_num_mechanics w w' e out).
Qed.

(** With no permit left and no job finishing, nothing starts. *)
Lemma no_finish_no_start (es : list Event) :
  forall w,
    sem_value w = O ->
    forallb (fun e => negb (is_finish e)) es = true ->
    in_service (run w es) = in_service w /\ sem_value (run w es) = O.
Proof.
  induction es as [| e es IH]; intros w Hv Hes; simpl; [auto |].
  simpl in Hes. apply andb_prop in Hes as [He Hes].
  destruct e as [j | j]; [| discriminate].
  simpl. unfold locked. rewrite Hv. simpl.
  exact (IH (mkWorkshop (jid w) (num_mechanics w) O (waiters w ++ [j])
                        (in_service w)) eq_refl Hes).
Qed.

(** C8.  Whatever the reports and whenever they arrive, no more than
    [num_mechanics] jobs are in service; a report that arrives while all
    the slots are taken is queued, and it is not started as long as no
    running job finishes. *)
Theorem repair_slots_bounded (name : string) (n : nat) (es : list Event) :
  (length (in_service (run (setup name n) es)) <= n)%nat
  /\ forall j,
       length (in_service (run (setup name n) es)) = n ->
       exists w',
         step (run (setup name n) es) (Arrive j) = Some (w', [])
         /\ waiters w' = waiters (run (setup name n) es) ++ [j]
         /\ in_service w' = in_service (run (setup name n) es)
         /\ forall es',
              forallb (fun e => negb (is_finish e)) es' = true ->
              in_service (run w' es') = in_service (run (setup name n) es).
Proof.
  pose proof (run_keeps_permits es (setup name n) (Nat.add_0_l n)) as Hinv.
  rewrite run_num_mechanics in Hinv. simpl in Hinv.
  split; [lia |]. intros j Hbusy.
  assert (Hv : sem_value (run (setup name n) es) = O) by lia.
  eexists. simpl. unfold locked. rewrite Hv. simpl.
  split; [reflexivity |]. split; [reflexivity |]. split; [reflexivity |].
  intros es' Hes'.
  exact (proj1 (no_finish_no_start es'
                  (mkWorkshop (jid (run (setup name n) es))
                     (num_mechanics (run (setup name n) es))
                     O
                     (waiters (run (setup name n) es) ++ [j])
                     (in_service (run (setup name n) es)))
                  eq_refl Hes')).
Qed.

End Workshop.

(** Two mechanics and three breakdowns at once: the third waits, and is
    taken in when the first repair ends. *)
Example three_breakdowns_two_mechanics :
  Maintenance.in_service
    (Maintenance.run (Maintenance.setup "pedro_mechanic@jabb.im" 2)
       Props.three_breakdowns)
  = [Props.job "pedro_bus_1@jabb.im" "no_fuel";
     Props.job "pedro_bus_2@jabb.im" "engine_fail"]
  /\ Maintenance.waiters
       (Maintenance.run (Maintenance.setup "pedro_mechanic@jabb.im" 2)
          Props.three_breakdowns)
     = [Props.job "pedro_tram_1@jabb.im" "engine_fail"]
  /\ Maintenance.in_service
       (Maintenance.run (Maintenance.setup "pedro_mechanic@jabb.im" 2)
          (Props.three_breakdowns
           ++ [Maintenance.Finish (Props.job "pedro_bus_1@jabb.im" "no_fuel")]))
     = [Props.job "pedro_bus_2@jabb.im" "engine_fail";
        Props.job "pedro_tram_1@jabb.im" "engine_fail"].
Proof. vm_compute. auto. Qed.

(** * Further properties *)

(** ** The road network: the path returned is a fastest one *)

Section FastestPath.
Import CityMap Props Extra.

(** A query that returns was made between two nodes of the map. *)
Lemma returned_between_nodes (g : CityGraph) (s t : node) (vehicle_type : string)
    (r : option (list node)) :
  get_shortest_path g s t vehicle_type = Ok r ->
  In s (nodes g) /\ In t (nodes g).
Proof.
  unfold get_shortest_path, nx_shortest_path, bidirectional_dijkstra.
  destruct (has_node g s) eqn:Hs; [| discriminate].
  destruct (has_node g t) eqn:Ht; [| discriminate].
  intros _. split; now apply has_node_In.
Qed.

(** X1.  The path that [get_shortest_path] returns is a fastest one: its
    total time is defined and no path from the start to the end through
    edges permitted to the vehicle class takes less. *)
Theorem shortest_path_is_fastest
    (g : CityGraph) (start_node end_node : node) (vehicle_type : string)
    (p : list node) :
  nonneg_weights g = true ->
  get_shortest_path g start_node end_node vehicle_type = Ok (Some p) ->
  exists W,
    get_total_time g (Some p) = Ok W
    /\ forall q W',
         connects start_node end_node q ->
         allowed_path g vehicle_type q ->
         get_total_time g (Some q) = Ok W' ->
         W <= W'.
Proof.
  intros Hnonneg Hrun.
  destruct (returned_between_nodes _ _ _ _ _ Hrun) as [Hs Ht].
  destruct (get_shortest_path_spec g start_node end_node vehicle_type Hnonneg Hs Ht)
    as [(p' & W & Hrun' & _ & _ & Hsum & Hleast) | [Hrun' _]];
    rewrite Hrun in Hrun'; inversion Hrun'; subst p'.
  exists W. split; [exact Hsum | exact Hleast].
Qed.

End FastestPath.

Lemma shortest_path_is_fastest_witness :
  Props.nonneg_weights CityMap.create_sample_map = true
  /\ CityMap.get_shortest_path CityMap.create_sample_map "West" "Airport" "bus"
     = Ok (Some ["West"; "University"; "South"; "Airport"]%string)
  /\ exists W,
      CityMap.get_total_time CityMap.create_sample_map
        (Some ["West"; "University"; "South"; "Airport"]%string) = Ok W
      /\ forall q W',
           Props.connects "West" "Airport" q ->
           Props.allowed_path CityMap.create_sample_map "bus" q ->
           CityMap.get_total_time CityMap.create_sample_map (Some q) = Ok W' ->
           W <= W'.
Proof.
  assert (H1 : Props.nonneg_weights CityMap.create_sample_map = true)
    by (vm_compute; reflexivity).
  assert (H2 : CityMap.get_shortest_path CityMap.create_sample_map
                 "West" "Airport" "bus"
               = Ok (Some ["West"; "University"; "South"; "Airport"]%string))
    by (vm_compute; reflexivity).
  split; [exact H1 |]. split; [exact H2 |].
  exact (shortest_path_is_fastest CityMap.create_sample_map "West" "Airport" "bus"
           ["West"; "University"; "South"; "Airport"]%string H1 H2).
Defined.

(** ** Traffic and the existence of routes *)

Section Routes.
Import CityMap Ontology Props Extra.

Lemma nodes_traffic_update (g : CityGraph) (u v : node) (w : Z) :
  nodes (traffic_update g u v w) = nodes g.
Proof. unfold traffic_update. now destruct (has_edge g u v). Qed.

Lemma nonneg_traffic_update (g : CityGraph) (u v : node) (w : Z) :
  nonneg_weights g = true -> 0 <= w ->
  nonneg_weights (traffic_update g u v w) = true.
Proof.
  intros Hg Hw. unfold traffic_update. destruct (has_edge g u v); [| exact Hg].
  unfold nonneg_weights, set_weight in *. simpl.
  rewrite forallb_forall in *. intros x Hin.
  apply in_map_iff in Hin as (y & <- & Hy).
  destruct (same_edge u v y); simpl; [now apply Z.leb_le | now apply Hg].
Qed.

Lemma apply_updates_keeps (us : list (node * node * Z)) :
  forall g,
    nonneg_weights g = true ->
    Forall (fun x => 0 <= snd x) us ->
    nonneg_weights (apply_updates g us) = true
    /\ nodes (apply_updates g us) = nodes g.
Proof.
  induction us as [| [[u v] w] us IH]; intros g Hg Hus; [now auto |].
  inversion Hus as [| ? ? Hw Hrest]; subst. simpl in Hw.
  destruct (IH (traffic_update g u v w)) as (H1 & H2);
    [now apply nonneg_traffic_update | exact Hrest |].
  unfold apply_updates in *. simpl.
  split; [exact H1 |]. now rewrite H2, nodes_traffic_update.
Qed.

(** Two maps with the same edges and the same permitted classes on them
    have the same view. *)
Lemma view_edge_same_classes (g g' : CityGraph) (vehicle_type : string) :
  (forall x y, option_map allowed_types (edge_data g' x y)
               = option_map allowed_types (edge_data g x y)) ->
  forall x y, view_edge g vehicle_type x y -> view_edge g' vehicle_type x y.
Proof.
  intros Hsame x y (d & l & Hd & Hl & Hin). specialize (Hsame x y).
  rewrite Hd in Hsame. simpl in Hsame.
  destruct (edge_data g' x y) as [d' |] eqn:Hd'; [| discriminate].
  simpl in Hsame. inversion Hsame as [E].
  exists d', l. split; [exact Hd' |]. split; [congruence | exact Hin].
Qed.

Lemma reachable_same_edges (g g' : CityGraph) (vehicle_type : string) (s t : node) :
  (forall x y, option_map allowed_types (edge_data g' x y)
               = option_map allowed_types (edge_data g x y)) ->
  reachable g vehicle_type s t -> reachable g' vehicle_type s t.
Proof.
  intros Hsame. induction 1 as [| v w _ IH Hedge]; [constructor |].
  apply (reach_step _ _ _ v); [exact IH |].
  now apply (view_edge_same_classes g g').
Qed.

(** On a map with non-negative weights a query between two nodes returns
    [None] exactly when the end cannot be reached. *)
Lemma no_route_iff (g : CityGraph) (s t : node) (vehicle_type : string) :
  nonneg_weights g = true -> In s (nodes g) -> In t (nodes g) ->
  (exists r, get_shortest_path g s t vehicle_type = Ok r)
  /\ (get_shortest_path g s t vehicle_type = Ok None
      <-> ~ reachable g vehicle_type s t).
Proof.
  intros Hg Hs Ht.
  destruct (get_shortest_path_spec g s t vehicle_type Hg Hs Ht)
    as [(p & W & Hrun & Hc & Ha & _) | [Hrun Hr]]; rewrite Hrun.
  - split; [eauto |]. split; [discriminate |].
    intros Hn. exfalso. apply Hn. now apply (path_reachable g vehicle_type p).
  - split; [eauto |]. split; auto.
Qed.

(** X2.  Congestion changes how long a route takes, never whether there is
    one: after any sequence of traffic updates with non-negative weights
    the query still returns without raising, and it returns [None] for
    exactly the same start, end and vehicle class as before. *)
Theorem traffic_keeps_routes
    (g : CityGraph) (us : list (node * node * Z)) (s t : node)
    (vehicle_type : string) :
  nonneg_weights g = true ->
  Forall (fun x => 0 <= snd x) us ->
  In s (nodes g) ->
  In t (nodes g) ->
  (exists r, get_shortest_path (apply_updates g us) s t vehicle_type = Ok r)
  /\ (get_shortest_path (apply_updates g us) s t vehicle_type = Ok None
      <-> get_shortest_path g s t vehicle_type = Ok None).
Proof.
  intros Hg Hus Hs Ht.
  destruct (apply_updates_keeps us g Hg Hus) as (Hg' & Hnodes).
  destruct (no_route_iff g s t vehicle_type Hg Hs Ht) as [_ Hiff].
  destruct (no_route_iff (apply_updates g us) s t vehicle_type Hg')
    as [Hret Hiff']; [now rewrite Hnodes | now rewrite Hnodes |].
  split; [exact Hret |]. rewrite Hiff, Hiff'. split; intros Hn Hr; apply Hn.
  - apply (reachable_same_edges g (apply_updates g us)); [| exact Hr].
    intros x y. apply apply_updates_frame.
  - apply (reachable_same_edges (apply_updates g us) g); [| exact Hr].
    intros x y. symmetry. apply apply_updates_frame.
Qed.

End Routes.

Lemma traffic_keeps_routes_witness :
  Props.nonneg_weights CityMap.create_sample_map = true
  /\ Forall (fun x : CityMap.node * CityMap.node * Z => 0 <= snd x)
       [("Central", "North", 50); ("South", "Airport", 30)]%string
  /\ In "East"%string (CityMap.nodes CityMap.create_sample_map)
  /\ In "Stadium"%string (CityMap.nodes CityMap.create_sample_map)
  /\ (exists r,
         CityMap.get_shortest_path
           (Props.apply_updates CityMap.create_sample_map
              [("Central", "North", 50); ("South", "Airport", 30)]%string)
           "East" "Stadium" "bus" = Ok r)
  /\ (CityMap.get_shortest_path
        (Props.apply_updates CityMap.create_sample_map
           [("Central", "North", 50); ("South", "Airport", 30)]%string)
        "East" "Stadium" "bus" = Ok None
      <-> CityMap.get_shortest_path CityMap.create_sample_map
            "East" "Stadium" "bus" = Ok None).
Proof.
  assert (H1 : Props.nonneg_weights CityMap.create_sample_map = true)
    by (vm_compute; reflexivity).
  assert (H2 : Forall (fun x : CityMap.node * CityMap.node * Z => 0 <= snd x)
                 [("Central", "North", 50); ("South", "Airport", 30)]%string)
    by (repeat constructor; simpl; lia).
  assert (H3 : In "East"%string (CityMap.nodes CityMap.create_sample_map))
    by (vm_compute; tauto).
  assert (H4 : In "Stadium"%string (CityMap.nodes CityMap.create_sample_map))
    by (vm_compute; tauto).
  split; [exact H1 |]. split; [exact H2 |]. split; [exact H3 |]. split; [exact H4 |].
  exact (traffic_keeps_routes CityMap.create_sample_map
           [("Central", "North", 50); ("South", "Airport", 30)]%string
           "East" "Stadium" "bus" H1 H2 H3 H4).
Defined.

(** ** The vehicle: more on calls for proposals *)

Section CallForProposals.
Import PyFloat CityMap Ontology Vehicle Props Extra.

Lemma handle_cfp_frame (a a' : VehicleAgent) (msg : Message)
    (content : Content) (out : list Message) :
  handle_cfp msg content a = Ok (tt, a', out) ->
  (exists m,
      out = [m]
      /\ to m = sender msg /\ sender m = to msg /\ thread m = thread msg
      /\ (performative m = REFUSE \/ performative m = PROPOSE))
  /\ manifest a' = manifest a
  /\ current_location a' = current_location a
  /\ fuel_level a' = fuel_level a
  /\ city_map a' = city_map a
  /\ is_broken a' = is_broken a
  /\ is_refueling a' = is_refueling a
  /\ patrol_index a' = patrol_index a.
Proof.
  intros Hrun. unfold handle_cfp in Hrun.
  repeat step_method Hrun; try discriminate; inversion Hrun; subst;
    (split; [eexists; (split; [reflexivity |]); simpl; tauto |]);
    simpl; tauto.
Qed.

(** X3.  Whenever [handle_cfp] returns it has sent exactly one message: a
    reply to the sender of the call, on the same thread, that is a refusal
    or a proposal.  The manifest, the position, the fuel and the map are
    left as they were. *)
Theorem cfp_gets_one_reply (a a' : VehicleAgent) (msg : Message)
    (content : Content) (out : list Message) :
  handle_cfp msg content a = Ok (tt, a', out) ->
  exists m,
    out = [m]
    /\ to m = sender msg /\ sender m = to msg /\ thread m = thread msg
    /\ (performative m = REFUSE \/ performative m = PROPOSE)
    /\ manifest a' = manifest a
    /\ current_location a' = current_location a
    /\ fuel_level a' = fuel_level a
    /\ city_map a' = city_map a.
Proof.
  intros Hrun.
  destruct (handle_cfp_frame a a' msg content out Hrun)
    as ((m & H1 & H2 & H3 & H4 & H5) & H6 & H7 & H8 & H9 & _).
  exists m. tauto.
Qed.

(** X4.  A bus whose fuel is below 30 refuses every call with [low_fuel],
    whatever the call says, and records no bid.  If it is empty it then
    has the depot in its waypoint queue, unless it is being refuelled;
    the depot is appended at most once. *)
Theorem low_fuel_refuses (a : VehicleAgent) (msg : Message) (content : Content) :
  is_tram a = false ->
  ltb (fuel_level a) (of_int 30) = true ->
  exists a',
    handle_cfp msg content a
    = Ok (tt, a', [make_reply msg REFUSE (reason "low_fuel")])
    /\ pending_bids a' = pending_bids a
    /\ manifest a' = manifest a
    /\ (manifest a = [] -> is_refueling a = false ->
        In "GasStation"%string (waypoints a'))
    /\ (waypoints a' = waypoints a
        \/ (~ In "GasStation"%string (waypoints a)
            /\ waypoints a' = waypoints a ++ ["GasStation"%string])).
Proof.
  intros Htram Hlow.
  assert (Hmem : forall l, mem "GasStation" l = true <-> In "GasStation"%string l).
  { intros l. unfold mem. rewrite existsb_exists. split.
    - intros (y & Hy & E). apply String.eqb_eq in E. now subst.
    - intros H. exists "GasStation"%string. split; [exact H | reflexivity]. }
  cbv beta iota delta [handle_cfp bind get send_refuse send when
                         go_to_gas_station modify ret].
  rewrite Htram, Hlow. simpl.
  destruct (manifest a) as [| p l] eqn:Hm; simpl.
  - destruct (mem "GasStation" (waypoints a)) eqn:Hw; simpl.
    + eexists. split; [reflexivity |]. simpl. rewrite Hm.
      repeat split; auto. intros _ _. now apply Hmem.
    + destruct (is_refueling a) eqn:Hr; simpl; rewrite ?Hw; simpl;
        eexists; (split; [reflexivity |]); simpl; rewrite ?Hm;
        repeat split; auto; try discriminate.
      * intros _ _. apply in_or_app. right. now left.
      * right. split; [| reflexivity]. rewrite <- Hmem. congruence.
  - eexists. split; [reflexivity |]. simpl. rewrite Hm.
    repeat split; auto. discriminate.
Qed.

(** X5.  A tram's answer to a call does not depend on its fuel level: with
    any other level it sends the same reply and records the same bid. *)
Theorem tram_bid_ignores_fuel (a : VehicleAgent) (msg : Message)
    (content : Content) (f : float) :
  is_tram a = true ->
  handle_cfp msg content (set_fuel_level f a)
  = map_state (set_fuel_level f) (handle_cfp msg content a).
Proof.
  intros Htram. unfold handle_cfp, map_state.
  cbv beta iota delta [bind get].
  change (is_tram (set_fuel_level f a)) with (is_tram a).
  change (is_full (set_fuel_level f a)) with (is_full a).
  rewrite Htram. simpl.
  repeat step_goal; reflexivity.
Qed.

(** X6.  A vehicle that is broken down answers a call exactly as it would
    in service: [handle_cfp] never looks at [is_broken]. *)
Theorem broken_vehicle_still_bids (a : VehicleAgent) (msg : Message)
    (content : Content) (b : bool) :
  handle_cfp msg content (set_is_broken b a)
  = map_state (set_is_broken b) (handle_cfp msg content a).
Proof.
  unfold handle_cfp, map_state.
  cbv beta iota delta [bind get].
  change (is_tram (set_is_broken b a)) with (is_tram a).
  change (is_full (set_is_broken b a)) with (is_full a).
  simpl. repeat step_goal; reflexivity.
Qed.

End CallForProposals.

Lemma low_fuel_refuses_witness :
  Vehicle.is_tram (Vehicle.set_fuel_level (PyFloat.of_int 25) Props.bus_1) = false
  /\ PyFloat.ltb
       (Vehicle.fuel_level (Vehicle.set_fuel_level (PyFloat.of_int 25) Props.bus_1))
       (PyFloat.of_int 30) = true
  /\ exists a',
      Vehicle.handle_cfp Props.cfp_south (Ontology.body Props.cfp_south)
        (Vehicle.set_fuel_level (PyFloat.of_int 25) Props.bus_1)
      = Ok (tt, a', [Ontology.make_reply Props.cfp_south Ontology.REFUSE
                       (Ontology.reason "low_fuel")])
      /\ Vehicle.pending_bids a'
         = Vehicle.pending_bids (Vehicle.set_fuel_level (PyFloat.of_int 25) Props.bus_1)
      /\ Vehicle.manifest a'
         = Vehicle.manifest (Vehicle.set_fuel_level (PyFloat.of_int 25) Props.bus_1)
      /\ (Vehicle.manifest (Vehicle.set_fuel_level (PyFloat.of_int 25) Props.bus_1) = [] ->
          Vehicle.is_refueling (Vehicle.set_fuel_level (PyFloat.of_int 25) Props.bus_1)
          = false ->
          In "GasStation"%string (Vehicle.waypoints a'))
      /\ (Vehicle.waypoints a'
          = Vehicle.waypoints (Vehicle.set_fuel_level (PyFloat.of_int 25) Props.bus_1)
          \/ (~ In "GasStation"%string
                (Vehicle.waypoints (Vehicle.set_fuel_level (PyFloat.of_int 25) Props.bus_1))
              /\ Vehicle.waypoints a'
                 = Vehicle.waypoints
                     (Vehicle.set_fuel_level (PyFloat.of_int 25) Props.bus_1)
                   ++ ["GasStation"%string])).
Proof.
  assert (H1 : Vehicle.is_tram (Vehicle.set_fuel_level (PyFloat.of_int 25) Props.bus_1)
               = false) by (vm_compute; reflexivity).
  assert (H2 : PyFloat.ltb
                 (Vehicle.fuel_level
                    (Vehicle.set_fuel_level (PyFloat.of_int 25) Props.bus_1))
                 (PyFloat.of_int 30) = true) by (vm_compute; reflexivity).
  split; [exact H1 |]. split; [exact H2 |].
  exact (low_fuel_refuses (Vehicle.set_fuel_level (PyFloat.of_int 25) Props.bus_1)
           Props.cfp_south (Ontology.body Props.cfp_south) H1 H2).
Defined.

Lemma cfp_gets_one_reply_witness :
  Vehicle.handle_cfp Props.cfp_south (Ontology.body Props.cfp_south) Props.bus_1_low
  = Ok (tt, Props.bus_1_low,
        [Ontology.make_reply Props.cfp_south Ontology.REFUSE
           (Ontology.reason "insufficient_fuel_safety")])
  /\ exists m,
      [Ontology.make_reply Props.cfp_south Ontology.REFUSE
         (Ontology.reason "insufficient_fuel_safety")] = [m]
      /\ Ontology.to m = Ontology.sender Props.cfp_south
      /\ Ontology.sender m = Ontology.to Props.cfp_south
      /\ Ontology.thread m = Ontology.thread Props.cfp_south
      /\ (Ontology.performative m = Ontology.REFUSE
          \/ Ontology.performative m = Ontology.PROPOSE)
      /\ Vehicle.manifest Props.bus_1_low = Vehicle.manifest Props.bus_1_low
      /\ Vehicle.current_location Props.bus_1_low
         = Vehicle.current_location Props.bus_1_low
      /\ Vehicle.fuel_level Props.bus_1_low = Vehicle.fuel_level Props.bus_1_low
      /\ Vehicle.city_map Props.bus_1_low = Vehicle.city_map Props.bus_1_low.
Proof.
  assert (H : Vehicle.handle_cfp Props.cfp_south (Ontology.body Props.cfp_south)
                Props.bus_1_low
              = Ok (tt, Props.bus_1_low,
                    [Ontology.make_reply Props.cfp_south Ontology.REFUSE
                       (Ontology.reason "insufficient_fuel_safety")]))
    by (vm_compute; reflexivity).
  split; [exact H |].
  exact (cfp_gets_one_reply Props.bus_1_low Props.bus_1_low Props.cfp_south
           (Ontology.body Props.cfp_south) _ H).
Defined.

Lemma tram_bid_ignores_fuel_witness :
  Vehicle.is_tram Props.tram_1 = true
  /\ Vehicle.handle_cfp Props.cfp_south (Ontology.body Props.cfp_south)
       (Vehicle.set_fuel_level (PyFloat.of_int 0) Props.tram_1)
     = Extra.map_state (Vehicle.set_fuel_level (PyFloat.of_int 0))
         (Vehicle.handle_cfp Props.cfp_south (Ontology.body Props.cfp_south)
            Props.tram_1).
Proof.
  assert (H : Vehicle.is_tram Props.tram_1 = true) by (vm_compute; reflexivity).
  split; [exact H |].
  exact (tram_bid_ignores_fuel Props.tram_1 Props.cfp_south
           (Ontology.body Props.cfp_south) (PyFloat.of_int 0) H).
Defined.

(** ** The vehicle: committing an award *)

Section Commit.
Import PyFloat CityMap Ontology Vehicle Props Extra.

Lemma mem_In (x : node) (l : list node) : mem x l = true <-> In x l.
Proof.
  unfold mem. rewrite existsb_exists. split.
  - intros (y & Hy & E). apply String.eqb_eq in E. now subst.
  - intros H. exists x. split; [exact H | apply String.eqb_refl].
Qed.

Lemma last_waypoint_In (l : list node) (w : node) :
  last_waypoint l = Some w -> In w l.
Proof.
  unfold last_waypoint. induction l as [| a [| b l] IH]; simpl; intros H.
  - discriminate.
  - inversion H. now left.
  - right. now apply IH.
Qed.

Lemma handle_acceptance_commit (a : VehicleAgent) (msg : Message)
    (content : Content) (t : string) (b : PendingBid) :
  load a < capacity a ->
  thread msg = Some t ->
  pending_bids a !! t = Some b ->
  handle_acceptance msg content a
  = Ok (tt,
        set_pending_bids (delete t (pending_bids a))
          (set_waypoints
             (queue_after_award (current_location a) (b_origin b) (b_dest b)
                                (waypoints a))
             (set_manifest
                (manifest a ++ [mkPassenger (passenger_of content) (b_dest b)]) a)),
        []).
Proof.
  intros Hroom Ht Hb. apply (is_full_false a) in Hroom.
  cbv beta iota delta [handle_acceptance bind get when modify ret].
  rewrite Hroom, Ht, Hb. cbn [b_origin b_dest]. fold (passenger_of content).
  unfold queue_after_award.
  destruct (negb (String.eqb (current_location a) (b_origin b))); cbn [andb];
    [destruct (last_waypoint (waypoints a)) as [w |];
       [destruct (negb (String.eqb w (b_origin b))) |] |];
    cbn -[mem last_waypoint];
    match goal with
    | |- context [mem ?d ?l] => destruct (mem d l)
    end; reflexivity.
Qed.

Lemma queue_after_award_spec (location origin dest : node) (queue : list node) :
  In dest (queue_after_award location origin dest queue)
  /\ (location = origin \/ In origin (queue_after_award location origin dest queue))
  /\ incl queue (queue_after_award location origin dest queue).
Proof.
  unfold queue_after_award.
  set (with_origin :=
         if negb (String.eqb location origin)
            && match last_waypoint queue with
               | None => true
               | Some w => negb (String.eqb w origin)
               end
         then origin :: queue else queue).
  assert (Horigin : location = origin \/ In origin with_origin).
  { subst with_origin.
    destruct (String.eqb_spec location origin) as [E | _]; [now left | right].
    simpl. destruct (last_waypoint queue) as [w |] eqn:Hlast; [| now left].
    destruct (String.eqb_spec w origin) as [-> | _]; simpl; [| now left].
    now apply last_waypoint_In. }
  assert (Hincl : incl queue with_origin).
  { subst with_origin. destruct (_ && _); [apply incl_tl |]; apply incl_refl. }
  destruct (mem dest with_origin) eqn:Hd.
  - split; [now apply mem_In | now split].
  - split; [apply in_or_app; right; now left |]. split.
    + destruct Horigin; [now left | right; apply in_or_app; now left].
    + intros x Hx. apply in_or_app. left. now apply Hincl.
Qed.

(** X7.  An award for a session with a pending bid, received with room
    aboard, commits the trip: the passenger is appended to the manifest with
    the destination of the bid, the bid leaves the table, nothing is sent,
    the destination is in the waypoint queue, the origin is too unless the
    vehicle is standing there, and every waypoint queued before still is. *)
Theorem award_commits_bid (a : VehicleAgent) (msg : Message) (content : Content)
    (t : string) (b : PendingBid) :
  load a < capacity a ->
  thread msg = Some t ->
  pending_bids a !! t = Some b ->
  exists a',
    handle_acceptance msg content a = Ok (tt, a', [])
    /\ manifest a' = manifest a ++ [mkPassenger (passenger_of content) (b_dest b)]
    /\ pending_bids a' = delete t (pending_bids a)
    /\ In (b_dest b) (waypoints a')
    /\ (current_location a = b_origin b \/ In (b_origin b) (waypoints a'))
    /\ incl (waypoints a) (waypoints a')
    /\ current_location a' = current_location a
    /\ fuel_level a' = fuel_level a.
Proof.
  intros Hroom Ht Hb. eexists.
  split; [now apply (handle_acceptance_commit a msg content t b) |]. simpl.
  destruct (queue_after_award_spec (current_location a) (b_origin b) (b_dest b)
              (waypoints a)) as (H1 & H2 & H3).
  repeat split; assumption.
Qed.

(** X8.  Double booking.  With one seat left and bids pending for two
    different sessions, the first award takes the seat and the second is
    refused with [capacity_full_error]; the bid of the refused session stays
    in the table. *)
Theorem second_award_is_refused (a : VehicleAgent) (m1 m2 : Message)
    (c1 c2 : Content) (t1 t2 : string) (b1 b2 : PendingBid) :
  load a + 1 = capacity a ->
  thread m1 = Some t1 ->
  thread m2 = Some t2 ->
  t1 <> t2 ->
  pending_bids a !! t1 = Some b1 ->
  pending_bids a !! t2 = Some b2 ->
  exists a1,
    handle_acceptance m1 c1 a = Ok (tt, a1, [])
    /\ load a1 = capacity a1
    /\ handle_acceptance m2 c2 a1
       = Ok (tt, a1, [make_reply m2 REFUSE (reason "capacity_full_error")])
    /\ pending_bids a1 !! t1 = None
    /\ pending_bids a1 !! t2 = Some b2.
Proof.
  intros Hseat Ht1 Ht2 Hne Hb1 Hb2.
  assert (Hroom : load a < capacity a) by lia.
  pose proof (handle_acceptance_commit a m1 c1 t1 b1 Hroom Ht1 Hb1) as Hrun.
  eexists. split; [exact Hrun |]. split; [| split; [| split]].
  - unfold load in *. simpl. rewrite length_app. simpl. lia.
  - apply handle_acceptance_full. unfold load in *. simpl.
    rewrite length_app. simpl. lia.
  - simpl. apply lookup_delete_eq.
  - simpl. rewrite lookup_delete_ne; [exact Hb2 | exact Hne].
Qed.

End Commit.

Lemma award_commits_bid_witness :
  Props.load Extra.bus_1_one_seat < Vehicle.capacity Extra.bus_1_one_seat
  /\ Ontology.thread (Props.award "s5" "p9") = Some "s5"%string
  /\ Vehicle.pending_bids Extra.bus_1_one_seat !! "s5"
     = Some (Vehicle.mkBid "South" "Airport" (PyFloat.of_int 5))
  /\ exists a',
      Vehicle.handle_acceptance (Props.award "s5" "p9") (Ontology.passenger_id "p9")
        Extra.bus_1_one_seat = Ok (tt, a', [])
      /\ Vehicle.manifest a'
         = Vehicle.manifest Extra.bus_1_one_seat
           ++ [Vehicle.mkPassenger (Extra.passenger_of (Ontology.passenger_id "p9"))
                 (Vehicle.b_dest (Vehicle.mkBid "South" "Airport" (PyFloat.of_int 5)))]
      /\ Vehicle.pending_bids a'
         = delete "s5" (Vehicle.pending_bids Extra.bus_1_one_seat)
      /\ In (Vehicle.b_dest (Vehicle.mkBid "South" "Airport" (PyFloat.of_int 5)))
            (Vehicle.waypoints a')
      /\ (Vehicle.current_location Extra.bus_1_one_seat
          = Vehicle.b_origin (Vehicle.mkBid "South" "Airport" (PyFloat.of_int 5))
          \/ In (Vehicle.b_origin (Vehicle.mkBid "South" "Airport" (PyFloat.of_int 5)))
                (Vehicle.waypoints a'))
      /\ incl (Vehicle.waypoints Extra.bus_1_one_seat) (Vehicle.waypoints a')
      /\ Vehicle.current_location a' = Vehicle.current_location Extra.bus_1_one_seat
      /\ Vehicle.fuel_level a' = Vehicle.fuel_level Extra.bus_1_one_seat.
Proof.
  assert (H1 : Props.load Extra.bus_1_one_seat < Vehicle.capacity Extra.bus_1_one_seat)
    by (vm_compute; reflexivity).
  assert (H2 : Ontology.thread (Props.award "s5" "p9") = Some "s5"%string)
    by reflexivity.
  assert (H3 : Vehicle.pending_bids Extra.bus_1_one_seat !! "s5"
               = Some (Vehicle.mkBid "South" "Airport" (PyFloat.of_int 5)))
    by (vm_compute; reflexivity).
  split; [exact H1 |]. split; [exact H2 |]. split; [exact H3 |].
  exact (award_commits_bid Extra.bus_1_one_seat (Props.award "s5" "p9")
           (Ontology.passenger_id "p9") "s5" _ H1 H2 H3).
Defined.

Lemma second_award_is_refused_witness :
  Props.load Extra.bus_1_one_seat + 1 = Vehicle.capacity Extra.bus_1_one_seat
  /\ "s5"%string <> "s6"%string
  /\ Vehicle.pending_bids Extra.bus_1_one_seat !! "s5"
     = Some (Vehicle.mkBid "South" "Airport" (PyFloat.of_int 5))
  /\ Vehicle.pending_bids Extra.bus_1_one_seat !! "s6"
     = Some (Vehicle.mkBid "South" "Central" (PyFloat.of_int 3))
  /\ exists a1,
      Vehicle.handle_acceptance (Props.award "s5" "p9") (Ontology.passenger_id "p9")
        Extra.bus_1_one_seat = Ok (tt, a1, [])
      /\ Props.load a1 = Vehicle.capacity a1
      /\ Vehicle.handle_acceptance (Props.award "s6" "p8") (Ontology.passenger_id "p8") a1
         = Ok (tt, a1, [Ontology.make_reply (Props.award "s6" "p8") Ontology.REFUSE
                          (Ontology.reason "capacity_full_error")])
      /\ Vehicle.pending_bids a1 !! "s5" = None
      /\ Vehicle.pending_bids a1 !! "s6"
         = Some (Vehicle.mkBid "South" "Central" (PyFloat.of_int 3)).
Proof.
  assert (H1 : Props.load Extra.bus_1_one_seat + 1
               = Vehicle.capacity Extra.bus_1_one_seat) by (vm_compute; reflexivity).
  assert (H2 : "s5"%string <> "s6"%string) by discriminate.
  assert (H3 : Vehicle.pending_bids Extra.bus_1_one_seat !! "s5"
               = Some (Vehicle.mkBid "South" "Airport" (PyFloat.of_int 5)))
    by (vm_compute; reflexivity).
  assert (H4 : Vehicle.pending_bids Extra.bus_1_one_seat !! "s6"
               = Some (Vehicle.mkBid "South" "Central" (PyFloat.of_int 3)))
    by (vm_compute; reflexivity).
  split; [exact H1 |]. split; [exact H2 |]. split; [exact H3 |]. split; [exact H4 |].
  exact (second_award_is_refused Extra.bus_1_one_seat (Props.award "s5" "p9")
           (Props.award "s6" "p8") (Ontology.passenger_id "p9")
           (Ontology.passenger_id "p8") "s5" "s6" _ _ H1 eq_refl eq_refl H2 H3 H4).
Defined.

(** ** Station and vehicle: one negotiation from call to commitment *)

Section Protocol.
Import PyFloat CityMap Ontology Props Extra.

(** What a proposal tells about the run of [handle_cfp] that sent it. *)
Lemma proposal_shape (a a1 : Vehicle.VehicleAgent) (msg r : Message)
    (origin destination : node) (n : Z) :
  Vehicle.handle_cfp msg (ride_request origin destination n) a = Ok (tt, a1, [r]) ->
  performative r = PROPOSE ->
  Vehicle.is_full a = false
  /\ exists eta cap route fuel,
      r = make_reply msg PROPOSE (bid (Vehicle.jid a) eta cap route)
      /\ a1 = match thread msg with
              | Some t =>
                  if String.eqb t ""
                  then a
                  else Vehicle.set_pending_bids
                         (<[t := Vehicle.mkBid origin destination fuel]>
                            (Vehicle.pending_bids a)) a
              | None => a
              end.
Proof.
  intros Hrun Hprop. unfold Vehicle.handle_cfp in Hrun.
  repeat step_method Hrun; try discriminate; inversion Hrun; subst;
    simpl in Hprop; try discriminate.
  all: split; [reflexivity |].
  all: eexists _, _, _, _; (split; [reflexivity |]).
  all: repeat match goal with
              | H : thread _ = _ |- _ => rewrite H
              end.
  all: repeat match goal with
              | H : negb (String.eqb ?t "") = _ |- _ =>
                  destruct (String.eqb t ""); try discriminate H
              end.
  all: try reflexivity.
  Unshelve. all: exact (of_int 0).
Qed.

(** X9.  A negotiation, end to end.  When a vehicle answers the call of a
    session (with a non-empty conversation id) by a proposal, the session
    collects that proposal; if it is the only one, the session awards it
    and tells the passenger its ETA; and the vehicle, on that award, takes
    the session's passenger aboard for the session's destination, clears the
    bid and has the destination, and the station unless it stands there, in
    its waypoint queue. *)
Theorem negotiation_round_trip
    (st : Station.StationAgent) (c : Station.CNPManager)
    (a a1 : Vehicle.VehicleAgent) (r : Message) :
  Station.conversation_id c <> ""%string ->
  In (Vehicle.jid a) (Station.known_vehicles st) ->
  Vehicle.dispatch (cfp_to st c (Vehicle.jid a)) a = Ok (tt, a1, [r]) ->
  performative r = PROPOSE ->
  In (cfp_to st c (Vehicle.jid a)) (Station.broadcast_cfp st c)
  /\ exists eta o a2,
      Station.collect c [r] = Ok [(r, eta)]
      /\ Station.conclude st c [(r, eta)] = Ok o
      /\ Station.sent o
         = [award_for c r;
            create_message (Station.jid st) (Station.passenger_jid c) INFORM
                           (vehicle_found eta) None]
      /\ to (award_for c r) = Vehicle.jid a
      /\ Vehicle.dispatch (award_for c r) a1 = Ok (tt, a2, [])
      /\ Vehicle.manifest a2
         = Vehicle.manifest a
           ++ [Vehicle.mkPassenger (Station.passenger_jid c) (Station.destination c)]
      /\ Vehicle.pending_bids a2 !! Station.conversation_id c = None
      /\ In (Station.destination c) (Vehicle.waypoints a2)
      /\ (Vehicle.current_location a = Station.location st
          \/ In (Station.location st) (Vehicle.waypoints a2)).
Proof.
  intros Hcid Hknown Hrun Hprop.
  split.
  { unfold Station.broadcast_cfp. apply in_map_iff.
    exists (Vehicle.jid a). split; [reflexivity | exact Hknown]. }
  change (Vehicle.dispatch (cfp_to st c (Vehicle.jid a)) a)
    with (Vehicle.handle_cfp (cfp_to st c (Vehicle.jid a))
            (ride_request (Station.location st) (Station.destination c) 1) a)
    in Hrun.
  destruct (proposal_shape _ _ _ _ _ _ _ Hrun Hprop)
    as (Hroom & eta & cap & route & fuel & -> & Ha1).
  assert (Hthread : thread (cfp_to st c (Vehicle.jid a))
                    = Some (Station.conversation_id c)).
  { unfold cfp_to, create_message. simpl.
    destruct (String.eqb_spec (Station.conversation_id c) ""); [contradiction |].
    reflexivity. }
  rewrite Hthread in Ha1.
  destruct (String.eqb_spec (Station.conversation_id c) ""); [contradiction |].
  subst a1. clear Hrun.
  set (cfp := cfp_to st c (Vehicle.jid a)) in *.
  set (a1 := Vehicle.set_pending_bids _ a).
  assert (Hcommit :
    Vehicle.handle_acceptance
      (award_for c (make_reply cfp PROPOSE (bid (Vehicle.jid a) eta cap route)))
      (passenger_id (Station.passenger_jid c)) a1
    = Ok (tt,
          Vehicle.set_pending_bids
            (delete (Station.conversation_id c) (Vehicle.pending_bids a1))
            (Vehicle.set_waypoints
               (queue_after_award (Vehicle.current_location a1)
                  (Station.location st) (Station.destination c)
                  (Vehicle.waypoints a1))
               (Vehicle.set_manifest
                  (Vehicle.manifest a1
                   ++ [Vehicle.mkPassenger (Station.passenger_jid c)
                         (Station.destination c)]) a1)),
          [])).
  { apply (handle_acceptance_commit a1 _ (passenger_id (Station.passenger_jid c))
             (Station.conversation_id c)
             (Vehicle.mkBid (Station.location st) (Station.destination c) fuel)).
    - apply (is_full_false a1). exact Hroom.
    - exact Hthread.
    - subst a1. simpl. apply lookup_insert_eq. }
  exists eta. eexists. eexists.
  split.
  { unfold Station.collect.
    change (thread (make_reply cfp PROPOSE (bid (Vehicle.jid a) eta cap route)))
      with (thread cfp).
    rewrite Hthread, String.eqb_refl. reflexivity. }
  split; [reflexivity |]. split; [reflexivity |]. split; [reflexivity |].
  split; [exact Hcommit |]. simpl.
  destruct (queue_after_award_spec (Vehicle.current_location a)
              (Station.location st) (Station.destination c) (Vehicle.waypoints a))
    as (H1 & H2 & _).
  split; [reflexivity |]. split; [apply lookup_delete_eq |]. split; assumption.
Qed.

End Protocol.

Lemma negotiation_round_trip_witness :
  Station.conversation_id Props.cnp_south <> ""%string
  /\ In (Vehicle.jid Props.bus_1) (Station.known_vehicles Props.st_south_waiting)
  /\ Vehicle.dispatch
       (Extra.cfp_to Props.st_south_waiting Props.cnp_south (Vehicle.jid Props.bus_1))
       Props.bus_1
     = Ok (tt, Extra.bus_1_after_bid, [Extra.bus_1_proposal])
  /\ Ontology.performative Extra.bus_1_proposal = Ontology.PROPOSE
  /\ In (Extra.cfp_to Props.st_south_waiting Props.cnp_south (Vehicle.jid Props.bus_1))
        (Station.broadcast_cfp Props.st_south_waiting Props.cnp_south)
  /\ exists eta o a2,
      Station.collect Props.cnp_south [Extra.bus_1_proposal]
      = Ok [(Extra.bus_1_proposal, eta)]
      /\ Station.conclude Props.st_south_waiting Props.cnp_south
           [(Extra.bus_1_proposal, eta)] = Ok o
      /\ Station.sent o
         = [Extra.award_for Props.cnp_south Extra.bus_1_proposal;
            Ontology.create_message (Station.jid Props.st_south_waiting)
              (Station.passenger_jid Props.cnp_south) Ontology.INFORM
              (Ontology.vehicle_found eta) None]
      /\ Ontology.to (Extra.award_for Props.cnp_south Extra.bus_1_proposal)
         = Vehicle.jid Props.bus_1
      /\ Vehicle.dispatch (Extra.award_for Props.cnp_south Extra.bus_1_proposal)
           Extra.bus_1_after_bid = Ok (tt, a2, [])
      /\ Vehicle.manifest a2
         = Vehicle.manifest Props.bus_1
           ++ [Vehicle.mkPassenger (Station.passenger_jid Props.cnp_south)
                 (Station.destination Props.cnp_south)]
      /\ Vehicle.pending_bids a2 !! Station.conversation_id Props.cnp_south = None
      /\ In (Station.destination Props.cnp_south) (Vehicle.waypoints a2)
      /\ (Vehicle.current_location Props.bus_1
          = Station.location Props.st_south_waiting
          \/ In (Station.location Props.st_south_waiting) (Vehicle.waypoints a2)).
Proof.
  assert (H1 : Station.conversation_id Props.cnp_south <> ""%string) by discriminate.
  assert (H2 : In (Vehicle.jid Props.bus_1)
                  (Station.known_vehicles Props.st_south_waiting))
    by (vm_compute; tauto).
  assert (H3 : Vehicle.dispatch
                 (Extra.cfp_to Props.st_south_waiting Props.cnp_south
                    (Vehicle.jid Props.bus_1)) Props.bus_1
               = Ok (tt, Extra.bus_1_after_bid, [Extra.bus_1_proposal]))
    by (vm_compute; reflexivity).
  assert (H4 : Ontology.performative Extra.bus_1_proposal = Ontology.PROPOSE)
    by reflexivity.
  split; [exact H1 |]. split; [exact H2 |]. split; [exact H3 |]. split; [exact H4 |].
  exact (negotiation_round_trip Props.st_south_waiting Props.cnp_south
           Props.bus_1 Extra.bus_1_after_bid Extra.bus_1_proposal H1 H2 H3 H4).
Defined.

(** ** The vehicle: stops, refuelling and repairs *)

Section Service.
Import PyFloat CityMap Ontology Vehicle Props Extra.

Lemma nobody_leaves (location : node) (l : list Passenger) :
  (0 <? Z.of_nat (length (List.filter (fun p => String.eqb (p_dest p) location) l)))
  = false ->
  List.filter (fun p => negb (String.eqb (p_dest p) location)) l = l.
Proof.
  induction l as [| p l IH]; simpl; [reflexivity |].
  destruct (String.eqb (p_dest p) location); simpl.
  - intros H. apply Z.ltb_ge in H. lia.
  - intros H. now rewrite IH.
Qed.

(** X10.  A stop that is not the depot sets down exactly the passengers
    bound for it: the others stay aboard in their order, the vehicle stays
    where it is with the fuel it had, and the waypoint queue is unchanged
    or gets the depot appended. *)
Theorem stop_sets_down_passengers (location : node) (a a' : VehicleAgent)
    (out : list Message) :
  location <> "GasStation"%string ->
  process_stop location a = Ok (tt, a', out) ->
  manifest a'
  = List.filter (fun p => negb (String.eqb (p_dest p) location)) (manifest a)
  /\ (forall p, In p (manifest a') -> p_dest p <> location)
  /\ current_location a' = current_location a
  /\ fuel_level a' = fuel_level a
  /\ is_refueling a' = is_refueling a
  /\ (waypoints a' = waypoints a
      \/ waypoints a' = waypoints a ++ ["GasStation"%string]).
Proof.
  intros Hloc Hrun.
  assert (Hgone : forall p,
            In p (List.filter (fun p => negb (String.eqb (p_dest p) location))
                              (manifest a)) ->
            p_dest p <> location).
  { intros p Hin. apply filter_In in Hin as [_ Hp].
    destruct (String.eqb_spec (p_dest p) location); [discriminate | assumption]. }
  assert (Hfilter :
    manifest a'
    = List.filter (fun p => negb (String.eqb (p_dest p) location)) (manifest a)
    /\ current_location a' = current_location a
    /\ fuel_level a' = fuel_level a
    /\ is_refueling a' = is_refueling a
    /\ (waypoints a' = waypoints a
        \/ waypoints a' = waypoints a ++ ["GasStation"%string])).
  { unfold process_stop in Hrun.
    apply String.eqb_neq in Hloc.
    cbv beta iota delta [bind get] in Hrun. rewrite Hloc in Hrun.
    repeat step_method Hrun; try discriminate; inversion Hrun; subst;
      try match goal with
          | H : manifest _ = _ :: _ |- _ => rewrite <- H in *
          end;
      cbn [manifest current_location fuel_level is_refueling waypoints
           set_manifest set_waypoints];
      repeat match goal with
             | H : (0 <? _) = false |- _ => apply nobody_leaves in H; rewrite H
             end;
      repeat split; auto. }
  destruct Hfilter as (Hm & Hrest). split; [exact Hm |].
  split; [rewrite Hm; exact Hgone | exact Hrest].
Qed.

Lemma idle_cycle_out_of_service (a : VehicleAgent) (fault : bool) :
  is_broken a || is_refueling a = true ->
  run None fault a = Ok (tt, a, []).
Proof.
  intros H. cbv beta iota delta [run patrol bind get when ret].
  destruct (is_broken a) eqn:Hb; [simpl; rewrite Hb; reflexivity |].
  destruct (is_refueling a) eqn:Hr; [| discriminate].
  simpl. rewrite Hb, Hr. reflexivity.
Qed.

(** X11.  Refuelling, end to end.  At the depot the vehicle asks for
    [100 - fuel_level] and waits; while it waits a cycle without a message
    does nothing; the gas station answers that one request with one reply
    addressed to the vehicle; and on that reply the vehicle has a full tank,
    is in service again at the depot, with the manifest and the waypoint
    queue it had.  Nobody is set down at the depot. *)
Theorem refuel_round_trip (a : VehicleAgent) (fault : bool) :
  exists req reply a2 out,
    process_stop "GasStation" a = Ok (tt, set_is_refueling true a, [req])
    /\ to req = gas_station_jid a
    /\ performative req = REQUEST
    /\ body req = refuel_request (sub (of_int 100) (fuel_level a))
    /\ run None fault (set_is_refueling true a)
       = Ok (tt, set_is_refueling true a, [])
    /\ GasStation.serve req = [reply]
    /\ to reply = jid a
    /\ dispatch reply (set_is_refueling true a) = Ok (tt, a2, out)
    /\ fuel_level a2 = of_int 100
    /\ is_refueling a2 = false
    /\ current_location a2 = "GasStation"%string
    /\ manifest a2 = manifest a
    /\ waypoints a2 = waypoints a.
Proof.
  eexists _, _.
  destruct (String.eqb (dashboard_jid a) "") eqn:Hdash.
  - eexists _, _. split; [reflexivity |]. split; [reflexivity |].
    split; [reflexivity |]. split; [reflexivity |].
    split.
    { apply idle_cycle_out_of_service. simpl. apply orb_true_r. }
    split; [reflexivity |]. split; [reflexivity |].
    split.
    { cbv beta iota delta [dispatch process_service_message bind get modify
                           send_status_update ret]. simpl. rewrite Hdash.
      reflexivity. }
    simpl. tauto.
  - eexists _, _. split; [reflexivity |]. split; [reflexivity |].
    split; [reflexivity |]. split; [reflexivity |].
    split.
    { apply idle_cycle_out_of_service. simpl. apply orb_true_r. }
    split; [reflexivity |]. split; [reflexivity |].
    split.
    { cbv beta iota delta [dispatch process_service_message bind get modify
                           send_status_update ret send]. simpl. rewrite Hdash.
      reflexivity. }
    simpl. tauto.
Qed.

Lemma job_eqb_refl (j : Maintenance.RepairJob) : Maintenance.job_eqb j j = true.
Proof. unfold Maintenance.job_eqb. now rewrite !String.eqb_refl. Qed.

Lemma in_service_existsb (j : Maintenance.RepairJob)
    (l : list Maintenance.RepairJob) :
  In j l -> existsb (fun k => Maintenance.job_eqb k j) l = true.
Proof.
  intros H. apply existsb_exists. exists j. split; [exact H | apply job_eqb_refl].
Qed.

(** X12.  A breakdown, end to end.  [trigger_breakdown] marks the vehicle
    broken and ends by reporting to the workshop; the dispatcher turns the
    report into a job for that vehicle and issue; when that job is in
    service and finishes, the workshop replies to the vehicle; and on that
    reply the vehicle is in service again where it stood, with a full tank
    exactly when the issue was [no_fuel] and its old fuel level otherwise. *)
Theorem breakdown_repair_round_trip (a : VehicleAgent) (issue : string)
    (w : Maintenance.Workshop) :
  In (Maintenance.mkJob (jid a) (jid a) issue) (Maintenance.in_service w) ->
  exists a1 status alert w' reply a2 out,
    trigger_breakdown issue a = Ok (tt, a1, status ++ [alert])
    /\ is_broken a1 = true
    /\ to alert = maintenance_jid a
    /\ Dispatcher.run alert = Some (Maintenance.mkJob (jid a) (jid a) issue)
    /\ Maintenance.step w (Maintenance.Finish
                             (Maintenance.mkJob (jid a) (jid a) issue))
       = Some (w', [reply])
    /\ to reply = jid a
    /\ dispatch reply a1 = Ok (tt, a2, out)
    /\ is_broken a2 = false
    /\ fuel_level a2
       = (if String.eqb issue "no_fuel" then of_int 100 else fuel_level a)
    /\ current_location a2 = current_location a
    /\ manifest a2 = manifest a
    /\ waypoints a2 = waypoints a.
Proof.
  intros Hin. apply in_service_existsb in Hin.
  unfold Maintenance.step. rewrite Hin.
  destruct (String.eqb (dashboard_jid a) "") eqn:Hdash.
  - exists (set_is_broken true a), [].
    destruct (String.eqb issue "no_fuel") eqn:Hissue;
      destruct (Maintenance.waiters w); eexists _, _, _, _, _;
      (split;
       [cbv beta iota delta [trigger_breakdown bind get modify send
                             send_status_update ret];
        simpl; rewrite Hdash; reflexivity |]);
      (split; [reflexivity |]); (split; [reflexivity |]);
      (split; [reflexivity |]); (split; [reflexivity |]);
      (split; [reflexivity |]);
      (split;
       [cbv beta iota delta [dispatch process_service_message bind get modify
                             send_status_update ret when Maintenance.repaired_reply];
        simpl; rewrite ?Hissue; simpl; rewrite Hdash; reflexivity |]);
      simpl; tauto.
  - eexists (set_is_broken true a), [_].
    destruct (String.eqb issue "no_fuel") eqn:Hissue;
      destruct (Maintenance.waiters w); eexists _, _, _, _, _;
      (split;
       [cbv beta iota delta [trigger_breakdown bind get modify send
                             send_status_update ret];
        simpl; rewrite Hdash; reflexivity |]);
      (split; [reflexivity |]); (split; [reflexivity |]);
      (split; [reflexivity |]); (split; [reflexivity |]);
      (split; [reflexivity |]);
      (split;
       [cbv beta iota delta [dispatch process_service_message bind get modify
                             send_status_update ret when send
                             Maintenance.repaired_reply];
        simpl; rewrite ?Hissue; simpl; rewrite Hdash; reflexivity |]);
      simpl; tauto.
Qed.

End Service.

Lemma stop_sets_down_passengers_witness :
  "Central"%string <> "GasStation"%string
  /\ Vehicle.process_stop "Central" Extra.bus_1_one_seat
     = Ok (tt,
           Vehicle.set_manifest [Vehicle.mkPassenger "p2" "North"]
             Extra.bus_1_one_seat,
           [Ontology.create_message "pedro_bus_1@jabb.im"
              "pedro_dashboard@jabb.im" Ontology.INFORM
              (Ontology.status_update "pedro_bus_1@jabb.im" "South" "idle" 1
                 (PyFloat.of_int 100))
              None])
  /\ Vehicle.manifest
       (Vehicle.set_manifest [Vehicle.mkPassenger "p2" "North"]
          Extra.bus_1_one_seat)
     = List.filter
         (fun p => negb (String.eqb (Vehicle.p_dest p) "Central"))
         (Vehicle.manifest Extra.bus_1_one_seat).
Proof.
  assert (H1 : "Central"%string <> "GasStation"%string) by discriminate.
  assert (H2 : Vehicle.process_stop "Central" Extra.bus_1_one_seat
               = Ok (tt,
                     Vehicle.set_manifest [Vehicle.mkPassenger "p2" "North"]
                       Extra.bus_1_one_seat,
                     [Ontology.create_message "pedro_bus_1@jabb.im"
                        "pedro_dashboard@jabb.im" Ontology.INFORM
                        (Ontology.status_update "pedro_bus_1@jabb.im" "South"
                           "idle" 1 (PyFloat.of_int 100))
                        None]))
    by (vm_compute; reflexivity).
  split; [exact H1 |]. split; [exact H2 |].
  exact (proj1 (stop_sets_down_passengers "Central" _ _ _ H1 H2)).
Defined.

Lemma breakdown_repair_round_trip_witness :
  In (Maintenance.mkJob (Vehicle.jid Props.bus_1) (Vehicle.jid Props.bus_1)
        "no_fuel")
     (Maintenance.in_service
        (Maintenance.mkWorkshop "pedro_mechanic@jabb.im" 2 1 []
           [Props.job "pedro_bus_1@jabb.im" "no_fuel"]))
  /\ exists a1 status alert w' reply a2 out,
      Vehicle.trigger_breakdown "no_fuel" Props.bus_1
      = Ok (tt, a1, status ++ [alert])
      /\ Vehicle.is_broken a1 = true
      /\ Ontology.to alert = Vehicle.maintenance_jid Props.bus_1
      /\ Dispatcher.run alert
         = Some (Maintenance.mkJob (Vehicle.jid Props.bus_1)
                   (Vehicle.jid Props.bus_1) "no_fuel")
      /\ Maintenance.step
           (Maintenance.mkWorkshop "pedro_mechanic@jabb.im" 2 1 []
              [Props.job "pedro_bus_1@jabb.im" "no_fuel"])
           (Maintenance.Finish
              (Maintenance.mkJob (Vehicle.jid Props.bus_1)
                 (Vehicle.jid Props.bus_1) "no_fuel"))
         = Some (w', [reply])
      /\ Ontology.to reply = Vehicle.jid Props.bus_1
      /\ Vehicle.dispatch reply a1 = Ok (tt, a2, out)
      /\ Vehicle.is_broken a2 = false
      /\ Vehicle.fuel_level a2
         = (if String.eqb "no_fuel" "no_fuel" then PyFloat.of_int 100
            else Vehicle.fuel_level Props.bus_1)
      /\ Vehicle.current_location a2 = Vehicle.current_location Props.bus_1
      /\ Vehicle.manifest a2 = Vehicle.manifest Props.bus_1
      /\ Vehicle.waypoints a2 = Vehicle.waypoints Props.bus_1.
Proof.
  assert (H1 : In (Maintenance.mkJob (Vehicle.jid Props.bus_1)
                     (Vehicle.jid Props.bus_1) "no_fuel")
                  (Maintenance.in_service
                     (Maintenance.mkWorkshop "pedro_mechanic@jabb.im" 2 1 []
                        [Props.job "pedro_bus_1@jabb.im" "no_fuel"])))
    by (vm_compute; tauto).
  split; [exact H1 |].
  exact (breakdown_repair_round_trip Props.bus_1 "no_fuel" _ H1).
Defined.

(** ** The vehicle loop raises nothing *)

Section Runs.
Import PyFloat CityMap Ontology Vehicle Props Extra.

Context {A B : Type}.

Lemma runs_ret (x : A) (a : VehicleAgent) (Q : A -> VehicleAgent -> Prop) :
  Q x a -> runs (ret x) a Q.
Proof. intros H. exists x, a, []. auto. Qed.

Lemma runs_seq (m : Beh A) (k : A -> Beh B) (a : VehicleAgent)
    (P : A -> VehicleAgent -> Prop) (Q : B -> VehicleAgent -> Prop) :
  runs m a P ->
  (forall x a1, P x a1 -> runs (k x) a1 Q) ->
  runs (bind m k) a Q.
Proof.
  intros (x & a1 & out1 & Hm & HP) Hk.
  destruct (Hk x a1 HP) as (y & a2 & out2 & Hk' & HQ).
  exists y, a2, (out1 ++ out2). unfold bind. rewrite Hm, Hk'. auto.
Qed.

Lemma runs_bind (m : Beh A) (k : A -> Beh B) (a : VehicleAgent)
    (Q : B -> VehicleAgent -> Prop) :
  runs m a (fun x a1 => runs (k x) a1 Q) -> runs (bind m k) a Q.
Proof. intros H. apply (runs_seq m k a _ Q H). auto. Qed.

Lemma runs_lift (r : result A) (x : A) (a : VehicleAgent)
    (Q : A -> VehicleAgent -> Prop) :
  r = Ok x -> Q x a -> runs (lift r) a Q.
Proof. intros -> H. exists x, a, []. auto. Qed.

Lemma runs_mono (m : Beh A) (a : VehicleAgent) (P Q : A -> VehicleAgent -> Prop) :
  runs m a P -> (forall x a', P x a' -> Q x a') -> runs m a Q.
Proof. intros (x & a' & out & Hm & HP) H. exists x, a', out. auto. Qed.

End Runs.

Section Safety.
Import PyFloat CityMap Ontology Vehicle Props Extra.

Lemma runs_get (a : VehicleAgent) (Q : VehicleAgent -> VehicleAgent -> Prop) :
  Q a a -> runs get a Q.
Proof. intros H. exists a, a, []. auto. Qed.

Lemma runs_modify (f : VehicleAgent -> VehicleAgent) (a : VehicleAgent)
    (Q : unit -> VehicleAgent -> Prop) :
  Q tt (f a) -> runs (modify f) a Q.
Proof. intros H. exists tt, (f a), []. auto. Qed.

Lemma runs_send (m : Message) (a : VehicleAgent)
    (Q : unit -> VehicleAgent -> Prop) :
  Q tt a -> runs (send m) a Q.
Proof. intros H. exists tt, a, [m]. auto. Qed.

Lemma runs_when (b : bool) (m : Beh unit) (a : VehicleAgent)
    (Q : unit -> VehicleAgent -> Prop) :
  (b = true -> runs m a Q) -> (b = false -> Q tt a) -> runs (when b m) a Q.
Proof.
  intros Ht Hf. destruct b; simpl; [now apply Ht | now apply runs_ret, Hf].
Qed.

Lemma runs_send_status_update (status : string) (a : VehicleAgent)
    (Q : unit -> VehicleAgent -> Prop) :
  Q tt a -> runs (send_status_update status) a Q.
Proof.
  intros H. unfold send_status_update. apply runs_bind, runs_get.
  destruct (String.eqb (dashboard_jid a) ""); [now apply runs_ret | now apply runs_send].
Qed.

Lemma runs_trigger_breakdown (issue_type : string) (a : VehicleAgent)
    (Q : unit -> VehicleAgent -> Prop) :
  Q tt (set_is_broken true a) -> runs (trigger_breakdown issue_type) a Q.
Proof.
  intros H. unfold trigger_breakdown.
  apply runs_bind, runs_modify, runs_bind, runs_send_status_update,
    runs_bind, runs_get, runs_send, H.
Qed.

Lemma runs_go_to_gas_station (a : VehicleAgent)
    (Q : unit -> VehicleAgent -> Prop) :
  Q tt a ->
  Q tt (set_waypoints (waypoints a ++ ["GasStation"%string]) a) ->
  runs go_to_gas_station a Q.
Proof.
  intros H1 H2. unfold go_to_gas_station. apply runs_bind, runs_get.
  destruct (_ || _); [now apply runs_ret | now apply runs_modify].
Qed.

(** *** What keeps a vehicle roadworthy *)

Lemma roadworthy_manifest (a : VehicleAgent) (l : list Passenger) :
  roadworthy a -> roadworthy (set_manifest l a).
Proof. intros []. now constructor. Qed.

Lemma roadworthy_patrol_index (a : VehicleAgent) (i : nat) :
  roadworthy a -> roadworthy (set_patrol_index i a).
Proof. intros []. now constructor. Qed.

Lemma roadworthy_fuel_level (a : VehicleAgent) (f : float) :
  roadworthy a -> roadworthy (set_fuel_level f a).
Proof. intros []. now constructor. Qed.

Lemma roadworthy_is_broken (a : VehicleAgent) (b : bool) :
  roadworthy a -> roadworthy (set_is_broken b a).
Proof. intros []. now constructor. Qed.

Lemma roadworthy_is_refueling (a : VehicleAgent) (b : bool) :
  roadworthy a -> roadworthy (set_is_refueling b a).
Proof. intros []. now constructor. Qed.

Lemma roadworthy_waypoints (a : VehicleAgent) (l : list node) :
  roadworthy a -> forallb (has_node (city_map a)) l = true ->
  roadworthy (set_waypoints l a).
Proof. intros [] H. now constructor. Qed.

Lemma roadworthy_current_location (a : VehicleAgent) (x : node) :
  roadworthy a -> has_node (city_map a) x = true ->
  roadworthy (set_current_location x a).
Proof. intros [] H. now constructor. Qed.

Lemma roadworthy_pending_bids (a : VehicleAgent) (bids : gmap string PendingBid) :
  roadworthy a ->
  map_Forall (fun (_ : string) b =>
                has_node (city_map a) (b_origin b) = true
                /\ has_node (city_map a) (b_dest b) = true) bids ->
  roadworthy (set_pending_bids bids a).
Proof. intros [] H. now constructor. Qed.

Lemma forallb_same (f f' : node -> bool) (l : list node) :
  (forall x, f' x = f x) -> forallb f l = true -> forallb f' l = true.
Proof.
  intros Hf. rewrite !forallb_forall. intros H x Hx. rewrite Hf. auto.
Qed.

Lemma has_node_traffic_update (g : CityGraph) (u v : node) (w : Z) (x : node) :
  has_node (traffic_update g u v w) x = has_node g x.
Proof. unfold has_node. now rewrite nodes_traffic_update. Qed.

Lemma closed_traffic_update (g : CityGraph) (u v : node) (w : Z) :
  closed_edges g = true -> closed_edges (traffic_update g u v w) = true.
Proof.
  intros Hg. unfold traffic_update. destruct (has_edge g u v); [| exact Hg].
  unfold closed_edges, set_weight in *. cbn [edges].
  rewrite forallb_forall in *. intros x Hin.
  apply in_map_iff in Hin as (y & <- & Hy). specialize (Hg y Hy).
  unfold has_node in *. cbn [nodes]. now destruct (same_edge u v y).
Qed.

Lemma bounded_traffic_update (g : CityGraph) (u v : node) (w : Z) :
  bounded_metrics g = true -> w <= metric_limit ->
  bounded_metrics (traffic_update g u v w) = true.
Proof.
  intros Hg Hw. unfold traffic_update. destruct (has_edge g u v); [| exact Hg].
  unfold bounded_metrics, set_weight in *. cbn [edges].
  apply andb_prop in Hg as [Hlen Hall]. rewrite length_map, Hlen.
  cbn [andb]. rewrite forallb_forall in *. intros x Hin.
  apply in_map_iff in Hin as (y & <- & Hy). specialize (Hall y Hy).
  destruct (same_edge u v y); [| exact Hall].
  apply andb_prop in Hall as [_ Hbase]. cbn [snd weight].
  apply andb_true_intro. split; [now apply Z.leb_le | exact Hbase].
Qed.

Lemma roadworthy_city_map (a : VehicleAgent) (u v : node) (w : Z) :
  roadworthy a -> 0 <= w <= metric_limit ->
  roadworthy (set_city_map (traffic_update (city_map a) u v w) a).
Proof.
  intros [] [Hw Hw']. constructor; cbn [city_map set_city_map current_location
                                        waypoints patrol_route pending_bids].
  - now apply nonneg_traffic_update.
  - now apply bounded_traffic_update.
  - now apply closed_traffic_update.
  - now rewrite has_node_traffic_update.
  - now rewrite has_node_traffic_update.
  - eapply forallb_same; [| eassumption].
    intros x. apply has_node_traffic_update.
  - eapply forallb_same; [| eassumption].
    intros x. apply has_node_traffic_update.
  - eapply map_Forall_impl; [eassumption |]. intros k b. cbn beta.
    now rewrite !has_node_traffic_update.
Qed.

Lemma forallb_snoc (f : node -> bool) (l : list node) (x : node) :
  forallb f l = true -> f x = true -> forallb f (l ++ [x]) = true.
Proof. intros Hl Hx. rewrite forallb_app, Hl. simpl. now rewrite Hx. Qed.

(** *** Paths on a sound map *)

Lemma shortest_path_cases (g : CityGraph) (s t : node) (vehicle_type : string) :
  nonneg_weights g = true ->
  has_node g s = true -> has_node g t = true ->
  exists r,
    get_shortest_path g s t vehicle_type = Ok r
    /\ match r with
       | Some p => connects s t p /\ allowed_path g vehicle_type p
                   /\ (length p <= 2 * length (edges g) + 3)%nat
       | None => True
       end.
Proof.
  intros Hnonneg Hs Ht. apply has_node_In in Hs, Ht.
  destruct (get_shortest_path_spec g s t vehicle_type Hnonneg Hs Ht)
    as [(p & W & Hp & Hc & Ha & _) | [Hp _]].
  - exists (Some p). split; [exact Hp |]. split; [exact Hc |]. split; [exact Ha |].
    now apply (shortest_path_length g vehicle_type s t).
  - exists None. auto.
Qed.

Lemma edge_bounded (g : CityGraph) (u v : node) (d : EdgeData) :
  nonneg_weights g = true -> bounded_metrics g = true ->
  edge_data g u v = Some d ->
  0 <= weight d <= metric_limit /\ Z.abs (distance_of d) <= metric_limit.
Proof.
  intros Hnonneg Hbounded Hd. apply edge_data_In in Hd.
  unfold nonneg_weights, bounded_metrics in *.
  apply andb_prop in Hbounded as [_ Hall].
  rewrite forallb_forall in Hnonneg, Hall.
  specialize (Hnonneg _ Hd). specialize (Hall _ Hd). cbn [snd] in *.
  apply andb_prop in Hall as [Hw Hb].
  apply Z.leb_le in Hnonneg, Hw, Hb. auto.
Qed.

Lemma view_edge_target (g : CityGraph) (vehicle_type : string) (u v : node) :
  closed_edges g = true ->
  view_edge g vehicle_type u v ->
  has_node g v = true.
Proof.
  intros Hclosed (d & l & Hd & _).
  apply edge_data_In in Hd. unfold closed_edges in Hclosed.
  rewrite forallb_forall in Hclosed. specialize (Hclosed _ Hd).
  now apply andb_prop in Hclosed as [_ H].
Qed.

Lemma metric_limit_pos : 0 <= metric_limit.
Proof. unfold metric_limit. apply Z.pow_nonneg. lia. Qed.

(** The time of a path of the view is defined, and within the limit for
    each of its edges. *)
Lemma allowed_time (g : CityGraph) (vehicle_type : string) (p : list node) :
  nonneg_weights g = true -> bounded_metrics g = true ->
  allowed_path g vehicle_type p ->
  exists t, sum_weights g p = Ok t
            /\ Z.abs t <= Z.of_nat (pred (length p)) * metric_limit.
Proof.
  intros Hnonneg Hbounded. pose proof metric_limit_pos as HL.
  induction p as [| u [| v p] IH]; intros H;
    [exists 0; split; [reflexivity | simpl; lia]
    | exists 0; split; [reflexivity | simpl; lia] |].
  destruct H as [Huv Hrest].
  destruct (view_edge_data _ _ _ _ Huv) as (d & Hd).
  destruct (IH Hrest) as (t & Ht & Hbound).
  destruct (edge_bounded _ _ _ _ Hnonneg Hbounded Hd) as [Hw _].
  exists (weight d + t). rewrite sum_weights_cons, Hd, Ht. split; [reflexivity |].
  cbn [length pred] in *. nia.
Qed.

(** So is its distance. *)
Lemma allowed_distance (g : CityGraph) (vehicle_type : string) (p : list node) :
  nonneg_weights g = true -> bounded_metrics g = true ->
  allowed_path g vehicle_type p ->
  exists t, sum_base_weights g p = Ok t
            /\ Z.abs t <= Z.of_nat (pred (length p)) * metric_limit.
Proof.
  intros Hnonneg Hbounded. pose proof metric_limit_pos as HL.
  induction p as [| u [| v p] IH]; intros H;
    [exists 0; split; [reflexivity | simpl; lia]
    | exists 0; split; [reflexivity | simpl; lia] |].
  destruct H as [Huv Hrest].
  destruct (view_edge_data _ _ _ _ Huv) as (d & Hd).
  destruct (IH Hrest) as (t & Ht & Hbound).
  destruct (edge_bounded _ _ _ _ Hnonneg Hbounded Hd) as [_ Hb].
  exists (distance_of d + t).
  change (sum_base_weights g (u :: v :: p))
    with (match edge_data g u v with
          | Some d =>
              rbind (sum_base_weights g (v :: p))
                (fun t => Ok (match base_weight d with Some b => b | None => 10 end + t))
          | None => Raise KeyError
          end).
  rewrite Hd, Ht. split; [reflexivity |].
  cbn [length pred] in *. nia.
Qed.

(** The longest that a path returned on a bounded map can take. *)
Lemma path_metric_limit (g : CityGraph) (p : list node) (t : Z) :
  bounded_metrics g = true ->
  (length p <= 2 * length (edges g) + 3)%nat ->
  Z.abs t <= Z.of_nat (pred (length p)) * metric_limit ->
  Z.abs t <= (2 * edge_limit + 2) * metric_limit.
Proof.
  intros Hbounded Hlen Ht. pose proof metric_limit_pos as HL.
  apply andb_prop in Hbounded as [Hedges _]. apply Z.leb_le in Hedges.
  assert (Z.of_nat (pred (length p)) <= 2 * edge_limit + 2) by lia.
  nia.
Qed.

Lemma total_time_returns (g : CityGraph) (vehicle_type : string)
    (r : option (list node)) :
  nonneg_weights g = true -> bounded_metrics g = true ->
  match r with
  | Some p => allowed_path g vehicle_type p
              /\ (length p <= 2 * length (edges g) + 3)%nat
  | None => True
  end ->
  exists t, get_total_time g r = Ok t
            /\ Z.abs t <= (2 * edge_limit + 2) * metric_limit.
Proof.
  intros Hnonneg Hbounded. pose proof metric_limit_pos as HL.
  destruct r as [p |].
  - intros [Ha Hlen].
    destruct (allowed_time g vehicle_type p Hnonneg Hbounded Ha) as (t & Ht & Hb).
    exists t. split; [exact Ht |]. now apply (path_metric_limit g p).
  - intros _. exists 0. split; [reflexivity |]. unfold edge_limit. simpl Z.abs. nia.
Qed.

Lemma total_distance_returns (g : CityGraph) (vehicle_type : string)
    (r : option (list node)) :
  nonneg_weights g = true -> bounded_metrics g = true ->
  match r with
  | Some p => allowed_path g vehicle_type p
              /\ (length p <= 2 * length (edges g) + 3)%nat
  | None => True
  end ->
  exists t, get_total_distance g r = Ok t
            /\ Z.abs t <= (2 * edge_limit + 2) * metric_limit.
Proof.
  intros Hnonneg Hbounded. pose proof metric_limit_pos as HL.
  destruct r as [p |].
  - intros [Ha Hlen].
    destruct (allowed_distance g vehicle_type p Hnonneg Hbounded Ha) as (t & Ht & Hb).
    exists t. split; [exact Ht |]. now apply (path_metric_limit g p).
  - intros _. exists 0. split; [reflexivity |]. unfold edge_limit. simpl Z.abs. nia.
Qed.

(** *** Products with a float *)

Lemma float_range :
  2 * ((2 * edge_limit + 2) * metric_limit) < 2 ^ 1024 - 2 ^ 970.
Proof. vm_compute. reflexivity. Qed.

Lemma int_mul_returns (z : Z) (y : float) :
  Z.abs z <= 2 * ((2 * edge_limit + 2) * metric_limit) ->
  exists x, int_mul z y = Ok x.
Proof.
  intros Hz. unfold int_mul, int_to_float.
  destruct (Z.ltb_spec (Z.abs z) (2 ^ 1024 - 2 ^ 970)) as [_ | Hge].
  - eexists. reflexivity.
  - exfalso. pose proof float_range as Hr.
    apply (Z.lt_irrefl (2 ^ 1024 - 2 ^ 970)).
    eapply Z.le_lt_trans; [exact Hge |]. eapply Z.le_lt_trans; [exact Hz | exact Hr].
Qed.

Lemma runs_int_mul (z : Z) (y : float) (a : VehicleAgent)
    (Q : float -> VehicleAgent -> Prop) :
  Z.abs z <= 2 * ((2 * edge_limit + 2) * metric_limit) ->
  (forall x, Q x a) ->
  runs (lift (int_mul z y)) a Q.
Proof.
  intros Hz HQ. destruct (int_mul_returns z y Hz) as (x & Hx).
  exists x, a, []. unfold lift. rewrite Hx. auto.
Qed.

Lemma metric_in_range (z : Z) :
  Z.abs z <= metric_limit ->
  Z.abs z <= 2 * ((2 * edge_limit + 2) * metric_limit).
Proof.
  intros Hz. pose proof metric_limit_pos as HL. unfold edge_limit.
  assert (0 <= 2 ^ 20) by (apply Z.pow_nonneg; lia). nia.
Qed.

Lemma path_metric_in_range (z : Z) :
  Z.abs z <= (2 * edge_limit + 2) * metric_limit ->
  Z.abs z <= 2 * ((2 * edge_limit + 2) * metric_limit).
Proof.
  intros Hz. pose proof metric_limit_pos as HL. unfold edge_limit in *.
  assert (0 <= 2 ^ 20) by (apply Z.pow_nonneg; lia). nia.
Qed.

End Safety.

(** ** The handlers on a roadworthy vehicle *)

Section Handlers.
Import PyFloat CityMap Ontology Vehicle Props Extra.

Lemma runs_process_stop (location : node) (a : VehicleAgent) :
  roadworthy a ->
  has_node (city_map a) location = true ->
  runs (process_stop location) a
    (fun _ a' =>
       roadworthy a'
       /\ current_location a' = current_location a
       /\ city_map a' = city_map a).
Proof.
  intros Hrw Hloc. unfold process_stop. apply runs_bind, runs_get.
  destruct (String.eqb location "GasStation").
  - apply runs_bind, runs_send, runs_modify.
    split; [now apply roadworthy_is_refueling | auto].
  - cbv zeta.
    apply (runs_seq _ _ _
             (fun _ a1 => roadworthy a1
                          /\ current_location a1 = current_location a
                          /\ city_map a1 = city_map a)).
    { apply runs_when; intros _; [apply runs_modify |];
        (split; [| auto]); [now apply roadworthy_manifest | exact Hrw]. }
    intros _ a1 (Hrw1 & Hloc1 & Hmap1). apply runs_bind, runs_get.
    apply (runs_seq _ _ _
             (fun _ a2 => roadworthy a2
                          /\ current_location a2 = current_location a
                          /\ city_map a2 = city_map a)).
    { apply runs_when; intros _; [| auto].
      destruct (shortest_path_cases (city_map a1) location "GasStation" "bus")
        as (r & Hr & Hspec);
        [apply (rw_weights _ Hrw1) | now rewrite Hmap1 | apply (rw_depot _ Hrw1) |].
      apply runs_bind. apply (runs_lift _ r); [exact Hr |].
      apply (runs_seq _ _ _ (fun _ a2 => a2 = a1)).
      { destruct (truthy r) eqn:Htruthy; [| now apply runs_ret].
        destruct (total_distance_returns (city_map a1) "bus" r) as (d & Hd & Hbound);
          [apply (rw_weights _ Hrw1) | apply (rw_bounded _ Hrw1)
          | destruct r; tauto |].
        apply runs_bind. apply (runs_lift _ d); [exact Hd |].
        apply runs_int_mul; [now apply path_metric_in_range | reflexivity]. }
      intros cost a2 ->.
      apply runs_when; intros _; [| auto].
      apply runs_when; intros _; [| auto].
      apply runs_go_to_gas_station; [auto |].
      split; [| auto]. apply roadworthy_waypoints; [exact Hrw1 |].
      apply forallb_snoc; [apply (rw_waypoints _ Hrw1) | apply (rw_depot _ Hrw1)]. }
    intros _ a2 H2. now apply runs_send_status_update.
Qed.

Lemma connects_head (s t x : node) (p : list node) :
  connects s t (x :: p) -> x = s.
Proof. intros [H _]. now inversion H. Qed.

Lemma runs_move_to_next_node (fault : bool) (a : VehicleAgent) :
  roadworthy a ->
  runs (move_to_next_node fault) a
    (fun _ a' =>
       roadworthy a'
       /\ city_map a' = city_map a
       /\ (current_location a' = current_location a
           \/ view_edge (city_map a) (vehicle_type a)
                (current_location a) (current_location a'))).
Proof.
  intros Hrw. unfold move_to_next_node. apply runs_bind, runs_get.
  destruct (waypoints a) as [| target_stop remaining] eqn:Hw;
    [apply runs_ret; auto |].
  pose proof (rw_waypoints _ Hrw) as Hway. rewrite Hw in Hway.
  apply andb_prop in Hway as [Htarget Hremaining].
  assert (Hpop : roadworthy (set_waypoints remaining a))
    by now apply roadworthy_waypoints.
  destruct (String.eqb_spec (current_location a) target_stop) as [Hat | Haway].
  - apply runs_bind, runs_modify.
    eapply runs_mono; [apply (runs_process_stop target_stop _ Hpop Htarget) |].
    cbn [current_location city_map set_waypoints]. intuition.
  - destruct (shortest_path_cases (city_map a) (current_location a) target_stop
                (vehicle_type a))
      as (r & Hr & Hspec);
      [apply (rw_weights _ Hrw) | apply (rw_location _ Hrw) | exact Htarget |].
    apply runs_bind. apply (runs_lift _ r); [exact Hr |].
    destruct r as [[| x [| next_node rest]] |];
      try (apply runs_modify; split; [exact Hpop | now auto]).
    destruct Hspec as (Hconn & Hallowed & _).
    apply connects_head in Hconn. subst x.
    destruct Hallowed as [Hedge _].
    destruct (view_edge_data _ _ _ _ Hedge) as (d & Hd). rewrite Hd. cbv zeta.
    pose proof (view_edge_target _ _ _ _ (rw_edges _ Hrw) Hedge) as Hnext.
    destruct (edge_bounded _ _ _ _ (rw_weights _ Hrw) (rw_bounded _ Hrw) Hd)
      as [Htime Hdistance].
    apply runs_bind. apply runs_int_mul; [now apply metric_in_range |].
    intros fuel_cost.
    destruct (negb (is_tram a) && _).
    + apply runs_trigger_breakdown.
      split; [now apply roadworthy_is_broken | auto].
    + apply runs_bind, runs_send_status_update, runs_bind.
      apply runs_int_mul; [apply metric_in_range; lia |]. intros sleep_time.
      apply runs_bind, runs_modify.
      apply (runs_seq _ _ _
               (fun _ a1 => roadworthy a1
                            /\ city_map a1 = city_map a
                            /\ current_location a1 = next_node)).
      { apply runs_when; intros _; [apply runs_modify |];
          (split; [| auto]);
          [apply roadworthy_fuel_level |];
          now apply roadworthy_current_location. }
      intros _ a1 (Hrw1 & Hmap1 & Hloc1).
      destruct fault.
      * apply runs_trigger_breakdown.
        split; [now apply roadworthy_is_broken |]. split; [exact Hmap1 |].
        right. cbn [current_location set_is_broken]. now rewrite Hloc1.
      * apply runs_send_status_update.
        split; [exact Hrw1 |]. split; [exact Hmap1 |].
        right. now rewrite Hloc1.
Qed.

Lemma allowed_of_cases (g : CityGraph) (vehicle_type : string) (s t : node)
    (r : option (list node)) :
  match r with
  | Some p => connects s t p /\ allowed_path g vehicle_type p
              /\ (length p <= 2 * length (edges g) + 3)%nat
  | None => True
  end ->
  match r with
  | Some p => allowed_path g vehicle_type p
              /\ (length p <= 2 * length (edges g) + 3)%nat
  | None => True
  end.
Proof. destruct r; tauto. Qed.

Lemma runs_handle_cfp (msg : Message) (origin destination : node) (n : Z)
    (a : VehicleAgent) :
  roadworthy a ->
  has_node (city_map a) origin = true ->
  has_node (city_map a) destination = true ->
  runs (handle_cfp msg (ride_request origin destination n)) a
    (fun _ a' => roadworthy a' /\ city_map a' = city_map a).
Proof.
  intros Hrw Horigin Hdest. unfold handle_cfp, send_refuse.
  pose proof (rw_weights _ Hrw) as Hnonneg.
  pose proof (rw_bounded _ Hrw) as Hbounded.
  apply runs_bind, runs_get. cbv zeta.
  destruct (negb (is_tram a) && _).
  { apply runs_bind, runs_send. apply runs_when; intros _; [| auto].
    apply runs_go_to_gas_station; [auto |]. split; [| auto].
    apply roadworthy_waypoints; [exact Hrw |].
    apply forallb_snoc; [apply (rw_waypoints _ Hrw) | apply (rw_depot _ Hrw)]. }
  destruct (is_full a); [apply runs_send; auto |].
  destruct (shortest_path_cases (city_map a) (current_location a) origin
              (vehicle_type a))
    as (path_pickup & Hpickup & Hspec1);
    [exact Hnonneg | apply (rw_location _ Hrw) | exact Horigin |].
  destruct (shortest_path_cases (city_map a) origin destination (vehicle_type a))
    as (path_trip & Htrip & Hspec2);
    [exact Hnonneg | exact Horigin | exact Hdest |].
  apply allowed_of_cases in Hspec1, Hspec2.
  apply runs_bind. apply (runs_lift _ path_pickup); [exact Hpickup |].
  apply runs_bind. apply (runs_lift _ path_trip); [exact Htrip |].
  destruct (negb (truthy path_pickup) || negb (truthy path_trip));
    [apply runs_send; auto |].
  destruct (total_time_returns _ _ _ Hnonneg Hbounded Hspec1)
    as (pickup_time & Hpt & _).
  destruct (total_time_returns _ _ _ Hnonneg Hbounded Hspec2)
    as (trip_time & Htt & _).
  destruct (total_distance_returns _ _ _ Hnonneg Hbounded Hspec1)
    as (pickup_cost & Hpc & Hpcb).
  destruct (total_distance_returns _ _ _ Hnonneg Hbounded Hspec2)
    as (trip_cost & Htc & Htcb).
  apply runs_bind. apply (runs_lift _ pickup_time); [exact Hpt |].
  apply runs_bind. apply (runs_lift _ trip_time); [exact Htt |].
  apply runs_bind. apply (runs_lift _ pickup_cost); [exact Hpc |].
  apply runs_bind. apply (runs_lift _ trip_cost); [exact Htc |].
  apply runs_bind. apply runs_int_mul; [lia |]. intros fuel_needed.
  match goal with
  | |- runs (if _ then _ else ?propose) _ ?Q =>
      assert (Hpropose : runs propose a Q)
  end.
  { apply runs_bind. apply runs_when; intros _; [apply runs_modify |];
      apply runs_send; [| auto].
    split; [| auto]. apply roadworthy_pending_bids; [exact Hrw |].
    destruct (thread msg) as [t |]; [| apply (rw_bids _ Hrw)].
    apply map_Forall_insert_2; [split; assumption | apply (rw_bids _ Hrw)]. }
  destruct (negb (is_tram a)); [| exact Hpropose].
  destruct (shortest_path_cases (city_map a) destination "GasStation" "bus")
    as (path_pump & Hpump & Hspec3);
    [exact Hnonneg | exact Hdest | apply (rw_depot _ Hrw) |].
  apply allowed_of_cases in Hspec3.
  apply runs_bind. apply (runs_lift _ path_pump); [exact Hpump |].
  apply (runs_seq _ _ _ (fun _ a2 => a2 = a)).
  { destruct (truthy path_pump); [| now apply runs_ret].
    destruct (total_time_returns _ _ _ Hnonneg Hbounded Hspec3) as (t & Ht & Htb).
    apply runs_bind. apply (runs_lift _ t); [exact Ht |].
    apply runs_int_mul; [now apply path_metric_in_range | reflexivity]. }
  intros safety a2 ->.
  destruct (ltb (fuel_level a) _); [apply runs_send; auto | exact Hpropose].
Qed.

Lemma queue_after_award_nodes (g : CityGraph) (location origin dest : node)
    (queue : list node) :
  has_node g origin = true -> has_node g dest = true ->
  forallb (has_node g) queue = true ->
  forallb (has_node g) (queue_after_award location origin dest queue) = true.
Proof.
  intros Ho Hd Hq. unfold queue_after_award.
  assert (H : forallb (has_node g)
                (if negb (String.eqb location origin)
                    && match last_waypoint queue with
                       | Some w => negb (String.eqb w origin)
                       | None => true
                       end
                 then origin :: queue else queue) = true).
  { destruct (_ && _); [| exact Hq]. simpl. now rewrite Ho, Hq. }
  destruct (mem dest _); [exact H | now apply forallb_snoc].
Qed.

Lemma runs_handle_acceptance (msg : Message) (content : Content)
    (a : VehicleAgent) :
  roadworthy a ->
  runs (handle_acceptance msg content) a
    (fun _ a' => roadworthy a' /\ city_map a' = city_map a).
Proof.
  intros Hrw. destruct (is_full a) eqn:Hfull.
  { eexists _, _, _. split; [| split; [exact Hrw | reflexivity]].
    apply handle_acceptance_full, is_full_true, Hfull. }
  destruct (thread msg) as [t |] eqn:Ht.
  - destruct (pending_bids a !! t) as [b |] eqn:Hb.
    + eexists _, _, _. split.
      { apply (handle_acceptance_commit a msg content t b);
          [now apply is_full_false | exact Ht | exact Hb]. }
      split; [| reflexivity].
      destruct (rw_bids _ Hrw t b Hb) as [Ho Hd].
      apply roadworthy_pending_bids;
        [apply roadworthy_waypoints; [now apply roadworthy_manifest |] |].
      * apply queue_after_award_nodes;
          [exact Ho | exact Hd | apply (rw_waypoints _ Hrw)].
      * apply map_Forall_delete, (rw_bids _ Hrw).
    + unfold handle_acceptance. apply runs_bind, runs_get.
      rewrite Hfull, Ht, Hb. apply runs_ret. auto.
  - unfold handle_acceptance. apply runs_bind, runs_get.
    rewrite Hfull, Ht. apply runs_ret. auto.
Qed.

Lemma runs_divert (target_station : node) (a : VehicleAgent) :
  roadworthy a ->
  has_node (city_map a) target_station = true ->
  runs (divert target_station) a
    (fun _ a' => roadworthy a' /\ city_map a' = city_map a).
Proof.
  intros Hrw Hst. unfold divert. apply runs_bind, runs_get.
  apply runs_when; intros _; [apply runs_modify | auto].
  split; [| auto]. apply roadworthy_waypoints; [exact Hrw |].
  simpl. now rewrite Hst, (rw_waypoints _ Hrw).
Qed.

Lemma runs_process_service_message (content : Content) (a : VehicleAgent) :
  roadworthy a ->
  runs (process_service_message content) a
    (fun _ a' => roadworthy a' /\ city_map a' = city_map a).
Proof.
  intros Hrw. unfold process_service_message.
  destruct content; try (apply runs_ret; now auto).
  - apply runs_bind, runs_modify.
    apply (runs_seq _ _ _
             (fun _ a1 => roadworthy a1 /\ city_map a1 = city_map a)).
    { apply runs_when; intros _; [apply runs_modify |];
        (split; [| auto]);
        [apply roadworthy_fuel_level |]; now apply roadworthy_is_broken. }
    intros _ a1 H1. now apply runs_send_status_update.
  - apply runs_bind, runs_modify, runs_bind, runs_modify, runs_bind, runs_modify,
      runs_send_status_update.
    split; [| auto].
    apply roadworthy_current_location; [| apply (rw_depot _ Hrw)].
    now apply roadworthy_is_refueling, roadworthy_fuel_level.
Qed.

Lemma runs_dispatch (msg : Message) (a : VehicleAgent) :
  roadworthy a ->
  well_formed (city_map a) msg ->
  runs (dispatch msg) a
    (fun _ a' => roadworthy a' /\ nodes (city_map a') = nodes (city_map a)).
Proof.
  intros Hrw Hwf. unfold dispatch, well_formed in *.
  destruct (performative msg), (body msg) eqn:Hbody; try contradiction;
    try (apply runs_ret; now auto);
    try (eapply runs_mono;
         [first [ apply (runs_handle_acceptance msg _ a Hrw)
                | apply (runs_process_service_message _ a Hrw)
                | apply (runs_divert _ a Hrw Hwf)
                | apply (runs_handle_cfp msg _ _ _ a Hrw); tauto ]
         | cbn beta; intros _ a' [H1 H2]; now rewrite H2]).
  apply runs_bind, runs_get, runs_modify.
  split; [now apply roadworthy_city_map | apply nodes_traffic_update].
Qed.

Lemma runs_patrol (a : VehicleAgent) :
  roadworthy a ->
  runs patrol a (fun _ a' => roadworthy a' /\ city_map a' = city_map a).
Proof.
  intros Hrw. unfold patrol. apply runs_bind, runs_get.
  apply runs_when; intros _; [| auto]. cbv zeta.
  destruct (nth_error _ _) as [next_stop |] eqn:Hnth; [| apply runs_ret; auto].
  apply nth_error_In in Hnth.
  pose proof (rw_patrol _ Hrw) as Hroute. rewrite forallb_forall in Hroute.
  specialize (Hroute _ Hnth).
  destruct (String.eqb (current_location a) next_stop).
  - apply runs_modify. split; [now apply roadworthy_patrol_index | auto].
  - apply runs_bind, runs_modify, runs_modify. split; [| auto].
    apply roadworthy_patrol_index, roadworthy_waypoints; [exact Hrw |].
    apply forallb_snoc; [apply (rw_waypoints _ Hrw) | exact Hroute].
Qed.

Lemma runs_run (msg : option Message) (fault : bool) (a : VehicleAgent) :
  roadworthy a ->
  match msg with
  | Some m => well_formed (city_map a) m
  | None => True
  end ->
  runs (run msg fault) a
    (fun _ a' => roadworthy a' /\ nodes (city_map a') = nodes (city_map a)).
Proof.
  intros Hrw Hwf. unfold run.
  apply (runs_seq _ _ _
           (fun _ a1 => roadworthy a1
                        /\ nodes (city_map a1) = nodes (city_map a))).
  { destruct msg as [m |]; [now apply runs_dispatch | apply runs_ret; auto]. }
  intros _ a1 [H1 Hn1].
  apply (runs_seq _ _ _
           (fun _ a2 => roadworthy a2
                        /\ nodes (city_map a2) = nodes (city_map a))).
  { eapply runs_mono; [apply (runs_patrol a1 H1) |].
    cbn beta. intros _ a2 [H2 Hm2]. now rewrite Hm2. }
  intros _ a2 [H2 Hn2]. apply runs_bind, runs_get.
  apply runs_when; intros _; [| auto].
  eapply runs_mono; [apply (runs_move_to_next_node fault a2 H2) |].
  cbn beta. intros _ a3 (H3 & Hm3 & _). now rewrite Hm3.
Qed.

End Handlers.

(** ** One cycle of a roadworthy vehicle *)

Section Cycle.
Import PyFloat CityMap Ontology Vehicle Props Extra.

(** X13.  The loop of a roadworthy vehicle raises nothing.  On a message
    that is well formed for its map, or on none, one cycle of [run] returns;
    the vehicle is roadworthy afterwards and its map has the nodes it had,
    so the next cycle returns as well.  Roadworthy includes that the times
    and distances of the map are within [metric_limit], and well formed
    that the time of a traffic update is: beyond the range of floats the
    products with [fuel_consumption] and [TIME_SCALE] raise
    [OverflowError]. *)
Theorem cycle_never_raises (msg : option Message) (fault : bool)
    (a : VehicleAgent) :
  roadworthy a ->
  match msg with
  | Some m => well_formed (city_map a) m
  | None => True
  end ->
  exists a' out,
    run msg fault a = Ok (tt, a', out)
    /\ roadworthy a'
    /\ nodes (city_map a') = nodes (city_map a).
Proof.
  intros Hrw Hwf.
  destruct (runs_run msg fault a Hrw Hwf) as ([] & a' & out & Hrun & H1 & H2).
  exists a', out. auto.
Qed.

(** X14.  A movement step of a roadworthy vehicle returns, and it leaves
    the vehicle where it was or takes it across one edge of its map that
    permits its class. *)
Theorem moves_one_permitted_edge (fault : bool) (a : VehicleAgent) :
  roadworthy a ->
  exists a' out,
    move_to_next_node fault a = Ok (tt, a', out)
    /\ (current_location a' = current_location a
        \/ view_edge (city_map a) (vehicle_type a)
             (current_location a) (current_location a')).
Proof.
  intros Hrw.
  destruct (runs_move_to_next_node fault a Hrw)
    as ([] & a' & out & Hrun & _ & _ & H).
  exists a', out. auto.
Qed.

(** X15.  A vehicle created at a station of the sample map, to patrol
    stations of the sample map, is roadworthy. *)
Theorem fresh_vehicle_roadworthy
    (jid vehicle_type : string) (start_location : node)
    (maintenance_jid gas_station_jid dashboard_jid : string) (capacity : Z)
    (patrol_route : list node) :
  has_node create_sample_map start_location = true ->
  forallb (has_node create_sample_map) patrol_route = true ->
  roadworthy (init jid vehicle_type start_location maintenance_jid
                gas_station_jid dashboard_jid capacity patrol_route).
Proof.
  intros Hstart Hroute. constructor;
    cbn [init city_map current_location waypoints Vehicle.patrol_route
         pending_bids]; try assumption;
    try (vm_compute; reflexivity).
  apply map_Forall_empty.
Qed.

End Cycle.

Lemma cycle_never_raises_witness :
  Extra.roadworthy Props.bus_1
  /\ Extra.well_formed (Vehicle.city_map Props.bus_1) Props.cfp_south
  /\ exists a' out,
      Vehicle.run (Some Props.cfp_south) false Props.bus_1 = Ok (tt, a', out)
      /\ Extra.roadworthy a'
      /\ CityMap.nodes (Vehicle.city_map a')
         = CityMap.nodes (Vehicle.city_map Props.bus_1).
Proof.
  assert (H1 : Extra.roadworthy Props.bus_1).
  { constructor; try (vm_compute; reflexivity). apply map_Forall_empty. }
  assert (H2 : Extra.well_formed (Vehicle.city_map Props.bus_1) Props.cfp_south)
    by (vm_compute; split; reflexivity).
  split; [exact H1 |]. split; [exact H2 |].
  exact (cycle_never_raises (Some Props.cfp_south) false Props.bus_1 H1 H2).
Defined.

(** [bus_1], bound for the Airport, leaves the South on the road to the
    Airport, which permits buses. *)
Lemma moves_one_permitted_edge_witness :
  Extra.roadworthy Extra.bus_1_to_airport
  /\ exists a' out,
      Vehicle.move_to_next_node false Extra.bus_1_to_airport = Ok (tt, a', out)
      /\ (Vehicle.current_location a'
          = Vehicle.current_location Extra.bus_1_to_airport
          \/ Props.view_edge (Vehicle.city_map Extra.bus_1_to_airport)
               (Vehicle.vehicle_type Extra.bus_1_to_airport)
               (Vehicle.current_location Extra.bus_1_to_airport)
               (Vehicle.current_location a')).
Proof.
  assert (H1 : Extra.roadworthy Extra.bus_1_to_airport).
  { constructor; try (vm_compute; reflexivity). apply map_Forall_empty. }
  split; [exact H1 |].
  exact (moves_one_permitted_edge false Extra.bus_1_to_airport H1).
Defined.

(** The step of the witness, run: the bus reports, crosses to the Airport
    on 5.0 of fuel and reports again. *)
Example bus_1_reaches_airport :
  match Vehicle.move_to_next_node false Extra.bus_1_to_airport with
  | Ok (_, a', out) =>
      Vehicle.current_location Extra.bus_1_to_airport = "South"%string
      /\ Vehicle.current_location a' = "Airport"%string
      /\ Vehicle.fuel_level a' = PyFloat.of_int 95
      /\ Vehicle.waypoints a' = ["Airport"]%string
      /\ length out = 2%nat
  | Raise _ => False
  end.
Proof. vm_compute. repeat split; reflexivity. Qed.

(** Beyond the range of floats the step raises: with a time of [2 ** 1024]
    on the only road to the depot, a bus bound for the depot reports that
    it moves and the product with [TIME_SCALE] raises [OverflowError]. *)
Example huge_time_overflows :
  Vehicle.move_to_next_node false
    (Vehicle.set_city_map
       (CityMap.traffic_update CityMap.create_sample_map "South" "GasStation"
          (2 ^ 1024))
       (Vehicle.set_waypoints ["GasStation"%string] Props.bus_1))
  = Raise OverflowError.
Proof. vm_compute. reflexivity. Qed.

Lemma fresh_vehicle_roadworthy_witness :
  CityMap.has_node CityMap.create_sample_map "North" = true
  /\ forallb (CityMap.has_node CityMap.create_sample_map)
       ["North"; "East"; "Stadium"; "North"]%string = true
  /\ Extra.roadworthy
       (Vehicle.init "pedro_tram_1@jabb.im" "tram" "North"
          "pedro_mechanic@jabb.im" "pedro_fuel@jabb.im"
          "pedro_dashboard@jabb.im" 6
          ["North"; "East"; "Stadium"; "North"]%string).
Proof.
  assert (H1 : CityMap.has_node CityMap.create_sample_map "North" = true)
    by (vm_compute; reflexivity).
  assert (H2 : forallb (CityMap.has_node CityMap.create_sample_map)
                 ["North"; "East"; "Stadium"; "North"]%string = true)
    by (vm_compute; reflexivity).
  split; [exact H1 |]. split; [exact H2 |].
  exact (fresh_vehicle_roadworthy "pedro_tram_1@jabb.im" "tram" "North"
           "pedro_mechanic@jabb.im" "pedro_fuel@jabb.im"
           "pedro_dashboard@jabb.im" 6
           ["North"; "East"; "Stadium"; "North"]%string H1 H2).
Defined.

(** ** A vehicle out of service *)

Section OutOfService.
Import PyFloat CityMap Ontology Vehicle Props Extra.




End OutOfService.


(** ** The agents around the vehicles *)

Section Agents.
Import PyFloat CityMap Ontology Station Vehicle Props Extra.

Lemma choice_init_edges (name : string) (vehicles : list string) (r : nat) :
  exists u v,
    TrafficManager.choice
      (TrafficManager.edges (TrafficManager.init name vehicles)) r
    = Some (u, v)
    /\ has_edge create_sample_map u v = true.
Proof.
  unfold TrafficManager.choice, TrafficManager.init.
  cbn [TrafficManager.edges length].
  pose proof (Nat.mod_upper_bound r 6 ltac:(lia)) as Hr.
  destruct (Nat.modulo r 6) as [| [| [| [| [| [| n]]]]]]; [.. | lia];
    eexists _, _; (split; [reflexivity | vm_compute; reflexivity]).
Qed.

(** A cycle that starts with a message to which the vehicle answers
    nothing goes on as a cycle without a message. *)
Lemma run_after_dispatch (m : Message) (fault : bool) (a a1 : VehicleAgent) :
  dispatch m a = Ok (tt, a1, []) ->
  run (Some m) fault a = run None fault a1.
Proof. intros H. unfold run, bind, ret. now rewrite H. Qed.

(** A cycle without a message returns, on the same map. *)
Lemma runs_idle_cycle (fault : bool) (a : VehicleAgent) :
  roadworthy a ->
  runs (run None fault) a (fun _ a' => roadworthy a' /\ city_map a' = city_map a).
Proof.
  intros Hrw. unfold run.
  apply (runs_seq _ _ _ (fun _ a1 => a1 = a)); [now apply runs_ret |].
  intros _ a1 ->.
  apply (runs_seq _ _ _ (fun _ a2 => roadworthy a2 /\ city_map a2 = city_map a));
    [apply (runs_patrol a Hrw) |].
  intros _ a2 [H2 Hm2]. apply runs_bind, runs_get.
  apply runs_when; intros _; [| auto].
  eapply runs_mono; [apply (runs_move_to_next_node fault a2 H2) |].
  cbn beta. intros _ a3 (H3 & Hm3 & _). split; [exact H3 | congruence].
Qed.

(** X17.  Every run of the traffic manager sends one update to each known
    vehicle, in order; the update names a road of the sample map and a time
    between 10 and 60.  A roadworthy vehicle that receives it goes through
    its cycle of [run] as it would without a message with that time written
    on its copy of the map: the cycle returns, the vehicle is roadworthy
    afterwards and its map is the old one with the new time on that
    road. *)
Theorem traffic_broadcast_is_safe (name : string) (vehicles : list string)
    (r : nat) (is_jam : bool) (k : Z) :
  30 <= k <= 60 ->
  exists u v w,
    TrafficManager.run (TrafficManager.init name vehicles) r is_jam k
    = Some (map (fun v_jid =>
                   create_message name v_jid INFORM (traffic_update_msg u v w) None)
                vehicles)
    /\ has_edge create_sample_map u v = true
    /\ 10 <= w <= 60
    /\ forall a v_jid fault,
         roadworthy a ->
         run (Some (create_message name v_jid INFORM (traffic_update_msg u v w) None))
             fault a
         = run None fault (set_city_map (traffic_update (city_map a) u v w) a)
         /\ exists a' out,
             run (Some (create_message name v_jid INFORM
                          (traffic_update_msg u v w) None)) fault a
             = Ok (tt, a', out)
             /\ roadworthy a'
             /\ city_map a' = traffic_update (city_map a) u v w.
Proof.
  intros Hk.
  destruct (choice_init_edges name vehicles r) as (u & v & Hchoice & Hedge).
  exists u, v, (if is_jam then k else 10).
  split.
  { unfold TrafficManager.run. now rewrite Hchoice. }
  split; [exact Hedge |].
  split; [destruct is_jam; lia |].
  intros a v_jid fault Hrw.
  assert (Hrun : run (Some (create_message name v_jid INFORM
                              (traffic_update_msg u v (if is_jam then k else 10))
                              None)) fault a
                 = run None fault
                     (set_city_map
                        (traffic_update (city_map a) u v (if is_jam then k else 10))
                        a))
    by now apply run_after_dispatch.
  split; [exact Hrun |]. rewrite Hrun.
  assert (Hrw' : roadworthy
                   (set_city_map
                      (traffic_update (city_map a) u v (if is_jam then k else 10)) a)).
  { apply roadworthy_city_map; [exact Hrw |].
    assert (60 <= metric_limit) by (vm_compute; discriminate).
    destruct is_jam; lia. }
  destruct (runs_idle_cycle fault _ Hrw') as ([] & a' & out & Hcycle & H1 & H2).
  exists a', out. auto.
Qed.

(** X18.  A surge alert diverts a vehicle that can take it.  The station
    broadcasts only with more than two passengers waiting, to vehicles it
    knows.  A vehicle that receives the alert goes through its cycle of [run]
    as it would without a message, with the station put at the head of its
    waypoint queue if it has a free seat, is in service, is not at the
    station and is not bound for it, and with its queue as it was
    otherwise. *)
Theorem surge_alert_diverts (st : StationAgent) (a : VehicleAgent)
    (m : Message) (fault : bool) :
  In m (Broadcast.run st) ->
  (2 < length (passenger_queue st))%nat
  /\ In (to m) (known_vehicles st)
  /\ exists a1,
      run (Some m) fault a = run None fault a1
      /\ (load a < capacity a
          /\ current_location a <> Station.location st
          /\ ~ In (Station.location st) (waypoints a)
          /\ is_broken a = false /\ is_refueling a = false ->
          a1 = set_waypoints (Station.location st :: waypoints a) a)
      /\ (~ (load a < capacity a
             /\ current_location a <> Station.location st
             /\ ~ In (Station.location st) (waypoints a)
             /\ is_broken a = false /\ is_refueling a = false) ->
          a1 = a).
Proof.
  unfold Broadcast.run. intros Hin.
  destruct (Nat.ltb_spec 2 (length (passenger_queue st))) as [Hq |];
    [| contradiction].
  apply in_map_iff in Hin as (v_jid & <- & Hv).
  split; [exact Hq |]. split; [exact Hv |].
  assert (Hcond : negb (is_full a)
                  && negb (String.eqb (Station.location st) (current_location a))
                  && negb (mem (Station.location st) (waypoints a))
                  && negb (is_broken a) && negb (is_refueling a) = true
                  <-> (load a < capacity a
                       /\ current_location a <> Station.location st
                       /\ ~ In (Station.location st) (waypoints a)
                       /\ is_broken a = false /\ is_refueling a = false)).
  { rewrite !andb_true_iff, !negb_true_iff, is_full_false.
    assert (Hmem : mem (Station.location st) (waypoints a) = false
                   <-> ~ In (Station.location st) (waypoints a)).
    { unfold mem. rewrite <- not_true_iff_false, existsb_exists. split.
      - intros H Hin. apply H. exists (Station.location st).
        split; [exact Hin | apply String.eqb_refl].
      - intros H (y & Hy & E). apply String.eqb_eq in E. subst y. contradiction. }
    rewrite Hmem, String.eqb_neq. intuition congruence. }
  destruct (negb (is_full a)
            && negb (String.eqb (Station.location st) (current_location a))
            && negb (mem (Station.location st) (waypoints a))
            && negb (is_broken a) && negb (is_refueling a)) eqn:Hc.
  - exists (set_waypoints (Station.location st :: waypoints a) a).
    split; [| split; [reflexivity |]].
    + apply run_after_dispatch.
      cbn [dispatch create_message performative body].
      unfold divert, bind, get, when. now rewrite Hc.
    + intros Hn. exfalso. apply Hn, Hcond. reflexivity.
  - exists a. split; [| split; [| reflexivity]].
    + apply run_after_dispatch.
      cbn [dispatch create_message performative body].
      unfold divert, bind, get, when. now rewrite Hc.
    + intros H. apply Hcond in H. discriminate.
Qed.

Lemma list_remove_last (x : string) (l : list string) :
  ~ In x l -> list_remove x (l ++ [x]) = l.
Proof.
  induction l as [| y l IH]; intros Hx; simpl.
  - now rewrite String.eqb_refl.
  - destruct (String.eqb_spec y x) as [-> | _]; [exfalso; apply Hx; now left |].
    rewrite IH; [reflexivity |]. intros H. apply Hx. now right.
Qed.

Lemma list_mem_last (x : string) (l : list string) :
  list_mem x (l ++ [x]) = true.
Proof.
  unfold list_mem. rewrite existsb_app. simpl.
  now rewrite String.eqb_refl, orb_true_r.
Qed.

(** X19.  A request that is cancelled is not answered.  A passenger who
    is not in the queue asks for a ride and a session starts; if no
    vehicle bids, the session refuses the passenger and the queue is as
    before the request; if the passenger cancels first, the queue is as
    before the request at once and the session sends the passenger
    nothing. *)
Theorem cancelled_request_is_silent (st : StationAgent) (passenger : string)
    (dest : node) (fresh_id : string) (inbox : list Message) :
  ~ In passenger (passenger_queue st) ->
  collect (mkCNP dest passenger fresh_id) inbox = Ok [] ->
  exists st1 c o o',
    on_travel_request st passenger dest fresh_id = (st1, c)
    /\ Station.run st1 c inbox = Ok o
    /\ sent o = broadcast_cfp st c
                ++ [create_message (Station.jid st) passenger REFUSE
                      (reason "no_vehicles_available") None]
    /\ passenger_queue (station_after o) = passenger_queue st
    /\ passenger_queue (on_cancel st1 passenger) = passenger_queue st
    /\ Station.run (on_cancel st1 passenger) c inbox = Ok o'
    /\ sent o' = broadcast_cfp st c
    /\ passenger_queue (station_after o') = passenger_queue st.
Proof.
  intros Hnew Hcollect.
  assert (Hmem : list_mem passenger (passenger_queue st) = false).
  { destruct (list_mem passenger (passenger_queue st)) eqn:E; [| reflexivity].
    apply list_mem_In in E. contradiction. }
  exists (mkStation (Station.jid st) (Station.location st) (known_vehicles st)
            (passenger_queue st ++ [passenger])),
    (mkCNP dest passenger fresh_id).
  unfold Station.run, conclude, on_cancel, dequeue.
  cbn [passenger_queue passenger_jid]. rewrite Hcollect.
  cbn [rbind sort_by_eta]. rewrite list_mem_last.
  cbn [passenger_queue Station.jid Station.location known_vehicles
       passenger_jid rbind station_after sent metric].
  rewrite (list_remove_last _ _ Hnew), Hmem.
  eexists _, _. split; [reflexivity |].
  cbn [rbind sent station_after passenger_queue].
  split; [reflexivity |]. split; [reflexivity |]. split; [reflexivity |].
  split; [reflexivity |]. split; [reflexivity |].
  split; [apply app_nil_r | reflexivity].
Qed.

(** X20.  One proposal without an ETA aborts the session.  If the
    messages received before the cutoff contain a [PROPOSE] on the
    session's thread whose body has no ["eta"] key, the session raises
    [KeyError] in its collection loop: the calls for proposals are out,
    and no award, rejection or answer to the passenger is ever sent. *)
Theorem malformed_bid_aborts_session (st : StationAgent) (c : CNPManager)
    (inbox : list Message) (m : Message) :
  In m inbox ->
  thread m = Some (conversation_id c) ->
  performative m = PROPOSE ->
  has_eta m = false ->
  collect c inbox = Raise KeyError
  /\ Station.run st c inbox = Raise KeyError
  /\ sent_by_run st c inbox = broadcast_cfp st c.
Proof.
  intros Hin Hthread Hperf Heta.
  assert (Hcollect : collect c inbox = Raise KeyError).
  { induction inbox as [| response inbox IH]; [contradiction |].
    simpl. destruct Hin as [-> | Hin].
    - rewrite Hthread, Hperf, String.eqb_refl. cbn [andb performative_eqb].
      unfold has_eta in Heta. now destruct (eta_of (body m)).
    - specialize (IH Hin). rewrite IH.
      destruct (_ && _); [| reflexivity].
      now destruct (eta_of (body response)). }
  unfold Station.run, sent_by_run. rewrite Hcollect.
  split; [reflexivity |]. split; [reflexivity | apply app_nil_r].
Qed.

(** X21.  A tram runs without fuel.  A movement step of a tram, whatever
    it does, leaves the fuel level as it was and reports no [no_fuel]
    breakdown. *)
Theorem tram_moves_without_fuel (fault : bool) (a a' : VehicleAgent)
    (out : list Message) :
  is_tram a = true ->
  move_to_next_node fault a = Ok (tt, a', out) ->
  fuel_level a' = fuel_level a
  /\ Forall (fun m => forall v l, body m <> breakdown_alert v l "no_fuel") out.
Proof.
  intros Htram Hrun. unfold move_to_next_node, process_stop in Hrun.
  unfold is_tram in *.
  repeat first [ rewrite Htram in Hrun; simpl in Hrun | step_method Hrun ];
    try discriminate; inversion Hrun; subst; simpl;
    (split; [reflexivity |]);
    repeat constructor; intros; discriminate.
Qed.

End Agents.

(** A jam of 45 minutes drawn for the road from the Airport to the South,
    and [bus_1] receiving the update. *)
Lemma traffic_broadcast_is_safe_witness :
  30 <= 45 <= 60
  /\ Extra.roadworthy Props.bus_1
  /\ exists u v w,
      TrafficManager.run
        (TrafficManager.init "pedro_traffic@jabb.im"
           ["pedro_bus_1@jabb.im"; "pedro_tram_1@jabb.im"]%string)
        5 true 45
      = Some (map (fun v_jid =>
                     Ontology.create_message "pedro_traffic@jabb.im" v_jid
                       Ontology.INFORM (Ontology.traffic_update_msg u v w) None)
                  ["pedro_bus_1@jabb.im"; "pedro_tram_1@jabb.im"]%string)
      /\ CityMap.has_edge CityMap.create_sample_map u v = true
      /\ 10 <= w <= 60
      /\ Vehicle.run
           (Some (Ontology.create_message "pedro_traffic@jabb.im"
                    "pedro_bus_1@jabb.im" Ontology.INFORM
                    (Ontology.traffic_update_msg u v w) None))
           false Props.bus_1
         = Vehicle.run None false
             (Vehicle.set_city_map
                (CityMap.traffic_update (Vehicle.city_map Props.bus_1) u v w)
                Props.bus_1)
      /\ exists a' out,
          Vehicle.run
            (Some (Ontology.create_message "pedro_traffic@jabb.im"
                     "pedro_bus_1@jabb.im" Ontology.INFORM
                     (Ontology.traffic_update_msg u v w) None))
            false Props.bus_1
          = Ok (tt, a', out)
          /\ Extra.roadworthy a'
          /\ Vehicle.city_map a'
             = CityMap.traffic_update (Vehicle.city_map Props.bus_1) u v w.
Proof.
  assert (H : 30 <= 45 <= 60) by lia.
  assert (Hrw : Extra.roadworthy Props.bus_1).
  { constructor; try (vm_compute; reflexivity). apply map_Forall_empty. }
  split; [exact H |]. split; [exact Hrw |].
  destruct (traffic_broadcast_is_safe "pedro_traffic@jabb.im"
              ["pedro_bus_1@jabb.im"; "pedro_tram_1@jabb.im"]%string 5 true 45 H)
    as (u & v & w & H1 & H2 & H3 & H4).
  exists u, v, w. split; [exact H1 |]. split; [exact H2 |]. split; [exact H3 |].
  exact (H4 Props.bus_1 "pedro_bus_1@jabb.im"%string false Hrw).
Defined.

(** The cycle of the witness, run: the update is [jam_airport_south]; the
    bus writes 45 on the road from the Airport to the South, queues the next
    stop of its patrol, moves there and reports twice on the way. *)
Example bus_1_cycle_with_jam :
  TrafficManager.run
    (TrafficManager.init "pedro_traffic@jabb.im"
       ["pedro_bus_1@jabb.im"; "pedro_tram_1@jabb.im"]%string)
    5 true 45
  = Some [Extra.jam_airport_south;
          Ontology.create_message "pedro_traffic@jabb.im" "pedro_tram_1@jabb.im"
            Ontology.INFORM (Ontology.traffic_update_msg "Airport" "South" 45) None]
  /\ match Vehicle.run (Some Extra.jam_airport_south) false Props.bus_1 with
     | Ok (_, a', out) =>
         option_map CityMap.weight
           (CityMap.edge_data (Vehicle.city_map a') "Airport" "South") = Some 45
         /\ Vehicle.current_location a' = "Central"%string
         /\ map (fun m => (Ontology.to m, Ontology.performative m)) out
            = [("pedro_dashboard@jabb.im"%string, Ontology.INFORM);
               ("pedro_dashboard@jabb.im"%string, Ontology.INFORM)]
     | Raise _ => False
     end.
Proof. vm_compute. repeat split; reflexivity. Qed.

(** The South station, crowded, alerts [tram_1], which stands at the North
    with an empty queue and is diverted. *)
Lemma surge_alert_diverts_witness :
  In Extra.surge_south (Broadcast.run Extra.st_south_crowded)
  /\ exists a1,
      Vehicle.run (Some Extra.surge_south) false Props.tram_1
      = Vehicle.run None false a1
      /\ a1 = Vehicle.set_waypoints ["South"%string] Props.tram_1.
Proof.
  assert (H : In Extra.surge_south (Broadcast.run Extra.st_south_crowded))
    by (vm_compute; tauto).
  split; [exact H |].
  destruct (surge_alert_diverts Extra.st_south_crowded Props.tram_1
              Extra.surge_south false H)
    as (_ & _ & a1 & H1 & H2 & _).
  exists a1. split; [exact H1 |]. apply H2.
  split; [vm_compute; reflexivity |].
  split; [discriminate |].
  split; [simpl; tauto |]. split; reflexivity.
Defined.

(** The diversion lasts as long as the waypoint does: no tram line leads to
    the South, so the tram drops the waypoint in the same cycle, and the
    next alert of the station diverts it again.  A bus standing at the
    Centre takes the road to the South. *)
Example surge_cycles :
  Vehicle.run (Some Extra.surge_south) false Props.tram_1
  = Ok (tt, Props.tram_1, [])
  /\ match Vehicle.run (Some Extra.surge_south) false
             (Vehicle.set_current_location "Central" Props.bus_1) with
     | Ok (_, a', _) =>
         Vehicle.current_location a' = "South"%string
         /\ Vehicle.waypoints a' = ["South"]%string
     | Raise _ => False
     end.
Proof. vm_compute. repeat split; reflexivity. Qed.

Lemma cancelled_request_is_silent_witness :
  ~ In "pedro_p_1@jabb.im"%string (Station.passenger_queue Props.st_south)
  /\ Station.collect (Station.mkCNP "Airport" "pedro_p_1@jabb.im" "6f1c-session") []
     = Ok []
  /\ exists st1 c o',
      Station.on_travel_request Props.st_south "pedro_p_1@jabb.im" "Airport"
        "6f1c-session" = (st1, c)
      /\ Station.passenger_queue (Station.on_cancel st1 "pedro_p_1@jabb.im")
         = Station.passenger_queue Props.st_south
      /\ Station.run (Station.on_cancel st1 "pedro_p_1@jabb.im") c [] = Ok o'
      /\ Station.sent o' = Station.broadcast_cfp Props.st_south c.
Proof.
  assert (H1 : ~ In "pedro_p_1@jabb.im"%string
                 (Station.passenger_queue Props.st_south))
    by (vm_compute; tauto).
  assert (H2 : Station.collect
                 (Station.mkCNP "Airport" "pedro_p_1@jabb.im" "6f1c-session") []
               = Ok []) by reflexivity.
  split; [exact H1 |]. split; [exact H2 |].
  destruct (cancelled_request_is_silent Props.st_south "pedro_p_1@jabb.im"
              "Airport" "6f1c-session" [] H1 H2)
    as (st1 & c & o & o' & E & _ & _ & _ & Hq & Hrun & Hsent & _).
  exists st1, c, o'. auto.
Defined.

Lemma malformed_bid_aborts_session_witness :
  In (Ontology.mkMessage "pedro_st_south@jabb.im" "pedro_bus_2@jabb.im"
        Ontology.PROPOSE (Some "6f1c-session"%string)
        (Ontology.reason "no_eta"))
     [Props.proposal "pedro_bus_1@jabb.im" 7;
      Ontology.mkMessage "pedro_st_south@jabb.im" "pedro_bus_2@jabb.im"
        Ontology.PROPOSE (Some "6f1c-session"%string)
        (Ontology.reason "no_eta")]
  /\ Station.run Props.st_south_waiting Props.cnp_south
       [Props.proposal "pedro_bus_1@jabb.im" 7;
        Ontology.mkMessage "pedro_st_south@jabb.im" "pedro_bus_2@jabb.im"
          Ontology.PROPOSE (Some "6f1c-session"%string)
          (Ontology.reason "no_eta")]
     = Raise KeyError
  /\ Station.sent_by_run Props.st_south_waiting Props.cnp_south
       [Props.proposal "pedro_bus_1@jabb.im" 7;
        Ontology.mkMessage "pedro_st_south@jabb.im" "pedro_bus_2@jabb.im"
          Ontology.PROPOSE (Some "6f1c-session"%string)
          (Ontology.reason "no_eta")]
     = Station.broadcast_cfp Props.st_south_waiting Props.cnp_south.
Proof.
  assert (H1 : In (Ontology.mkMessage "pedro_st_south@jabb.im"
                     "pedro_bus_2@jabb.im" Ontology.PROPOSE
                     (Some "6f1c-session"%string) (Ontology.reason "no_eta"))
                  [Props.proposal "pedro_bus_1@jabb.im" 7;
                   Ontology.mkMessage "pedro_st_south@jabb.im"
                     "pedro_bus_2@jabb.im" Ontology.PROPOSE
                     (Some "6f1c-session"%string) (Ontology.reason "no_eta")])
    by (right; left; reflexivity).
  split; [exact H1 |].
  exact (proj2 (malformed_bid_aborts_session Props.st_south_waiting
                  Props.cnp_south _ _ H1 eq_refl eq_refl eq_refl)).
Defined.

(** A [PROPOSE] whose body is [{"status": "vehicle_found", "eta": 50}] has
    the key: it is collected, and the bid of 7 beats it.  Were it the best,
    the session would raise at [best_vehicle], with only the calls out. *)
Example proposal_with_eta_only :
  match Station.run Props.st_south_waiting Props.cnp_south
          [Ontology.mkMessage "pedro_st_south@jabb.im" "pedro_p_9@jabb.im"
             Ontology.PROPOSE (Some "6f1c-session"%string)
             (Ontology.vehicle_found 50);
           Props.proposal "pedro_bus_1@jabb.im" 7] with
  | Ok o =>
      Station.metric o
      = Ontology.NEGOTIATION_OK "South" "Airport" 7 "pedro_bus_1@jabb.im" 2
  | Raise _ => False
  end
  /\ Station.run Props.st_south_waiting Props.cnp_south
       [Ontology.mkMessage "pedro_st_south@jabb.im" "pedro_p_9@jabb.im"
          Ontology.PROPOSE (Some "6f1c-session"%string)
          (Ontology.vehicle_found 5);
        Props.proposal "pedro_bus_1@jabb.im" 7]
     = Raise KeyError
  /\ Station.sent_by_run Props.st_south_waiting Props.cnp_south
       [Ontology.mkMessage "pedro_st_south@jabb.im" "pedro_p_9@jabb.im"
          Ontology.PROPOSE (Some "6f1c-session"%string)
          (Ontology.vehicle_found 5);
        Props.proposal "pedro_bus_1@jabb.im" 7]
     = Station.broadcast_cfp Props.st_south_waiting Props.cnp_south.
Proof. vm_compute. repeat split; reflexivity. Qed.

(** [tram_1] with an empty tank crosses from the North to the East. *)
Lemma tram_moves_without_fuel_witness :
  Vehicle.is_tram Extra.tram_1_dry = true
  /\ exists a' out,
      Vehicle.move_to_next_node false Extra.tram_1_dry = Ok (tt, a', out)
      /\ Vehicle.current_location Extra.tram_1_dry = "North"%string
      /\ Vehicle.current_location a' = "East"%string
      /\ Vehicle.fuel_level Extra.tram_1_dry = PyFloat.of_int 0
      /\ Vehicle.fuel_level a' = Vehicle.fuel_level Extra.tram_1_dry
      /\ Forall (fun m => forall v l,
                   Ontology.body m <> Ontology.breakdown_alert v l "no_fuel") out.
Proof.
  assert (H1 : Vehicle.is_tram Extra.tram_1_dry = true) by reflexivity.
  split; [exact H1 |].
  destruct (Vehicle.move_to_next_node false Extra.tram_1_dry)
    as [[[[] a'] out] | e] eqn:H2; [| vm_compute in H2; discriminate].
  exists a', out. split; [reflexivity |].
  split; [reflexivity |].
  split; [vm_compute in H2; inversion H2; reflexivity |].
  split; [reflexivity |].
  exact (tram_moves_without_fuel false _ _ _ H1 H2).
Defined.
